(** * MotionPhotoMuxer: a shallow embedding of [MotionPhotoMuxer.py]

    Definitions, in the order the program depends on them:

    - [PyStr]     : the [str] methods the program uses ([lower],
                    [endswith], [rfind], slicing, [split]);
    - [PosixPath] : [os.path.join], [basename], [dirname], [splitext];
    - [FS]        : a file-system tree with the [os] calls the program
                    makes ([exists], [isfile], [isdir], [getsize], [open],
                    [makedirs], [remove], [walk]);
    - [Muxer]     : the program, function by function, in a state and
                    exception monad over the file system, the XMP
                    namespace registry, the log of metadata writes and the
                    lines of standard input;
    - [Scenario]  : stand-ins for pyheif, PIL and pyexiv2, and small
                    directory trees;
    - [Housekeeping] : the rest of [main], with [os.listdir] and
                    [shutil.copy2]: the copy of the remaining files
                    and [delete_files].

    Then the facts ([PyStrFacts], [FSFacts], [RunFacts]), the properties
    of the specification, further properties of the program, and runs of
    the model ([Examples]).

    Modelling choices.  Path strings are sequences of 8-bit characters and
    [lower] is the ASCII case mapping.  A path is resolved from the root
    of the tree, which is also the working directory, through its
    non-empty components, so repeated and trailing separators are ignored;
    symbolic links and the [.] and [..] entries are outside the model.
    Writes to a file are not buffered.  The decoder of pyheif, the JPEG
    writer of PIL and pyexiv2 are functions on file contents given by an
    environment [Env]; [Image.save] itself is modelled, with the check
    PIL makes on its [exif] argument; calls to [logging] and [print] are
    left out. *)

From Stdlib Require Import ZArith Lia List Ascii String Bool.
From stdpp Require Import base gmap strings list.

Local Open Scope string_scope.
Local Open Scope Z_scope.

(* ===================================================================== *)
(** ** Python [str] methods *)
(* ===================================================================== *)

Module PyStr.

(** [c.lower()] on one character (ASCII letters only). *)
Definition lower_ascii (c : ascii) : ascii :=
  let n := nat_of_ascii c in
  if ((65 <=? n)%nat && (n <=? 90)%nat)%bool then ascii_of_nat (n + 32) else c.

(** [s.lower()] *)
Fixpoint lower (s : string) : string :=
  match s with
  | EmptyString => EmptyString
  | String c r => String (lower_ascii c) (lower r)
  end.

(** [s.startswith(p)] *)
Fixpoint startswith (s p : string) : bool :=
  match p, s with
  | EmptyString, _ => true
  | String a p', String b s' => Ascii.eqb a b && startswith s' p'
  | String _ _, EmptyString => false
  end.

(** [s[n:]] for a natural [n] *)
Fixpoint drop (n : nat) (s : string) : string :=
  match n, s with
  | O, _ => s
  | S n', String _ r => drop n' r
  | S _, EmptyString => EmptyString
  end.

(** [s[:n]] for a natural [n] *)
Fixpoint take (n : nat) (s : string) : string :=
  match n, s with
  | O, _ => EmptyString
  | S n', String a r => String a (take n' r)
  | S _, EmptyString => EmptyString
  end.

(** [s.endswith(suf)]: the last [len(suf)] characters of [s] are [suf]. *)
Definition endswith (s suf : string) : bool :=
  (String.length suf <=? String.length s)%nat
  && String.eqb (drop (String.length s - String.length suf) s) suf.

(** [s.endswith((suf1, suf2, ...))] with a tuple of suffixes. *)
Definition endswith_any (s : string) (sufs : list string) : bool :=
  existsb (endswith s) sufs.

(** [s.rfind(c)]: the highest index at which [c] occurs, [-1] if none. *)
Fixpoint rfind (c : ascii) (s : string) : Z :=
  match s with
  | EmptyString => -1
  | String a r =>
      let k := rfind c r in
      if 0 <=? k then k + 1 else if Ascii.eqb a c then 0 else -1
  end.

(** [s[:i]] and [s[i:]]; the program only slices at indices [i >= 0]. *)
Definition slice_to (i : Z) (s : string) : string := take (Z.to_nat i) s.
Definition slice_from (i : Z) (s : string) : string := drop (Z.to_nat i) s.

(** [s.rstrip(c)] for a single character [c]. *)
Fixpoint rstrip (c : ascii) (s : string) : string :=
  match s with
  | EmptyString => EmptyString
  | String a r =>
      match rstrip c r with
      | EmptyString => if Ascii.eqb a c then EmptyString else String a EmptyString
      | r' => String a r'
      end
  end.

(** [s == c * len(s)] *)
Fixpoint all_char (c : ascii) (s : string) : bool :=
  match s with
  | EmptyString => true
  | String a r => Ascii.eqb a c && all_char c r
  end.

(** [c in s] *)
Fixpoint mem (c : ascii) (s : string) : bool :=
  match s with
  | EmptyString => false
  | String a r => Ascii.eqb a c || mem c r
  end.

(** [s.split(c)] *)
Fixpoint split (c : ascii) (s : string) : list string :=
  match s with
  | EmptyString => [EmptyString]
  | String a r =>
      if Ascii.eqb a c then EmptyString :: split c r
      else match split c r with
           | w :: ws => String a w :: ws
           | [] => [String a EmptyString]
           end
  end.

End PyStr.

(* ===================================================================== *)
(** ** [os.path] (posixpath) *)
(* ===================================================================== *)

Module PosixPath.
Import PyStr.

Definition sep : ascii := "/"%char.
Definition extsep : ascii := "."%char.

(** [os.path.join(a, b)] *)
Definition join (a b : string) : string :=
  if startswith b "/" then b
  else if (String.eqb a "" || endswith a "/")%bool then a ++ b
  else a ++ "/" ++ b.

(** [os.path.basename(p)]: [i = p.rfind('/') + 1; return p[i:]] *)
Definition basename (p : string) : string :=
  let i := rfind sep p + 1 in
  slice_from i p.

(** [os.path.dirname(p)] *)
Definition dirname (p : string) : string :=
  let i := rfind sep p + 1 in
  let head := slice_to i p in
  if (negb (String.eqb head "") && negb (all_char sep head))%bool
  then rstrip sep head
  else head.

(** The loop of [genericpath._splitext] that skips leading dots: does the
    slice [p[sepIndex+1 : dotIndex]] hold a character other than a dot? *)
Fixpoint has_non_dot (s : string) : bool :=
  match s with
  | EmptyString => false
  | String a r => if Ascii.eqb a extsep then has_non_dot r else true
  end.

(** [os.path.splitext(p)] *)
Definition splitext (p : string) : string * string :=
  let sepIndex := rfind sep p in
  let dotIndex := rfind extsep p in
  if sepIndex <? dotIndex then
    if has_non_dot (slice_to (dotIndex - (sepIndex + 1)) (slice_from (sepIndex + 1) p))
    then (slice_to dotIndex p, slice_from dotIndex p)
    else (p, "")
  else (p, "").

(** The components a path is resolved through: the parts between
    separators, empty parts dropped. *)
Definition components (p : string) : list string :=
  filter (fun c => c ≠ "") (split sep p).

End PosixPath.

(* ===================================================================== *)
(** ** The file system *)
(* ===================================================================== *)

Module FS.
Import PosixPath.

(** A regular file holds its bytes; a directory lists its entries in the
    order a scan returns them. *)
#[warnings="-register-all"]
Inductive node : Type :=
| File (data : list Byte.byte)
| Dir (entries : list (string * node)).

Inductive errno : Set := ENOENT | EISDIR | ENOTDIR | EEXIST.

Fixpoint assoc (name : string) (es : list (string * node)) : option node :=
  match es with
  | [] => None
  | (k, n) :: es' => if String.eqb k name then Some n else assoc name es'
  end.

(** Replaces the entry called [name]; the entry is added last when the
    directory has none of that name. *)
Fixpoint set_entry (name : string) (n : node) (es : list (string * node))
  : list (string * node) :=
  match es with
  | [] => [(name, n)]
  | (k, m) :: es' =>
      if String.eqb k name then (k, n) :: es' else (k, m) :: set_entry name n es'
  end.

(** The node a component list leads to. *)
Fixpoint lookup (n : node) (p : list string) : option node :=
  match p with
  | [] => Some n
  | c :: p' =>
      match n with
      | Dir es => match assoc c es with
                  | Some n' => lookup n' p'
                  | None => None
                  end
      | File _ => None
      end
  end.

(** Stores [data] in the regular file at [p]: the file is created in an
    existing directory, or its content is replaced. *)
Fixpoint store (n : node) (p : list string) (data : list Byte.byte)
  : errno + node :=
  match p with
  | [] => match n with
          | File _ => inr (File data)
          | Dir _ => inl EISDIR
          end
  | c :: p' =>
      match n with
      | File _ => inl ENOTDIR
      | Dir es =>
          match assoc c es with
          | Some n' =>
              match store n' p' data with
              | inr n'' => inr (Dir (set_entry c n'' es))
              | inl e => inl e
              end
          | None =>
              match p' with
              | [] => inr (Dir (set_entry c (File data) es))
              | _ :: _ => inl ENOENT
              end
          end
      end
  end.

(** [mkdir -p]: every missing directory on the way is created; a regular
    file on the way is an error. *)
Fixpoint mkdir_p (n : node) (p : list string) : errno + node :=
  match p with
  | [] => match n with
          | Dir _ => inr n
          | File _ => inl EEXIST
          end
  | c :: p' =>
      match n with
      | File _ => inl ENOTDIR
      | Dir es =>
          match mkdir_p (default (Dir []) (assoc c es)) p' with
          | inr n'' => inr (Dir (set_entry c n'' es))
          | inl e => inl e
          end
      end
  end.

(** The bytes of the regular file a lookup found, if it found one. *)
Definition file_of (o : option node) : option (list Byte.byte) :=
  match o with
  | Some (File d) => Some d
  | _ => None
  end.

(** The empty path names nothing; any other path is resolved through its
    components. *)
Definition resolve (n : node) (path : string) : option node :=
  if String.eqb path "" then None else lookup n (components path).

(** [os.path.exists], [os.path.isfile], [os.path.isdir] *)
Definition exists_ (n : node) (path : string) : bool :=
  match resolve n path with Some _ => true | None => false end.
Definition isfile (n : node) (path : string) : bool :=
  match resolve n path with Some (File _) => true | _ => false end.
Definition isdir (n : node) (path : string) : bool :=
  match resolve n path with Some (Dir _) => true | _ => false end.

(** [os.path.getsize]; [dsize] is the size the platform reports for a
    directory. *)
Definition getsize (dsize : Z) (n : node) (path : string) : errno + Z :=
  match resolve n path with
  | Some (File d) => inr (Z.of_nat (length d))
  | Some (Dir _) => inr dsize
  | None => inl ENOENT
  end.

(** [open(path, "rb").read()] *)
Definition read (n : node) (path : string) : errno + list Byte.byte :=
  match resolve n path with
  | Some (File d) => inr d
  | Some (Dir _) => inl EISDIR
  | None => inl ENOENT
  end.

(** Replacing the content of [path], as [open(path, "wb")] followed by
    writes does. *)
Definition write (n : node) (path : string) (data : list Byte.byte)
  : errno + node :=
  if String.eqb path "" then inl ENOENT else store n (components path) data.

(** [os.makedirs(path, exist_ok=True)] *)
Definition makedirs (n : node) (path : string) : errno + node :=
  if String.eqb path "" then inl ENOENT else mkdir_p n (components path).

(** The entries of a directory without the one called [name]. *)
Definition del_entry (name : string) (es : list (string * node))
  : list (string * node) :=
  List.filter (fun e => negb (String.eqb (fst e) name)) es.

(** Removes the regular file a component list leads to. *)
Fixpoint unlink (n : node) (p : list string) : errno + node :=
  match p with
  | [] => inl EISDIR
  | c :: p' =>
      match n with
      | File _ => inl ENOTDIR
      | Dir es =>
          match assoc c es with
          | None => inl ENOENT
          | Some n' =>
              match p' with
              | [] => match n' with
                      | File _ => inr (Dir (del_entry c es))
                      | Dir _ => inl EISDIR
                      end
              | _ :: _ => match unlink n' p' with
                          | inr n'' => inr (Dir (set_entry c n'' es))
                          | inl e => inl e
                          end
              end
          end
      end
  end.

(** [os.remove(path)] *)
Definition remove (n : node) (path : string) : errno + node :=
  if String.eqb path "" then inl ENOENT else unlink n (components path).

(** One step of [os.walk]: the names of the sub-directories and of the
    other entries of a directory, in listing order. *)
Definition is_dir_node (n : node) : bool :=
  match n with Dir _ => true | File _ => false end.
Definition dirnames (es : list (string * node)) : list string :=
  map fst (List.filter (fun e => is_dir_node (snd e)) es).
Definition filenames (es : list (string * node)) : list string :=
  map fst (List.filter (fun e => negb (is_dir_node (snd e))) es).

(** [os.walk(top)], top-down: the triple of a directory comes before the
    triples of its sub-directories, which are visited in listing order. *)
Fixpoint walk_node (top : string) (n : node)
  : list (string * list string * list string) :=
  match n with
  | File _ => []
  | Dir es =>
      (top, dirnames es, filenames es)
        :: (fix subdirs (l : list (string * node)) :=
              match l with
              | [] => []
              | (name, child) :: l' =>
                  match child with
                  | Dir _ => (walk_node (join top name) child ++ subdirs l')%list
                  | File _ => subdirs l'
                  end
              end) es
  end.

Definition walk (n : node) (top : string)
  : list (string * list string * list string) :=
  match resolve n top with
  | Some d => walk_node top d
  | None => []
  end.

End FS.

(* ===================================================================== *)
(** ** The program *)
(* ===================================================================== *)

Module Muxer.
Import PyStr PosixPath FS.

(** *** The collaborators: pyheif and PIL, pyexiv2, the platform *)

Inductive xmp_value : Type :=
| XmpInt (z : Z)
| XmpText (s : string).

(** The tags of an image, by key ([metadata[key]]). *)
Abbreviation xmp_tags := (gmap string xmp_value).

(** [heif_file.metadata] of pyheif: [None], or a list of dicts, each with
    a type and its data. *)
Definition heif_metadata : Type := option (list (string * list Byte.byte)).

(** What a caller passes as the [exif] keyword of [Image.save].  PIL's
    JPEG writer takes bytes; [convert] passes [heif_file.metadata]. *)
Inductive exif_arg : Type :=
| ExifBytes (b : list Byte.byte)
| ExifMetadata (m : heif_metadata).

Record Env : Type := {
  (** the pixels of a decoded HEIF file *)
  image : Type;
  (** [pyheif.read(f)] and [Image.frombytes(...)]: the image and
      [heif_file.metadata]; [None] when they raise *)
  pyheif_read : list Byte.byte -> option (image * heif_metadata);
  (** the bytes PIL's JPEG writer produces at [quality=100] for an image
      and the bytes given as [exif] *)
  image_save_jpeg : image -> list Byte.byte -> list Byte.byte;
  (** [metadata.read()]: the XMP tags of a file; [None] when it raises *)
  exiv2_read : list Byte.byte -> option xmp_tags;
  (** [metadata.write()]: the file with its metadata block rewritten;
      [None] when it raises *)
  exiv2_write : list Byte.byte -> xmp_tags -> option (list Byte.byte);
  (** the size [os.path.getsize] reports for a directory *)
  dir_size : Z
}.

(** *** State and exceptions *)

Inductive exn : Type :=
| OSError (e : errno)
| HeifError
| Exiv2Error
| KeyError
| TypeError
| EOFError
| SystemExit (code : Z).

(** One [metadata.write()]: the file written and the tags it was given. *)
Inductive xmp_event : Type :=
| XmpWrite (file : string) (tags : xmp_tags).

Record world : Type := World {
  fs : node;                      (* the file system *)
  namespaces : gset string;       (* XMP prefixes registered with exiv2 *)
  xmp_log : list xmp_event;       (* metadata writes, oldest first *)
  stdin : list string             (* the lines [input()] will read *)
}.

Definition set_fs (t : node) (w : world) : world :=
  {| fs := t; namespaces := namespaces w; xmp_log := xmp_log w; stdin := stdin w |}.
Definition set_namespaces (ns : gset string) (w : world) : world :=
  {| fs := fs w; namespaces := ns; xmp_log := xmp_log w; stdin := stdin w |}.
Definition add_xmp_log (e : xmp_event) (w : world) : world :=
  {| fs := fs w; namespaces := namespaces w;
     xmp_log := (xmp_log w ++ [e])%list; stdin := stdin w |}.
Definition set_stdin (l : list string) (w : world) : world :=
  {| fs := fs w; namespaces := namespaces w; xmp_log := xmp_log w; stdin := l |}.

Inductive outcome (A : Type) : Type :=
| Returned (a : A)
| Raised (e : exn).
Arguments Returned {A} a.
Arguments Raised {A} e.

(** A computation runs in a world and leaves a world, also when it
    raises: what was written before the exception stays written. *)
Definition M (A : Type) : Type := world -> outcome A * world.

Definition ret {A} (a : A) : M A := fun w => (Returned a, w).
Definition raise {A} (e : exn) : M A := fun w => (Raised e, w).
Definition bind {A B} (m : M A) (k : A -> M B) : M B :=
  fun w => match m w with
           | (Returned a, w') => k a w'
           | (Raised e, w') => (Raised e, w')
           end.

Declare Scope mux_scope.
Delimit Scope mux_scope with mux.
Notation "x <- c1 ;; c2" := (bind c1 (fun x => c2))
  (at level 100, c1 at next level, right associativity) : mux_scope.
Notation "c1 ;; c2" := (bind c1 (fun _ => c2))
  (at level 100, right associativity) : mux_scope.
Local Open Scope mux_scope.

(** [try: m  except e: h] for one exception class *)
Definition try_except {A} (m : M A) (catches : exn -> bool) (h : M A) : M A :=
  fun w => match m w with
           | (Raised e, w') => if catches e then h w' else (Raised e, w')
           | r => r
           end.

Definition reads {A} (f : node -> A) : M A := fun w => (Returned (f (fs w)), w).

Definition lift_os {A} (r : errno + A) : M A :=
  match r with
  | inr a => ret a
  | inl e => raise (OSError e)
  end.

Definition from_option {A} (e : exn) (o : option A) : M A :=
  match o with
  | Some a => ret a
  | None => raise e
  end.

(** *** The [os] calls and file objects *)

Definition os_path_exists (path : string) : M bool :=
  reads (fun t => exists_ t path).

Definition os_path_getsize (E : Env) (path : string) : M Z :=
  fun w => lift_os (getsize (dir_size E) (fs w) path) w.

Definition os_makedirs (path : string) : M unit :=
  fun w => match makedirs (fs w) path with
           | inr t => (Returned tt, set_fs t w)
           | inl e => (Raised (OSError e), w)
           end.

Definition os_remove (path : string) : M unit :=
  fun w => match remove (fs w) path with
           | inr t => (Returned tt, set_fs t w)
           | inl e => (Raised (OSError e), w)
           end.

(** [open(path, "rb")]: the file must be there and be a regular file. *)
Definition open_rb (path : string) : M unit :=
  fun w => match FS.read (fs w) path with
           | inr _ => (Returned tt, w)
           | inl e => (Raised (OSError e), w)
           end.

(** [f.read()] on a file opened at [path] *)
Definition file_read (path : string) : M (list Byte.byte) :=
  fun w => lift_os (FS.read (fs w) path) w.

(** [open(path, "wb")]: the file is created, or emptied when it exists. *)
Definition open_wb (path : string) : M unit :=
  fun w => match FS.write (fs w) path [] with
           | inr t => (Returned tt, set_fs t w)
           | inl e => (Raised (OSError e), w)
           end.

(** [f.write(data)] on a file opened for writing at [path]: the data goes
    after what the file holds (writes are not buffered in the model). *)
Definition file_write (path : string) (data : list Byte.byte) : M unit :=
  fun w => match FS.read (fs w) path with
           | inr old =>
               match FS.write (fs w) path (old ++ data)%list with
               | inr t => (Returned tt, set_fs t w)
               | inl e => (Raised (OSError e), w)
               end
           | inl e => (Raised (OSError e), w)
           end.

(** [input(prompt)] *)
Definition input : M string :=
  fun w => match stdin w with
           | l :: rest => (Returned l, set_stdin rest w)
           | [] => (Raised EOFError, w)
           end.

(** *** pyexiv2 *)

(** [metadata = pyexiv2.ImageMetadata(file); metadata.read()] *)
Definition metadata_read (E : Env) (file : string) : M xmp_tags :=
  data <- file_read file ;;
  from_option Exiv2Error (exiv2_read E data).

(** [pyexiv2.xmp.register_namespace(uri, prefix)]: [KeyError] when the
    prefix is registered already. *)
Definition register_namespace (uri prefix : string) : M unit :=
  fun w => if decide (prefix ∈ namespaces w) then (Raised KeyError, w)
           else (Returned tt, set_namespaces ({[prefix]} ∪ namespaces w) w).

(** [metadata.write()] *)
Definition metadata_write (E : Env) (file : string) (tags : xmp_tags) : M unit :=
  data <- file_read file ;;
  data' <- from_option Exiv2Error (exiv2_write E data tags) ;;
  (fun w => match FS.write (fs w) file data' with
            | inr t => (Returned tt, add_xmp_log (XmpWrite file tags) (set_fs t w))
            | inl e => (Raised (OSError e), w)
            end).

(** *** [MotionPhotoMuxer.py]

    Calls to [logging] and [print] change nothing the program reads back
    and are left out. *)

(** [validate_directory(dir)] *)
Definition validate_directory (dir : string) : M unit :=
  e <- os_path_exists dir ;;
  if negb e then raise (SystemExit 1)
  else
    d <- reads (fun t => isdir t dir) ;;
    if negb d then raise (SystemExit 1)
    else ret tt.

(** [validate_media(photo_path, video_path)] *)
Definition validate_media (t : node) (photo_path video_path : string) : bool :=
  if negb (exists_ t photo_path) then false
  else if negb (exists_ t video_path) then false
  else if negb (endswith_any (lower photo_path) [".jpg"; ".jpeg"]) then false
  else if negb (endswith_any (lower video_path) [".mov"; ".mp4"]) then false
  else true.

(** [merge_files(photo_path, video_path, output_path)]: the three files
    are opened in the order of the [with] statement, then the two reads
    and writes follow. *)
Definition merge_files (photo_path video_path output_path : string) : M string :=
  let out_path := join output_path (basename photo_path) in
  os_makedirs (dirname out_path) ;;
  open_wb out_path ;;
  open_rb photo_path ;;
  open_rb video_path ;;
  photo <- file_read photo_path ;;
  file_write out_path photo ;;
  video <- file_read video_path ;;
  file_write out_path video ;;
  ret out_path.

(** [add_xmp_metadata(merged_file, offset)] *)
Definition add_xmp_metadata (E : Env) (merged_file : string) (offset : Z) : M unit :=
  metadata <- metadata_read E merged_file ;;
  try_except
    (register_namespace "http://ns.google.com/photos/1.0/camera/" "GCamera")
    (fun e => match e with KeyError => true | _ => false end)
    (ret tt) ;;
  let metadata := <["Xmp.GCamera.MicroVideo" := XmpInt 1]> metadata in
  let metadata := <["Xmp.GCamera.MicroVideoVersion" := XmpInt 1]> metadata in
  let metadata := <["Xmp.GCamera.MicroVideoOffset" := XmpInt offset]> metadata in
  let metadata :=
    <["Xmp.GCamera.MicroVideoPresentationTimestampUs" := XmpInt 1500000]> metadata in
  metadata_write E merged_file metadata.

(** What [convert] returns: [False] when it skips the pair, [None] when
    it falls off its end. *)
Inductive convert_result : Set := RetFalse | RetNone.

(** [image.save(path, "JPEG", quality=100, exif=exif)] of PIL.  [save]
    notes whether the path is new, opens it with ["w+b"], and runs the
    JPEG writer.  The writer takes bytes as [exif]; given anything else it
    raises [TypeError] before a byte is written, and [save] then removes
    the file if it had created it and lets the exception through.  (The
    [PermissionError] that [save] passes over at the removal is not an
    error of the model's file system.) *)
Definition image_save (E : Env) (img : image E) (path : string)
    (exif : exif_arg) : M unit :=
  created <- reads (fun t => negb (exists_ t path)) ;;
  open_wb path ;;
  match exif with
  | ExifBytes b => file_write path (image_save_jpeg E img b)
  | ExifMetadata _ =>
      (if (created : bool) then os_remove path else ret tt) ;;
      raise TypeError
  end.

(** The HEIC branch of [convert]: the JPEG is to be saved next to the
    photo, with [heif_file.metadata] as [exif], and its path is the photo
    path from then on. *)
Definition heic_to_jpeg (E : Env) (photo_path : string) : M string :=
  open_rb photo_path ;;
  data <- file_read photo_path ;;
  heif_file <- from_option HeifError (pyheif_read E data) ;;
  let jpeg_path := fst (splitext photo_path) ++ ".jpg" in
  image_save E (fst heif_file) jpeg_path (ExifMetadata (snd heif_file)) ;;
  ret jpeg_path.

(** [convert(photo_path, video_path, output_path, convert_all)] *)
Definition convert (E : Env) (photo_path video_path output_path : string)
    (convert_all : bool) : M convert_result :=
  skip <- (if negb convert_all then
             let video_size_limit_mb := 10 in
             e <- os_path_exists video_path ;;
             if negb e then ret true
             else
               size <- os_path_getsize E video_path ;;
               ret (video_size_limit_mb * 1024 * 1024 <? size)
           else ret false) ;;
  if (skip : bool) then ret RetFalse
  else
    photo_path <- (if endswith (lower photo_path) ".heic"
                   then heic_to_jpeg E photo_path
                   else ret photo_path) ;;
    merged <- merge_files photo_path video_path output_path ;;
    photo_filesize <- os_path_getsize E photo_path ;;
    merged_filesize <- os_path_getsize E merged ;;
    let offset := merged_filesize - photo_filesize in
    add_xmp_metadata E merged offset ;;
    ret RetNone.

(** The loop of [matching_video] over the candidate extensions. *)
Fixpoint first_existing (t : node) (base : string) (exts : list string) : string :=
  match exts with
  | [] => ""
  | ext :: exts' =>
      let video_path := base ++ ext in
      if exists_ t video_path then video_path else first_existing t base exts'
  end.

Definition video_extensions : list string := [".mov"; ".mp4"; ".MOV"; ".MP4"].

(** [matching_video(photo_path)] *)
Definition matching_video (t : node) (photo_path : string) : string :=
  let base := fst (splitext photo_path) in
  first_existing t base video_extensions.

(** The body of the inner loop of [process_directory] for one [file] of
    the directory [root]: the pair it appends, if any. *)
Definition pair_of_file (t : node) (root file : string) : list (string * string) :=
  let file_fullpath := join root file in
  if isfile t file_fullpath then
    let '(base_name, ext) := splitext file in
    if existsb (String.eqb (lower ext)) [".jpg"; ".jpeg"; ".heic"] then
      let video_path := matching_video t file_fullpath in
      if negb (String.eqb video_path "") then [(file_fullpath, video_path)] else []
    else []
  else [].

(** [process_directory(file_dir, recurse)] *)
Definition process_directory (t : node) (file_dir : string) (recurse : bool)
  : list (string * string) :=
  flat_map (fun '(root, dirs, files) => flat_map (pair_of_file t root) files)
           (walk t file_dir).

(** [s.strip()] *)
Definition is_space (c : ascii) : bool :=
  let n := nat_of_ascii c in
  ((9 <=? n)%nat && (n <=? 13)%nat) || ((28 <=? n)%nat && (n <=? 32)%nat).
Fixpoint lstrip (s : string) : string :=
  match s with
  | String a r => if is_space a then lstrip r else s
  | EmptyString => EmptyString
  end.
Fixpoint rstrip_space (s : string) : string :=
  match s with
  | EmptyString => EmptyString
  | String a r =>
      match rstrip_space r with
      | EmptyString => if is_space a then EmptyString else String a EmptyString
      | r' => String a r'
      end
  end.
Definition strip (s : string) : string := rstrip_space (lstrip s).

(** The [while True] loop of [get_source_directory] and of
    [get_destination_directory]: lines are read until one names a
    directory; the lines left unread are returned with the answer. *)
Fixpoint prompt_directory (t : node) (lines : list string)
  : outcome string * list string :=
  match lines with
  | [] => (Raised EOFError, [])
  | l :: rest =>
      let dir := strip l in
      if negb (isdir t dir) then prompt_directory t rest
      else (Returned dir, rest)
  end.

Definition get_source_directory : M string :=
  fun w => let '(r, rest) := prompt_directory (fs w) (stdin w) in (r, set_stdin rest w).

Definition get_destination_directory : M string :=
  fun w => let '(r, rest) := prompt_directory (fs w) (stdin w) in (r, set_stdin rest w).

(** The [while True] loop of the yes/no questions. *)
Fixpoint prompt_yes_no (lines : list string) : outcome bool * list string :=
  match lines with
  | [] => (Raised EOFError, [])
  | l :: rest =>
      let choice := lower (strip l) in
      if existsb (String.eqb choice) ["yes"; "no"]
      then (Returned (String.eqb choice "yes"), rest)
      else prompt_yes_no rest
  end.

Definition ask_convert_all : M bool :=
  fun w => let '(r, rest) := prompt_yes_no (stdin w) in (r, set_stdin rest w).

(** The [for pair in pairs] loop of [main]; [processed_files] is the set
    the loop adds to. *)
Fixpoint convert_pairs (E : Env) (out_dir : string) (convert_all : bool)
    (pairs : list (string * string)) (processed_files : gset string)
  : M (gset string) :=
  match pairs with
  | [] => ret processed_files
  | pair_ :: pairs' =>
      valid <- reads (fun t => validate_media t (fst pair_) (snd pair_)) ;;
      processed_files <-
        (if (valid : bool) then
           convert E (fst pair_) (snd pair_) out_dir convert_all ;;
           let processed_files := processed_files ∪ {[fst pair_]} in
           let processed_files := processed_files ∪ {[snd pair_]} in
           ret processed_files
         else ret processed_files) ;;
      convert_pairs E out_dir convert_all pairs' processed_files
  end.

(** [main()] up to the end of the conversion loop; the value is
    [processed_files] as the copy and delete steps receive it. *)
Definition main (E : Env) : M (gset string) :=
  source_dir <- get_source_directory ;;
  out_dir <- get_destination_directory ;;
  convert_all <- ask_convert_all ;;
  pairs <- reads (fun t => process_directory t source_dir false) ;;
  convert_pairs E out_dir convert_all pairs ∅.

End Muxer.

(* ===================================================================== *)
(** ** Sample collaborators and directory trees *)
(* ===================================================================== *)

Module Scenario.
Import FS Muxer.
Import Byte.

(** Stand-ins for the libraries.  Every HEIC payload decodes, to an
    image without metadata; a JPEG encoding starts with the SOI marker
    [FF D8].  exiv2 reads and writes
    files that start with SOI and raises on any other file; a write puts
    an APP1 marker after SOI. *)
Definition sample_env : Env := {|
  image := list byte;
  pyheif_read := fun data => Some (data, None);
  image_save_jpeg := fun pixels _ => xff :: xd8 :: pixels;
  exiv2_read := fun data =>
    match data with
    | xff :: xd8 :: _ => Some ∅
    | _ => None
    end;
  exiv2_write := fun data _ =>
    match data with
    | xff :: xd8 :: rest => Some (xff :: xd8 :: xff :: xe1 :: rest)
    | _ => None
    end;
  dir_size := 4096
|}.

Definition jpeg_bytes : list byte := [xff; xd8; x01; x02].
Definition video_bytes : list byte := [x10; x11; x12].
Definition other_video_bytes : list byte := [x20; x21].
Definition heic_bytes : list byte := [x05; x06].

(** A file of [n] zero bytes. *)
Definition bytes_of_size (n : Z) : list byte := repeat x00 (Z.to_nat n).

(** A run starts with nothing registered and nothing logged. *)
Definition start (t : node) (lines : list string) : world :=
  {| fs := t; namespaces := ∅; xmp_log := []; stdin := lines |}.

(** [d/a.jpg] with two candidate videos, and an empty [out]. *)
Definition tree_pair : node :=
  Dir [("d", Dir [("a.jpg", File jpeg_bytes);
                  ("a.mov", File video_bytes);
                  ("a.mp4", File other_video_bytes)]);
       ("out", Dir [])].

(** [d/a.jpg] with a video of [n] bytes. *)
Definition tree_video_of_size (n : Z) : node :=
  Dir [("d", Dir [("a.jpg", File jpeg_bytes);
                  ("a.mov", File (bytes_of_size n))]);
       ("out", Dir [])].

(** [d/img2.heic] and [d/img2.mp4], no [d/img2.jpg]. *)
Definition tree_heic : node :=
  Dir [("d", Dir [("img2.heic", File heic_bytes);
                  ("img2.mp4", File video_bytes)]);
       ("out", Dir [])].

(** The same with a file at [d/img2.jpg] already. *)
Definition tree_heic_and_jpg : node :=
  Dir [("d", Dir [("img2.heic", File heic_bytes);
                  ("img2.jpg", File [x07]);
                  ("img2.mp4", File video_bytes)]);
       ("out", Dir [])].

(** A pair one level below the root that is scanned. *)
Definition tree_nested : node :=
  Dir [("d", Dir [("sub", Dir [("c.jpg", File jpeg_bytes);
                               ("c.mov", File video_bytes)])]);
       ("out", Dir [])].

(** Two pairs; [d/a.jpg] is not a JPEG file, so exiv2 raises on the
    file merged from it. *)
Definition tree_bad_first : node :=
  Dir [("d", Dir [("a.jpg", File [x00]);
                  ("a.mov", File video_bytes);
                  ("b.jpg", File jpeg_bytes);
                  ("b.mov", File video_bytes)]);
       ("out", Dir [])].

(** [out/a.jpg] as [merge_files] leaves it. *)
Definition tree_merged : node :=
  Dir [("out", Dir [("a.jpg", File (jpeg_bytes ++ video_bytes)%list)])].

End Scenario.

(* ===================================================================== *)
(** ** The rest of [main]: copying what is left, deleting what was used *)
(* ===================================================================== *)

Module Housekeeping.
Import PyStr PosixPath FS Muxer.
Local Open Scope mux_scope.

(** *** More [os] calls *)

(** [os.listdir(path)]: the names in listing order. *)
Definition listdir (n : node) (path : string) : errno + list string :=
  match resolve n path with
  | Some (Dir es) => inr (map fst es)
  | Some (File _) => inl ENOTDIR
  | None => inl ENOENT
  end.

Definition os_listdir (path : string) : M (list string) :=
  fun w => lift_os (listdir (fs w) path) w.

(** [os.path.samefile(a, b)] as [shutil] uses it: both paths exist and
    lead to the same node; [False] when either is missing. *)
Definition samefile (n : node) (a b : string) : bool :=
  exists_ n a && exists_ n b
  && bool_decide (components a = components b).

(** *** Exceptions of [shutil] on top of the built-in ones *)

Inductive outcome2 (A : Type) : Type :=
| Returned2 (a : A)
| Raised2 (e : exn)
| RaisedSameFile (src dst : string).
Arguments Returned2 {A} a.
Arguments Raised2 {A} e.
Arguments RaisedSameFile {A} src dst.

Definition M2 (A : Type) : Type := world -> outcome2 A * world.

Definition ret2 {A} (a : A) : M2 A := fun w => (Returned2 a, w).
Definition bind2 {A B} (m : M2 A) (k : A -> M2 B) : M2 B :=
  fun w => match m w with
           | (Returned2 a, w') => k a w'
           | (Raised2 e, w') => (Raised2 e, w')
           | (RaisedSameFile src dst, w') => (RaisedSameFile src dst, w')
           end.

(** A computation that raises built-in exceptions only. *)
Definition lift {A} (m : M A) : M2 A :=
  fun w => match m w with
           | (Returned a, w') => (Returned2 a, w')
           | (Raised e, w') => (Raised2 e, w')
           end.

Declare Scope shutil_scope.
Delimit Scope shutil_scope with shutil.
Notation "x <- c1 ;; c2" := (bind2 c1 (fun x => c2))
  (at level 100, c1 at next level, right associativity) : shutil_scope.
Notation "c1 ;; c2" := (bind2 c1 (fun _ => c2))
  (at level 100, right associativity) : shutil_scope.

(** [shutil.copy2(src, dst)]: a directory as [dst] stands for the file of
    the same name in it; copying a file onto itself is an error; the
    source is opened before the destination is emptied.  The value is the
    path written.  (The file times and mode [copystat] carries over are
    not in the model.) *)
Definition copy2 (src dst : string) : M2 string :=
  (is_dir <- lift (reads (fun t => isdir t dst)) ;;
   let dst := if (is_dir : bool) then join dst (basename src) else dst in
   same <- lift (reads (fun t => samefile t src dst)) ;;
   if (same : bool) then (fun w => (RaisedSameFile src dst, w))
   else
     lift (open_rb src) ;;
     lift (open_wb dst) ;;
     data <- lift (file_read src) ;;
     lift (file_write dst data) ;;
     ret2 dst)%shutil.

(** *** [MotionPhotoMuxer.py], from the end of the conversion loop *)

(** [ask_copy_all()] and [ask_delete_converted_files()] *)
Definition ask_copy_all : M bool :=
  fun w => let '(r, rest) := prompt_yes_no (stdin w) in (r, set_stdin rest w).

Definition ask_delete_converted_files : M bool :=
  fun w => let '(r, rest) := prompt_yes_no (stdin w) in (r, set_stdin rest w).

(** [except Exception]: everything but [SystemExit]. *)
Definition is_exception (e : exn) : bool :=
  match e with
  | SystemExit _ => false
  | _ => true
  end.

(** [delete_files(files)], for the files in the order the set yields
    them. *)
Fixpoint delete_files (files : list string) : M unit :=
  match files with
  | [] => ret tt
  | file :: files' =>
      try_except (os_remove file) is_exception (ret tt) ;;
      delete_files files'
  end.

(** The loop [for file in remaining_files] of [main]. *)
Fixpoint copy_files (out_dir : string) (files : list string) : M2 unit :=
  match files with
  | [] => ret2 tt
  | file :: files' =>
      (is_file <- lift (reads (fun t => isfile t file)) ;;
       (if (is_file : bool) then
          let file_name := basename file in
          let destination_path := join out_dir file_name in
          copy2 file destination_path ;; ret2 tt
        else ret2 tt) ;;
       copy_files out_dir files')%shutil
  end.

(** The block under [if ask_copy_all():] of [main].  [order] is the order
    in which a Python set yields its elements. *)
Definition copy_remaining (order : gset string -> list string)
    (source_dir out_dir : string) (processed_files : gset string) : M2 unit :=
  (names <- lift (os_listdir source_dir) ;;
   let all_files : gset string := list_to_set (map (join source_dir) names) in
   let remaining_files := all_files ∖ processed_files in
   if (0 <? size remaining_files)%nat then
     lift (os_makedirs out_dir) ;;
     copy_files out_dir (order remaining_files)
   else ret2 tt)%shutil.

(** [main()] in full; [Muxer.main] is its part up to the end of the
    conversion loop. *)
Definition main_complete (E : Env) (order : gset string -> list string)
  : M2 unit :=
  (source_dir <- lift get_source_directory ;;
   out_dir <- lift get_destination_directory ;;
   convert_all <- lift ask_convert_all ;;
   pairs <- lift (reads (fun t => process_directory t source_dir false)) ;;
   processed_files <- lift (convert_pairs E out_dir convert_all pairs ∅) ;;
   copy_all <- lift ask_copy_all ;;
   (if (copy_all : bool)
    then copy_remaining order source_dir out_dir processed_files
    else ret2 tt) ;;
   delete_converted_files <- lift ask_delete_converted_files ;;
   if (delete_converted_files : bool)
   then lift (delete_files (order processed_files))
   else ret2 tt)%shutil.

(** *** Vocabulary of the properties *)

(** [m] creates, changes and removes no regular file but those whose
    components satisfy [P], however it ends. *)
Definition writes_only {A} (P : list string -> Prop) (m : M A) : Prop :=
  forall w r w' q,
    m w = (r, w') ->
    ~ P (components q) ->
    file_of (resolve (fs w') q) = file_of (resolve (fs w) q).

(** The directories [os.walk] visits from [top]: [top] itself and,
    through each sub-directory entry, what it visits from there; each
    with the path string [os.walk] gives it. *)
Inductive visited (top : string) (es : list (string * node))
  : string -> list (string * node) -> Prop :=
| visited_top : visited top es top es
| visited_sub name child root es' :
    In (name, Dir child) es ->
    visited (join top name) child root es' ->
    visited top es root es'.

End Housekeeping.

(* ===================================================================== *)
(** ** Facts about strings and paths *)
(* ===================================================================== *)

Module PyStrFacts.
Import PyStr PosixPath.

Lemma app_cons a s x : String a s ++ x = String a (s ++ x).
Proof. reflexivity. Qed.

Lemma app_nil_l x : "" ++ x = x.
Proof. reflexivity. Qed.

Lemma app_nil_r s : s ++ "" = s.
Proof. induction s as [|a s IH]; [reflexivity|]. now rewrite app_cons, IH. Qed.

Lemma app_app s x y : (s ++ x) ++ y = s ++ (x ++ y).
Proof. induction s as [|a s IH]; [reflexivity|]. now rewrite !app_cons, IH. Qed.

Lemma length_app s x :
  String.length (s ++ x) = (String.length s + String.length x)%nat.
Proof.
  induction s as [|a s IH]; [reflexivity|].
  rewrite app_cons. simpl. now rewrite IH.
Qed.

Lemma take_drop n : forall s, take n s ++ drop n s = s.
Proof.
  induction n as [|n IH]; intros [|a s]; try reflexivity.
  simpl take. simpl drop. now rewrite app_cons, IH.
Qed.

Lemma drop_plus a : forall b s, drop (a + b) s = drop a (drop b s).
Proof.
  intros b. induction b as [|b IH]; intros s.
  - now rewrite Nat.add_0_r.
  - rewrite Nat.add_succ_r. destruct s as [|c s]; simpl.
    + now destruct a.
    + apply IH.
Qed.

Lemma drop_app_length s x : drop (String.length s) (s ++ x) = x.
Proof.
  induction s as [|a s IH]; [now destruct x|]. rewrite app_cons. exact IH.
Qed.

Lemma take_app_le n : forall s x,
  (n <= String.length s)%nat -> take n (s ++ x) = take n s.
Proof.
  induction n as [|n IH]; intros [|a s] x H; simpl in H; try reflexivity.
  - lia.
  - rewrite app_cons. simpl. rewrite IH; [reflexivity|lia].
Qed.

Lemma lower_app s x : lower (s ++ x) = lower s ++ lower x.
Proof.
  induction s as [|a s IH]; [reflexivity|].
  rewrite app_cons. simpl lower. now rewrite app_cons, IH.
Qed.

Lemma length_lower s : String.length (lower s) = String.length s.
Proof. induction s as [|a s IH]; simpl; [reflexivity|now rewrite IH]. Qed.

Lemma endswith_app s suf : endswith (s ++ suf) suf = true.
Proof.
  unfold endswith. rewrite length_app.
  replace (String.length s + String.length suf - String.length suf)%nat
    with (String.length s) by lia.
  rewrite drop_app_length, String.eqb_refl.
  rewrite andb_true_r. apply Nat.leb_le. lia.
Qed.

Lemma endswith_inv s suf :
  endswith s suf = true -> exists x, s = x ++ suf.
Proof.
  unfold endswith. intros H. apply andb_true_iff in H as [_ H].
  apply String.eqb_eq in H.
  exists (take (String.length s - String.length suf) s).
  transitivity (take (String.length s - String.length suf) s
                ++ drop (String.length s - String.length suf) s).
  - symmetry. apply take_drop.
  - now rewrite H.
Qed.

(** A name that ends in [.heic] ends neither in [.jpg] nor in [.jpeg]. *)
Lemma endswith_heic_not_jpeg s :
  endswith s ".heic" = true -> endswith_any s [".jpg"; ".jpeg"] = false.
Proof.
  intros H. destruct (endswith_inv _ _ H) as [x ->].
  unfold endswith_any, existsb, endswith. rewrite !length_app. simpl String.length.
  replace (String.length x + 5 - 4)%nat with (1 + String.length x)%nat by lia.
  replace (String.length x + 5 - 5)%nat with (String.length x) by lia.
  rewrite drop_plus, !drop_app_length. simpl.
  now rewrite !andb_false_r.
Qed.

(** A name that ends in [.jpg] does not end in [.heic]. *)
Lemma endswith_jpg_not_heic x : endswith (x ++ ".jpg") ".heic" = false.
Proof.
  destruct (endswith (x ++ ".jpg") ".heic") eqn:H; [|reflexivity].
  apply endswith_heic_not_jpeg in H. unfold endswith_any in H. simpl in H.
  now rewrite endswith_app in H.
Qed.

(** *** [rfind] *)

Lemma rfind_ge c s : -1 <= rfind c s.
Proof.
  induction s as [|a s IH]; simpl; [lia|].
  destruct (0 <=? rfind c s) eqn:Hk; [lia|]. destruct (Ascii.eqb a c); lia.
Qed.

Lemma rfind_lt c s : rfind c s < Z.of_nat (String.length s).
Proof.
  induction s as [|a s IH]; simpl String.length; simpl rfind; [lia|].
  destruct (0 <=? rfind c s) eqn:Hk; [lia|]. destruct (Ascii.eqb a c); lia.
Qed.

Lemma rfind_nomem c s : mem c s = false <-> rfind c s = -1.
Proof.
  induction s as [|a s IH]; simpl; [tauto|].
  pose proof (rfind_ge c s) as Hge.
  destruct (0 <=? rfind c s) eqn:Hk.
  - apply Z.leb_le in Hk. split; intros H; [|lia].
    apply orb_false_iff in H as [_ H]. apply IH in H. lia.
  - apply Z.leb_gt in Hk. assert (Hr : rfind c s = -1) by lia.
    apply IH in Hr. rewrite Hr, orb_false_r.
    destruct (Ascii.eqb a c); split; intros H; try reflexivity; discriminate.
Qed.

Lemma rfind_app_nomem c s x : mem c x = false -> rfind c (s ++ x) = rfind c s.
Proof.
  intros H. induction s as [|a s IH].
  - now apply rfind_nomem.
  - rewrite app_cons. simpl. now rewrite IH.
Qed.

Lemma mem_drop_rfind c : forall s k,
  rfind c s < Z.of_nat k -> mem c (drop k s) = false.
Proof.
  induction s as [|a s IH]; intros k H.
  - now destruct k.
  - destruct k as [|k].
    + simpl drop. apply rfind_nomem. pose proof (rfind_ge c (String a s)). lia.
    + simpl drop. apply IH. simpl in H. pose proof (rfind_ge c s) as Hge.
      destruct (0 <=? rfind c s) eqn:Hk; [lia|]. apply Z.leb_gt in Hk. lia.
Qed.

(** *** [os.path] *)

(** The directory of a path does not depend on what follows its last
    separator. *)
Lemma dirname_app_nosep stem x y :
  mem sep x = false -> mem sep y = false ->
  dirname (stem ++ x) = dirname (stem ++ y).
Proof.
  intros Hx Hy. unfold dirname, slice_to.
  rewrite !rfind_app_nomem by assumption.
  pose proof (rfind_lt sep stem). pose proof (rfind_ge sep stem).
  rewrite !take_app_le by lia. reflexivity.
Qed.

(** A path is its root followed by its extension, and an extension holds
    no separator. *)
Lemma splitext_app p stem ext :
  splitext p = (stem, ext) -> p = stem ++ ext /\ mem sep ext = false.
Proof.
  unfold splitext.
  destruct (rfind sep p <? rfind extsep p) eqn:Hlt.
  2:{ inversion 1; subst. now rewrite app_nil_r. }
  destruct (has_non_dot _).
  2:{ inversion 1; subst. now rewrite app_nil_r. }
  inversion 1; subst. unfold slice_to, slice_from. split.
  - symmetry. apply take_drop.
  - apply mem_drop_rfind. apply Z.ltb_lt in Hlt.
    pose proof (rfind_ge sep p). lia.
Qed.

(** *** [split] and the components of a path *)

Lemma split_nonempty c s : split c s ≠ [].
Proof.
  destruct s as [|a s]; simpl; [discriminate|].
  destruct (Ascii.eqb a c); [discriminate|].
  destruct (split c s); discriminate.
Qed.

Lemma split_nomem c x : mem c x = false -> split c x = [x].
Proof.
  induction x as [|a x IH]; simpl; [reflexivity|].
  intros H. apply orb_false_iff in H as [Ha Hx]. rewrite Ha, (IH Hx). reflexivity.
Qed.

(** What follows the last separator only extends the last part. *)
Lemma split_app_nomem c s x :
  mem c x = false ->
  split c (s ++ x) = (List.removelast (split c s) ++ [(List.last (split c s) "" ++ x)%string])%list.
Proof.
  intros Hx. induction s as [|a s IH].
  - rewrite app_nil_l. simpl. now apply split_nomem.
  - rewrite app_cons. simpl split. rewrite IH.
    pose proof (split_nonempty c s) as Hne.
    destruct (Ascii.eqb a c).
    + destruct (split c s) as [|w ws]; [congruence|]. reflexivity.
    + destruct (split c s) as [|w ws]; [congruence|].
      destruct ws as [|w' ws']; reflexivity.
Qed.

(** Two paths that differ after their last separator only lead to two
    entries of one directory. *)
Lemma components_app_nosep stem x :
  mem sep x = false -> x ≠ "" ->
  components (stem ++ x)
  = (filter (fun c => c ≠ "") (List.removelast (split sep stem))
     ++ [(List.last (split sep stem) "" ++ x)%string])%list.
Proof.
  intros Hx Hne. unfold components. rewrite (split_app_nomem _ _ _ Hx).
  rewrite filter_app. f_equal.
  rewrite filter_cons_True; [reflexivity|].
  destruct (List.last (split sep stem) ""); [rewrite app_nil_l; exact Hne|].
  rewrite app_cons. discriminate.
Qed.

Lemma split_app_sep c s x :
  split c (s ++ String c x) = (split c s ++ split c x)%list.
Proof.
  induction s as [|a s IH].
  - rewrite app_nil_l. simpl. now rewrite Ascii.eqb_refl.
  - rewrite app_cons. simpl split. rewrite IH.
    pose proof (split_nonempty c s) as Hne.
    destruct (Ascii.eqb a c); [reflexivity|].
    destruct (split c s) as [|w ws]; [congruence|]. reflexivity.
Qed.

Lemma components_all_sep s : all_char sep s = true -> components s = [].
Proof.
  unfold components. induction s as [|a s IH]; simpl; [intros _; reflexivity|].
  intros H. apply andb_true_iff in H as [Ha Hs]. rewrite Ha.
  rewrite filter_cons_False by (intros Hn; now apply Hn). now apply IH.
Qed.

(** Separators at the end of a path add no component. *)
Lemma components_app_all_sep s t :
  all_char sep t = true -> components (s ++ t) = components s.
Proof.
  intros Ht. destruct t as [|a t]; [now rewrite app_nil_r|].
  simpl in Ht. apply andb_true_iff in Ht as [Ha Ht].
  apply Ascii.eqb_eq in Ha. subst a.
  unfold components. rewrite split_app_sep, filter_app.
  fold (components t). rewrite (components_all_sep _ Ht). apply List.app_nil_r.
Qed.

Lemma rstrip_decomp c s :
  exists t, s = rstrip c s ++ t /\ all_char c t = true.
Proof.
  induction s as [|a s (t & Hs & Ht)]; simpl.
  - exists "". split; reflexivity.
  - destruct (rstrip c s) as [|b r] eqn:Hr.
    + rewrite app_nil_l in Hs. subst t. destruct (Ascii.eqb a c) eqn:Ha.
      * exists (String a s). split; [reflexivity|]. simpl. now rewrite Ha, Ht.
      * exists s. split; [reflexivity|exact Ht].
    + exists t. split; [|exact Ht]. rewrite app_cons. now rewrite <- Hs.
Qed.

Lemma components_rstrip s : components (rstrip sep s) = components s.
Proof.
  destruct (rstrip_decomp sep s) as (t & Hs & Ht).
  rewrite Hs at 2. symmetry. now apply components_app_all_sep.
Qed.

Lemma rstrip_nonempty c s : all_char c s = false -> rstrip c s ≠ "".
Proof.
  induction s as [|a s IH]; simpl; [discriminate|].
  intros H. destruct (rstrip c s) as [|b r] eqn:Hr; [|discriminate].
  destruct (Ascii.eqb a c); [|discriminate].
  simpl in H. exfalso. now apply IH.
Qed.

Lemma take_length s : take (String.length s) s = s.
Proof. induction s as [|a s IH]; simpl; [reflexivity|now rewrite IH]. Qed.

(** The last index of a separator that nothing but other characters
    follow. *)
Lemma rfind_app_sep c s x :
  mem c x = false -> rfind c (s ++ String c x) = Z.of_nat (String.length s).
Proof.
  intros Hx. induction s as [|a s IH].
  - rewrite app_nil_l. simpl. apply rfind_nomem in Hx. rewrite Hx. simpl.
    now rewrite Ascii.eqb_refl.
  - rewrite app_cons. simpl rfind. rewrite IH.
    destruct (0 <=? Z.of_nat (String.length s)) eqn:Hk.
    + simpl String.length. lia.
    + apply Z.leb_gt in Hk. lia.
Qed.

Lemma basename_nosep p : mem sep (basename p) = false.
Proof.
  unfold basename, slice_from. apply mem_drop_rfind.
  pose proof (rfind_ge sep p). lia.
Qed.

(** [join] onto a directory path: the result is the directory path, up to
    separators at its end, followed by the name. *)
Lemma join_decomp a b :
  a ≠ "" -> b ≠ "" -> mem sep b = false ->
  exists x, join a b = (x ++ "/") ++ b /\ components (x ++ "/") = components a.
Proof.
  intros Ha Hb Hsep. unfold join.
  assert (Hstart : startswith b "/" = false).
  { destruct b as [|c b]; [congruence|]. cbn [startswith].
    destruct (Ascii.eqb "/" c) eqn:He; [|reflexivity].
    apply Ascii.eqb_eq in He. subst c. discriminate Hsep. }
  rewrite Hstart.
  assert (Hne : String.eqb a "" = false) by now apply String.eqb_neq.
  rewrite Hne. simpl orb.
  destruct (endswith a "/") eqn:He.
  - destruct (endswith_inv _ _ He) as [x ->]. exists x. split; reflexivity.
  - exists a. split; [now rewrite app_app|].
    now apply components_app_all_sep.
Qed.

(** The components of a joined path and of its directory. *)
Lemma components_join a b :
  a ≠ "" -> b ≠ "" -> mem sep b = false ->
  components (join a b) = (components a ++ [b])%list
  /\ components (dirname (join a b)) = components a
  /\ dirname (join a b) ≠ "".
Proof.
  intros Ha Hb Hsep. destruct (join_decomp a b Ha Hb Hsep) as (x & -> & Hx).
  assert (Hsplit : split sep (x ++ "/") = (split sep x ++ [""])%list)
    by apply split_app_sep.
  assert (Hcx : components (x ++ "/") = filter (fun c => c ≠ "") (split sep x)).
  { unfold components. rewrite Hsplit, filter_app.
    rewrite filter_cons_False by (intros Hn; now apply Hn).
    now rewrite filter_nil, List.app_nil_r. }
  split; [|split].
  - rewrite (components_app_nosep _ _ Hsep Hb), Hsplit.
    rewrite removelast_last, last_last, app_nil_l.
    now rewrite <- Hx, Hcx.
  - unfold dirname. rewrite (rfind_app_nomem _ _ _ Hsep).
    change (rfind sep (x ++ "/")) with (rfind "/"%char (x ++ String "/"%char "")).
    rewrite (rfind_app_sep "/"%char x "" eq_refl). unfold slice_to.
    replace (Z.to_nat (Z.of_nat (String.length x) + 1))
      with (String.length (x ++ "/")) by (rewrite length_app; simpl; lia).
    rewrite take_app_le by lia. rewrite take_length.
    destruct (negb (String.eqb (x ++ "/") "") && negb (all_char sep (x ++ "/")))%bool.
    + now rewrite components_rstrip.
    + exact Hx.
  - unfold dirname. rewrite (rfind_app_nomem _ _ _ Hsep).
    change (rfind sep (x ++ "/")) with (rfind "/"%char (x ++ String "/"%char "")).
    rewrite (rfind_app_sep "/"%char x "" eq_refl). unfold slice_to.
    replace (Z.to_nat (Z.of_nat (String.length x) + 1))
      with (String.length (x ++ "/")) by (rewrite length_app; simpl; lia).
    rewrite take_app_le by lia. rewrite take_length.
    assert (Hxne : x ++ "/" ≠ "").
    { destruct x; [rewrite app_nil_l|rewrite app_cons]; discriminate. }
    destruct (all_char sep (x ++ "/")) eqn:Hall.
    + rewrite andb_false_r. exact Hxne.
    + apply String.eqb_neq in Hxne. rewrite Hxne. simpl.
      now apply rstrip_nonempty.
Qed.

End PyStrFacts.

(* ===================================================================== *)
(** ** Facts about the file system *)
(* ===================================================================== *)

Module FSFacts.
Import PosixPath FS.

Lemma assoc_set_entry_eq name n es : assoc name (set_entry name n es) = Some n.
Proof.
  induction es as [|[k m] es IH]; simpl.
  - now rewrite String.eqb_refl.
  - destruct (String.eqb k name) eqn:Hk; simpl; rewrite Hk; [reflexivity|exact IH].
Qed.

Lemma assoc_set_entry_ne name name' n es :
  name' ≠ name -> assoc name' (set_entry name n es) = assoc name' es.
Proof.
  intros Hne. induction es as [|[k m] es IH]; simpl.
  - destruct (String.eqb name name') eqn:Hk; [|reflexivity].
    apply String.eqb_eq in Hk. congruence.
  - destruct (String.eqb k name) eqn:Hk; simpl.
    + apply String.eqb_eq in Hk. subst k.
      destruct (String.eqb name name') eqn:Hk'; [|reflexivity].
      apply String.eqb_eq in Hk'. congruence.
    + now rewrite IH.
Qed.

(** A stored file is found again with the bytes stored. *)
Lemma lookup_store_eq p : forall t t' d,
  store t p d = inr t' -> lookup t' p = Some (File d).
Proof.
  induction p as [|c p IH]; intros t t' d H; simpl in H.
  - destruct t; [|discriminate]. now inversion H.
  - destruct t as [|es]; [discriminate|].
    destruct (assoc c es) as [n'|] eqn:Ha.
    + destruct (store n' p d) as [e|n''] eqn:Hs; [discriminate|].
      inversion H; subst t'. simpl. rewrite assoc_set_entry_eq. eauto.
    + destruct p; [|discriminate]. inversion H; subst t'.
      simpl. now rewrite assoc_set_entry_eq.
Qed.

(** Storing at [p] changes no regular file at another place. *)
Lemma lookup_store_ne p : forall t t' d q,
  store t p d = inr t' -> q ≠ p ->
  file_of (lookup t' q) = file_of (lookup t q).
Proof.
  induction p as [|c p IH]; intros t t' d q H Hq; simpl in H.
  - destruct t; [|discriminate]. inversion H; subst t'.
    destruct q; [congruence|reflexivity].
  - destruct t as [|es]; [discriminate|].
    destruct (assoc c es) as [n'|] eqn:Ha.
    + destruct (store n' p d) as [e|n''] eqn:Hs; [discriminate|].
      inversion H; subst t'. destruct q as [|c' q]; [reflexivity|]. simpl.
      destruct (decide (c' = c)) as [->|Hc].
      * rewrite assoc_set_entry_eq, Ha. apply (IH _ _ _ _ Hs). congruence.
      * now rewrite assoc_set_entry_ne.
    + destruct p; [|discriminate]. inversion H; subst t'.
      destruct q as [|c' q]; [reflexivity|]. simpl.
      destruct (decide (c' = c)) as [->|Hc].
      * rewrite assoc_set_entry_eq, Ha. destruct q; [congruence|reflexivity].
      * now rewrite assoc_set_entry_ne.
Qed.

(** A file that exists can always be overwritten. *)
Lemma store_existing p : forall t old d,
  lookup t p = Some (File old) -> exists t', store t p d = inr t'.
Proof.
  induction p as [|c p IH]; intros t old d H; simpl in *.
  - inversion H; subst t. eauto.
  - destruct t as [|es]; [discriminate|].
    destruct (assoc c es) as [n'|]; [|discriminate].
    destruct (IH _ _ d H) as [t' ->]. eauto.
Qed.

(** [mkdir -p] creates directories only: regular files stay as they are. *)
Lemma lookup_mkdir_p p : forall t t' q,
  mkdir_p t p = inr t' -> file_of (lookup t' q) = file_of (lookup t q).
Proof.
  induction p as [|c p IH]; intros t t' q H; simpl in H.
  - destruct t; [discriminate|]. now inversion H.
  - destruct t as [|es]; [discriminate|].
    destruct (mkdir_p (default (Dir []) (assoc c es)) p) as [e|n''] eqn:Hm;
      [discriminate|].
    inversion H; subst t'. destruct q as [|c' q]; [reflexivity|]. simpl.
    destruct (decide (c' = c)) as [->|Hc].
    + rewrite assoc_set_entry_eq. rewrite (IH _ _ q Hm).
      destruct (assoc c es); [reflexivity|]. simpl. now destruct q.
    + now rewrite assoc_set_entry_ne.
Qed.

(** A file can be created or replaced next to a file that exists, unless
    a directory has its name. *)
Lemma store_sibling pre : forall t name name' d data,
  lookup t (pre ++ [name]) = Some (File d) ->
  (forall es, lookup t (pre ++ [name']) ≠ Some (Dir es)) ->
  exists t', store t (pre ++ [name']) data = inr t'.
Proof.
  induction pre as [|c pre IH]; intros t name name' d data Hl Hnd; simpl in *.
  - destruct t as [|es]; [discriminate|].
    destruct (assoc name' es) as [[d'|es']|]; eauto.
    exfalso. apply (Hnd es'). reflexivity.
  - destruct t as [|es]; [discriminate|].
    destruct (assoc c es) as [n'|]; [|discriminate].
    destruct (IH n' name name' d data Hl Hnd) as [t' ->]. eauto.
Qed.

Lemma set_entry_same name n es :
  assoc name es = Some n -> set_entry name n es = es.
Proof.
  induction es as [|[k m] es IH]; simpl; [discriminate|].
  destruct (String.eqb k name) eqn:Hk.
  - now inversion 1.
  - intros H. now rewrite (IH H).
Qed.

(** [mkdir -p] of a directory that exists changes nothing. *)
Lemma mkdir_p_existing p : forall t es,
  lookup t p = Some (Dir es) -> mkdir_p t p = inr t.
Proof.
  induction p as [|c p IH]; intros t es H; simpl in *.
  - now inversion H.
  - destruct t as [|es0]; [discriminate|].
    destruct (assoc c es0) as [n'|] eqn:Ha; [|discriminate]. simpl.
    rewrite (IH _ _ H). now rewrite (set_entry_same _ _ _ Ha).
Qed.

(** A file can be created or replaced in a directory that exists, unless
    a directory has its name. *)
Lemma store_in_dir pre : forall t es name data,
  lookup t pre = Some (Dir es) ->
  (forall es', lookup t (pre ++ [name]) ≠ Some (Dir es')) ->
  exists t', store t (pre ++ [name]) data = inr t'.
Proof.
  induction pre as [|c pre IH]; intros t es name data Hl Hnd; simpl in *.
  - inversion Hl; subst t.
    destruct (assoc name es) as [[d'|es']|]; eauto.
    exfalso. apply (Hnd es'). reflexivity.
  - destruct t as [|es0]; [discriminate|].
    destruct (assoc c es0) as [n'|]; [|discriminate].
    destruct (IH n' es name data Hl Hnd) as [t' ->]. eauto.
Qed.

End FSFacts.

(* ===================================================================== *)
(** ** Facts about paths in the tree, and about runs *)
(* ===================================================================== *)

Module RunFacts.
Import PyStr PosixPath FS FSFacts Muxer.
Local Open Scope mux_scope.

(** *** Reading and writing by path *)

Lemma read_inr t path d :
  FS.read t path = inr d <-> file_of (resolve t path) = Some d.
Proof.
  unfold FS.read. destruct (resolve t path) as [[d'|es]|]; simpl;
    split; intros H; inversion H; reflexivity.
Qed.

Lemma getsize_file ds t path d :
  file_of (resolve t path) = Some d ->
  getsize ds t path = inr (Z.of_nat (length d)).
Proof.
  unfold getsize. destruct (resolve t path) as [[d'|es]|]; simpl;
    intros H; inversion H; reflexivity.
Qed.

Lemma write_resolve_eq t path d t' :
  FS.write t path d = inr t' -> file_of (resolve t' path) = Some d.
Proof.
  unfold FS.write, resolve. destruct (String.eqb path ""); [discriminate|].
  intros H. now rewrite (lookup_store_eq _ _ _ _ H).
Qed.

Lemma write_resolve_ne t path d t' q :
  FS.write t path d = inr t' -> components q ≠ components path ->
  file_of (resolve t' q) = file_of (resolve t q).
Proof.
  unfold FS.write, resolve. destruct (String.eqb path ""); [discriminate|].
  intros H Hq. destruct (String.eqb q ""); [reflexivity|].
  now apply (lookup_store_ne _ _ _ _ _ H).
Qed.

Lemma makedirs_resolve t path t' q :
  makedirs t path = inr t' -> file_of (resolve t' q) = file_of (resolve t q).
Proof.
  unfold makedirs, resolve. destruct (String.eqb path ""); [discriminate|].
  intros H. destruct (String.eqb q ""); [reflexivity|].
  now apply (lookup_mkdir_p _ _ _ _ H).
Qed.

Lemma write_existing t path old d :
  file_of (resolve t path) = Some old -> exists t', FS.write t path d = inr t'.
Proof.
  unfold FS.write, resolve. destruct (String.eqb path ""); [discriminate|].
  destruct (lookup t (components path)) as [[d'|es]|] eqn:Hl; simpl;
    intros H; inversion H; subst.
  eapply store_existing; eauto.
Qed.

Lemma eqb_app_empty stem x : x ≠ "" -> String.eqb (stem ++ x) "" = false.
Proof.
  intros Hx. apply String.eqb_neq. destruct stem as [|a stem].
  - now rewrite PyStrFacts.app_nil_l.
  - rewrite PyStrFacts.app_cons. discriminate.
Qed.

(** Next to a regular file, any name that is not the name of a directory
    can be written. *)
Lemma write_sibling t stem x y d data :
  mem sep x = false -> x ≠ "" ->
  mem sep y = false -> y ≠ "" ->
  FS.read t (stem ++ x) = inr d ->
  isdir t (stem ++ y) = false ->
  exists t', FS.write t (stem ++ y) data = inr t'.
Proof.
  intros Hx Hxne Hy Hyne Hread Hdir.
  apply read_inr in Hread. unfold resolve in Hread.
  unfold isdir, resolve in Hdir. unfold FS.write.
  rewrite (eqb_app_empty _ _ Hxne) in Hread.
  rewrite (eqb_app_empty _ _ Hyne) in Hdir |- *.
  rewrite (PyStrFacts.components_app_nosep _ _ Hx Hxne) in Hread.
  rewrite (PyStrFacts.components_app_nosep _ _ Hy Hyne) in Hdir |- *.
  destruct (lookup t _) as [[d'|es]|] eqn:Hl in Hread; try discriminate.
  eapply store_sibling; [exact Hl|].
  intros es He. rewrite He in Hdir. discriminate.
Qed.

(** *** Runs that return *)

Lemma bind_returned {A B} (m : M A) (k : A -> M B) w b w' :
  bind m k w = (Returned b, w') ->
  exists a w1, m w = (Returned a, w1) /\ k a w1 = (Returned b, w').
Proof.
  unfold bind. destruct (m w) as [[a|e] w1]; [eauto|discriminate].
Qed.

Lemma bind_run {A B} (m : M A) (k : A -> M B) w a w1 :
  m w = (Returned a, w1) -> bind m k w = k a w1.
Proof. unfold bind. now intros ->. Qed.

Lemma ret_returned {A} (a b : A) w w' :
  ret a w = (Returned b, w') -> b = a /\ w' = w.
Proof. unfold ret. now inversion 1. Qed.

Lemma os_makedirs_returned path w u w' :
  os_makedirs path w = (Returned u, w') ->
  exists t, makedirs (fs w) path = inr t /\ w' = set_fs t w.
Proof.
  unfold os_makedirs. destruct (makedirs (fs w) path); inversion 1; eauto.
Qed.

Lemma open_wb_returned path w u w' :
  open_wb path w = (Returned u, w') ->
  exists t, FS.write (fs w) path [] = inr t /\ w' = set_fs t w.
Proof.
  unfold open_wb. destruct (FS.write (fs w) path []); inversion 1; eauto.
Qed.

Lemma open_rb_returned path w u w' :
  open_rb path w = (Returned u, w') ->
  (exists d, FS.read (fs w) path = inr d) /\ w' = w.
Proof.
  unfold open_rb. destruct (FS.read (fs w) path); inversion 1; eauto.
Qed.

Lemma file_read_returned path w d w' :
  file_read path w = (Returned d, w') -> FS.read (fs w) path = inr d /\ w' = w.
Proof.
  unfold file_read, lift_os. destruct (FS.read (fs w) path); inversion 1; eauto.
Qed.

Lemma file_write_returned path data w u w' :
  file_write path data w = (Returned u, w') ->
  exists old t, FS.read (fs w) path = inr old
                /\ FS.write (fs w) path (old ++ data)%list = inr t
                /\ w' = set_fs t w.
Proof.
  unfold file_write. destruct (FS.read (fs w) path) as [e|old]; [inversion 1|].
  destruct (FS.write (fs w) path (old ++ data)%list) eqn:Hw; inversion 1; eauto.
Qed.

Lemma os_path_getsize_returned E path w n w' :
  os_path_getsize E path w = (Returned n, w') ->
  getsize (dir_size E) (fs w) path = inr n /\ w' = w.
Proof.
  unfold os_path_getsize, lift_os.
  destruct (getsize (dir_size E) (fs w) path); inversion 1; eauto.
Qed.

Lemma from_option_returned {A} e (o : option A) w a w' :
  from_option e o w = (Returned a, w') -> o = Some a /\ w' = w.
Proof. destruct o; inversion 1; eauto. Qed.


(** *** [merge_files] *)

(** A returning [merge_files] whose output is neither of its inputs:
    the output holds the photo bytes, then the video bytes, and the
    inputs are as they were. *)
Lemma merge_files_distinct photo video output w o w' :
  let out := join output (basename photo) in
  components out ≠ components photo ->
  components out ≠ components video ->
  merge_files photo video output w = (Returned o, w') ->
  exists p v,
    file_of (resolve (fs w) photo) = Some p
    /\ file_of (resolve (fs w) video) = Some v
    /\ o = out
    /\ file_of (resolve (fs w') out) = Some (p ++ v)%list
    /\ file_of (resolve (fs w') photo) = Some p
    /\ file_of (resolve (fs w') video) = Some v
    /\ w' = set_fs (fs w') w.
Proof.
  intros out Hp Hv H. unfold merge_files in H. fold out in H.
  apply bind_returned in H as (? & ? & Hmk & H).
  apply os_makedirs_returned in Hmk as (t0 & Hmk & ->).
  apply bind_returned in H as (? & ? & Hw1 & H).
  apply open_wb_returned in Hw1 as (t1 & Hw1 & ->).
  apply bind_returned in H as (? & ? & Ho & H).
  apply open_rb_returned in Ho as (_ & ->).
  apply bind_returned in H as (? & ? & Ho & H).
  apply open_rb_returned in Ho as (_ & ->).
  apply bind_returned in H as (p & ? & Hrp & H).
  apply file_read_returned in Hrp as (Hrp & ->).
  apply bind_returned in H as (? & ? & Hw2 & H).
  apply file_write_returned in Hw2 as (old & t2 & Hro & Hw2 & ->).
  apply bind_returned in H as (v & ? & Hrv & H).
  apply file_read_returned in Hrv as (Hrv & ->).
  apply bind_returned in H as (? & ? & Hw3 & H).
  apply file_write_returned in Hw3 as (old2 & t3 & Hro2 & Hw3 & ->).
  apply ret_returned in H as (-> & ->). simpl in *.
  apply read_inr in Hrp, Hro, Hrv, Hro2.
  assert (Hp' : components photo ≠ components out) by congruence.
  assert (Hv' : components video ≠ components out) by congruence.
  rewrite (write_resolve_eq _ _ _ _ Hw1) in Hro. inversion Hro; subst old.
  rewrite (write_resolve_eq _ _ _ _ Hw2) in Hro2. inversion Hro2; subst old2.
  rewrite (write_resolve_ne _ _ _ _ _ Hw1 Hp'), (makedirs_resolve _ _ _ _ Hmk) in Hrp.
  rewrite (write_resolve_ne _ _ _ _ _ Hw2 Hv'), (write_resolve_ne _ _ _ _ _ Hw1 Hv'),
    (makedirs_resolve _ _ _ _ Hmk) in Hrv.
  exists p, v. repeat split; try assumption.
  - apply (write_resolve_eq _ _ _ _ Hw3).
  - rewrite (write_resolve_ne _ _ _ _ _ Hw3 Hp'), (write_resolve_ne _ _ _ _ _ Hw2 Hp'),
      (write_resolve_ne _ _ _ _ _ Hw1 Hp'), (makedirs_resolve _ _ _ _ Hmk).
    assumption.
  - rewrite (write_resolve_ne _ _ _ _ _ Hw3 Hv'), (write_resolve_ne _ _ _ _ _ Hw2 Hv'),
      (write_resolve_ne _ _ _ _ _ Hw1 Hv'), (makedirs_resolve _ _ _ _ Hmk).
    assumption.
Qed.

(** *** [add_xmp_metadata] *)

(** Registering the GCamera prefix never fails for the caller: a
    [KeyError] is caught, and the prefix is registered afterwards. *)
Lemma register_gcamera uri w :
  exists w1,
    try_except (register_namespace uri "GCamera")
      (fun e => match e with KeyError => true | _ => false end) (ret tt) w
    = (Returned tt, w1)
    /\ fs w1 = fs w /\ xmp_log w1 = xmp_log w /\ stdin w1 = stdin w
    /\ "GCamera" ∈ namespaces w1.
Proof.
  unfold try_except, register_namespace.
  destruct (decide ("GCamera" ∈ namespaces w)) as [Hin|Hout].
  - exists w. simpl. auto.
  - eexists. split; [reflexivity|]. simpl. repeat split. set_solver.
Qed.

Lemma metadata_read_returned E file w old w' :
  metadata_read E file w = (Returned old, w') ->
  exists data, FS.read (fs w) file = inr data
               /\ exiv2_read E data = Some old /\ w' = w.
Proof.
  unfold metadata_read. intros H.
  apply bind_returned in H as (data & w1 & Hr & H).
  apply file_read_returned in Hr as (Hr & ->).
  apply from_option_returned in H as (Ho & ->). eauto.
Qed.

Lemma metadata_write_returned E file tags w u w' :
  metadata_write E file tags w = (Returned u, w') ->
  exists data data' t,
    FS.read (fs w) file = inr data
    /\ exiv2_write E data tags = Some data'
    /\ FS.write (fs w) file data' = inr t
    /\ w' = add_xmp_log (XmpWrite file tags) (set_fs t w).
Proof.
  unfold metadata_write. intros H.
  apply bind_returned in H as (data & w1 & Hr & H).
  apply bind_returned in H as (data' & w2 & Ho & H).
  apply file_read_returned in Hr as (Hr & ->).
  apply from_option_returned in Ho as (Ho & ->).
  destruct (FS.write (fs w) file data') as [e|t] eqn:Hw; inversion H; subst.
  eauto 10.
Qed.

(** *** [convert] *)

(** With the override off, [convert] either skips the pair and leaves
    the world alone, or runs exactly as it does with the override on. *)
Lemma convert_gate E photo video output w :
  convert E photo video output false w =
    if negb (exists_ (fs w) video) then (Returned RetFalse, w)
    else match getsize (dir_size E) (fs w) video with
         | inl e => (Raised (OSError e), w)
         | inr size =>
             if 10 * 1024 * 1024 <? size then (Returned RetFalse, w)
             else convert E photo video output true w
         end.
Proof.
  unfold convert. simpl negb. cbv iota.
  unfold bind at 1. unfold bind at 1. unfold os_path_exists, reads.
  destruct (exists_ (fs w) video); simpl; [|reflexivity].
  unfold bind at 1. unfold os_path_getsize, lift_os.
  destruct (getsize (dir_size E) (fs w) video) as [e|size]; [reflexivity|].
  unfold ret at 1. destruct (10 * 1024 * 1024 <? size); reflexivity.
Qed.



Lemma getsize_exists ds t path size :
  getsize ds t path = inr size -> exists_ t path = true.
Proof.
  unfold exists_, getsize. destruct (resolve t path) as [[d|es]|];
    [reflexivity|reflexivity|discriminate].
Qed.

(** [merge_files] returns when both inputs are regular files, the output
    directory can be made and the output can be opened for writing. *)
Lemma merge_files_runs photo video output w p v t0 t1 :
  let out := join output (basename photo) in
  components out ≠ components photo ->
  components out ≠ components video ->
  FS.read (fs w) photo = inr p ->
  FS.read (fs w) video = inr v ->
  makedirs (fs w) (dirname out) = inr t0 ->
  FS.write t0 out [] = inr t1 ->
  exists w', merge_files photo video output w = (Returned out, w').
Proof.
  intros out Hp Hv Hrp Hrv Hmk Hw1.
  assert (Hp' : components photo ≠ components out) by congruence.
  assert (Hv' : components video ≠ components out) by congruence.
  apply read_inr in Hrp, Hrv.
  pose proof (write_resolve_eq _ _ _ _ Hw1) as Hout1.
  assert (Hrp1 : file_of (resolve t1 photo) = Some p).
  { now rewrite (write_resolve_ne _ _ _ _ _ Hw1 Hp'), (makedirs_resolve _ _ _ _ Hmk). }
  assert (Hrv1 : file_of (resolve t1 video) = Some v).
  { now rewrite (write_resolve_ne _ _ _ _ _ Hw1 Hv'), (makedirs_resolve _ _ _ _ Hmk). }
  destruct (write_existing _ _ _ ([] ++ p)%list Hout1) as [t2 Hw2].
  pose proof (write_resolve_eq _ _ _ _ Hw2) as Hout2.
  assert (Hrv2 : file_of (resolve t2 video) = Some v).
  { now rewrite (write_resolve_ne _ _ _ _ _ Hw2 Hv'). }
  destruct (write_existing _ _ _ (([] ++ p) ++ v)%list Hout2) as [t3 Hw3].
  exists (set_fs t3 (set_fs t2 (set_fs t1 (set_fs t0 w)))).
  unfold merge_files. fold out.
  rewrite (bind_run _ _ _ tt (set_fs t0 w)) by (unfold os_makedirs; now rewrite Hmk).
  rewrite (bind_run _ _ _ tt (set_fs t1 (set_fs t0 w)))
    by (unfold open_wb; simpl fs; now rewrite Hw1).
  rewrite (bind_run _ _ _ tt (set_fs t1 (set_fs t0 w)))
    by (unfold open_rb; simpl fs; now rewrite (proj2 (read_inr _ _ _) Hrp1)).
  rewrite (bind_run _ _ _ tt (set_fs t1 (set_fs t0 w)))
    by (unfold open_rb; simpl fs; now rewrite (proj2 (read_inr _ _ _) Hrv1)).
  rewrite (bind_run _ _ _ p (set_fs t1 (set_fs t0 w)))
    by (unfold file_read; simpl fs; now rewrite (proj2 (read_inr _ _ _) Hrp1)).
  rewrite (bind_run _ _ _ tt (set_fs t2 (set_fs t1 (set_fs t0 w)))).
  2:{ unfold file_write. simpl fs.
      rewrite (proj2 (read_inr _ _ _) Hout1). now rewrite Hw2. }
  rewrite (bind_run _ _ _ v (set_fs t2 (set_fs t1 (set_fs t0 w))))
    by (unfold file_read; simpl fs; now rewrite (proj2 (read_inr _ _ _) Hrv2)).
  rewrite (bind_run _ _ _ tt (set_fs t3 (set_fs t2 (set_fs t1 (set_fs t0 w))))).
  2:{ unfold file_write. simpl fs.
      rewrite (proj2 (read_inr _ _ _) Hout2). now rewrite Hw3. }
  reflexivity.
Qed.

(** In a directory that exists, [merge_files] returns unless a directory
    has the name of the output. *)
Lemma merge_files_runs_in_directory photo video output w p v :
  let out := join output (basename photo) in
  components out ≠ components photo ->
  components out ≠ components video ->
  FS.read (fs w) photo = inr p ->
  FS.read (fs w) video = inr v ->
  isdir (fs w) output = true ->
  isdir (fs w) out = false ->
  exists w', merge_files photo video output w = (Returned out, w').
Proof.
  intros out Hp Hv Hrp Hrv Hdir Hout.
  assert (Ha : output ≠ "").
  { intros ->. discriminate Hdir. }
  assert (Hb : basename photo ≠ "").
  { intros Hb. unfold out in Hout. rewrite Hb in Hout.
    assert (Hsame : resolve (fs w) (join output "") = resolve (fs w) output).
    { unfold join. simpl startswith. cbv iota.
      apply String.eqb_neq in Ha. rewrite Ha. simpl orb.
      destruct (endswith output "/").
      - now rewrite PyStrFacts.app_nil_r.
      - rewrite PyStrFacts.app_nil_r. unfold resolve.
        rewrite eqb_app_empty by discriminate. rewrite Ha.
        now rewrite (PyStrFacts.components_app_all_sep output "/" eq_refl). }
    unfold isdir in Hout, Hdir. rewrite Hsame in Hout. congruence. }
  destruct (PyStrFacts.components_join output (basename photo) Ha Hb
              (PyStrFacts.basename_nosep photo))
    as (Hcout & Hcdir & Hdne).
  fold out in Hcout, Hcdir, Hdne.
  assert (Hl : exists es, lookup (fs w) (components output) = Some (Dir es)).
  { unfold isdir, resolve in Hdir. apply String.eqb_neq in Ha. rewrite Ha in Hdir.
    destruct (lookup (fs w) (components output)) as [[d|es]|]; try discriminate.
    eauto. }
  destruct Hl as [es Hl].
  assert (Hmk : makedirs (fs w) (dirname out) = inr (fs w)).
  { unfold makedirs. apply String.eqb_neq in Hdne. rewrite Hdne, Hcdir.
    eapply mkdir_p_existing; eassumption. }
  assert (Hone : out ≠ "").
  { intros He. rewrite He in Hcout. destruct (components output); discriminate. }
  assert (Hw : exists t1, FS.write (fs w) out [] = inr t1).
  { unfold FS.write. unfold isdir, resolve in Hout.
    apply String.eqb_neq in Hone. rewrite Hone in Hout |- *.
    rewrite Hcout in Hout |- *.
    eapply store_in_dir; [exact Hl|].
    intros es' He. rewrite He in Hout. discriminate. }
  destruct Hw as [t1 Hw].
  eapply merge_files_runs; eassumption.
Qed.

(** A returning [add_xmp_metadata]: the tags read, with the four
    assignments made in the order of the source, are written once. *)
Lemma add_xmp_metadata_returned E merged_file offset w u w' :
  add_xmp_metadata E merged_file offset w = (Returned u, w') ->
  exists data old data',
    FS.read (fs w) merged_file = inr data
    /\ exiv2_read E data = Some old
    /\ exiv2_write E data
         (<["Xmp.GCamera.MicroVideoPresentationTimestampUs" := XmpInt 1500000]>
            (<["Xmp.GCamera.MicroVideoOffset" := XmpInt offset]>
               (<["Xmp.GCamera.MicroVideoVersion" := XmpInt 1]>
                  (<["Xmp.GCamera.MicroVideo" := XmpInt 1]> old))))
       = Some data'
    /\ FS.read (fs w') merged_file = inr data'
    /\ xmp_log w' =
         (xmp_log w ++
          [XmpWrite merged_file
             (<["Xmp.GCamera.MicroVideoPresentationTimestampUs" := XmpInt 1500000]>
                (<["Xmp.GCamera.MicroVideoOffset" := XmpInt offset]>
                   (<["Xmp.GCamera.MicroVideoVersion" := XmpInt 1]>
                      (<["Xmp.GCamera.MicroVideo" := XmpInt 1]> old))))])%list
    /\ "GCamera" ∈ namespaces w'.
Proof.
  intros H. unfold add_xmp_metadata in H.
  apply bind_returned in H as (old & w1 & Hrd & H).
  apply metadata_read_returned in Hrd as (data & Hread & Hold & ->).
  apply bind_returned in H as (u' & w2 & Hreg & H).
  destruct (register_gcamera "http://ns.google.com/photos/1.0/camera/" w)
    as (w2' & Hreg' & Hfs & Hlog & _ & Hns).
  rewrite Hreg' in Hreg. inversion Hreg; subst w2'. clear Hreg.
  apply metadata_write_returned in H as (data2 & data' & t & Hread2 & Hwr & Hst & ->).
  rewrite Hfs, Hread in Hread2. inversion Hread2; subst data2.
  exists data, old, data'. simpl.
  split; [assumption|]. split; [assumption|]. split; [exact Hwr|].
  split; [apply read_inr; apply (write_resolve_eq _ _ _ _ Hst)|].
  split; [now rewrite Hlog|assumption].
Qed.

(** [add_xmp_metadata] returns when exiv2 reads the file and writes it. *)
Lemma add_xmp_metadata_runs E merged_file offset w data old :
  FS.read (fs w) merged_file = inr data ->
  exiv2_read E data = Some old ->
  (forall tags, is_Some (exiv2_write E data tags)) ->
  exists w', add_xmp_metadata E merged_file offset w = (Returned tt, w').
Proof.
  intros Hread Hold Hwr. unfold add_xmp_metadata.
  assert (Hrd : metadata_read E merged_file w = (Returned old, w)).
  { unfold metadata_read.
    rewrite (bind_run _ _ _ data w) by (unfold file_read; now rewrite Hread).
    now rewrite Hold. }
  rewrite (bind_run _ _ _ _ _ Hrd).
  destruct (register_gcamera "http://ns.google.com/photos/1.0/camera/" w)
    as (w2 & Hreg & Hfs & _).
  rewrite (bind_run _ _ _ _ _ Hreg).
  unfold metadata_write.
  rewrite (bind_run _ _ _ data w2) by (unfold file_read; now rewrite Hfs, Hread).
  match goal with
  | |- context [exiv2_write E data ?tags] =>
      destruct (Hwr tags) as [data' Hd]; rewrite Hd
  end.
  rewrite (bind_run _ _ _ data' w2) by reflexivity.
  destruct (write_existing (fs w2) merged_file data data') as [t Ht].
  { apply read_inr. now rewrite Hfs. }
  rewrite Ht. eauto.
Qed.

Lemma merge_files_returned photo video output w o w' :
  merge_files photo video output w = (Returned o, w') ->
  o = join output (basename photo) /\ w' = set_fs (fs w') w.
Proof.
  intros H. unfold merge_files in H.
  apply bind_returned in H as (? & ? & Hmk & H).
  apply os_makedirs_returned in Hmk as (t0 & Hmk & ->).
  apply bind_returned in H as (? & ? & Hw1 & H).
  apply open_wb_returned in Hw1 as (t1 & Hw1 & ->).
  apply bind_returned in H as (? & ? & Ho & H).
  apply open_rb_returned in Ho as (_ & ->).
  apply bind_returned in H as (? & ? & Ho & H).
  apply open_rb_returned in Ho as (_ & ->).
  apply bind_returned in H as (? & ? & Hrp & H).
  apply file_read_returned in Hrp as (Hrp & ->).
  apply bind_returned in H as (? & ? & Hw2 & H).
  apply file_write_returned in Hw2 as (old & t2 & Hro & Hw2 & ->).
  apply bind_returned in H as (? & ? & Hrv & H).
  apply file_read_returned in Hrv as (Hrv & ->).
  apply bind_returned in H as (? & ? & Hw3 & H).
  apply file_write_returned in Hw3 as (old2 & t3 & Hro2 & Hw3 & ->).
  apply ret_returned in H as (-> & ->). split; reflexivity.
Qed.

(** [Image.save] given [heif_file.metadata] as [exif] never returns. *)
Lemma image_save_metadata_not_returned E img path m w u w1 :
  image_save E img path (ExifMetadata m) w ≠ (Returned u, w1).
Proof.
  intros H. unfold image_save in H.
  apply bind_returned in H as (created & ? & _ & H).
  apply bind_returned in H as (? & ? & _ & H).
  apply bind_returned in H as (? & ? & _ & H).
  discriminate H.
Qed.

(** So the HEIC step never returns. *)
Lemma heic_to_jpeg_not_returned E photo w j w1 :
  heic_to_jpeg E photo w ≠ (Returned j, w1).
Proof.
  intros H. unfold heic_to_jpeg in H.
  apply bind_returned in H as (? & ? & _ & H).
  apply bind_returned in H as (data & ? & _ & H).
  apply bind_returned in H as (heif_file & ? & _ & H).
  apply bind_returned in H as (? & ? & Hs & _).
  apply (image_save_metadata_not_returned _ _ _ _ _ _ _ Hs).
Qed.

End RunFacts.

(* ===================================================================== *)
(** ** The properties of the specification *)
(* ===================================================================== *)

Import PyStr PosixPath FS Muxer Scenario.
Import PyStrFacts FSFacts RunFacts.

Lemma length_bytes_of_size n :
  0 <= n -> Z.of_nat (length (bytes_of_size n)) = n.
Proof. intros H. unfold bytes_of_size. rewrite repeat_length. lia. Qed.

(** *** More about writes and removals *)

(** Storing at [p] makes nothing appear or disappear elsewhere. *)
Lemma lookup_store_ne_none p : forall t t' d q,
  store t p d = inr t' -> q ≠ p ->
  (lookup t' q = None <-> lookup t q = None).
Proof.
  induction p as [|c p IH]; intros t t' d q H Hq; simpl in H.
  - destruct t; [|discriminate]. inversion H; subst t'.
    destruct q; [congruence|reflexivity].
  - destruct t as [|es]; [discriminate|].
    destruct (assoc c es) as [n'|] eqn:Ha.
    + destruct (store n' p d) as [e|n''] eqn:Hs; [discriminate|].
      inversion H; subst t'. destruct q as [|c' q]; [simpl; split; discriminate|].
      simpl. destruct (decide (c' = c)) as [->|Hc].
      * rewrite assoc_set_entry_eq, Ha. apply (IH _ _ _ _ Hs). congruence.
      * now rewrite assoc_set_entry_ne.
    + destruct p; [|discriminate]. inversion H; subst t'.
      destruct q as [|c' q]; [simpl; split; discriminate|]. simpl.
      destruct (decide (c' = c)) as [->|Hc].
      * rewrite assoc_set_entry_eq, Ha. destruct q; [congruence|reflexivity].
      * now rewrite assoc_set_entry_ne.
Qed.

(** What [open(q, "rb")] finds is the same before and after a write to
    another path: the same bytes, or the same error. *)
Lemma read_write_ne t path d t' q :
  FS.write t path d = inr t' -> components q ≠ components path ->
  FS.read t' q = FS.read t q.
Proof.
  intros Hw Hq.
  pose proof (write_resolve_ne _ _ _ _ _ Hw Hq) as Hf.
  assert (Hn : resolve t' q = None <-> resolve t q = None).
  { unfold FS.write in Hw. unfold resolve.
    destruct (String.eqb path ""); [discriminate|].
    destruct (String.eqb q ""); [reflexivity|].
    now apply (lookup_store_ne_none _ _ _ _ _ Hw). }
  unfold FS.read.
  destruct (resolve t' q) as [[d1|es1]|], (resolve t q) as [[d2|es2]|];
    simpl in Hf; try congruence; try reflexivity.
  - destruct Hn as [_ Hn]. specialize (Hn eq_refl). discriminate.
  - destruct Hn as [Hn _]. specialize (Hn eq_refl). discriminate.
Qed.

(** In a directory that exists, making the directory of the output
    changes nothing, and the output can be opened for writing unless a
    directory has its name. *)
Lemma open_output_in_directory t output name :
  let out := join output name in
  mem sep name = false ->
  isdir t output = true ->
  isdir t out = false ->
  makedirs t (dirname out) = inr t
  /\ exists t1, FS.write t out [] = inr t1.
Proof.
  intros out Hsep Hdir Hout.
  assert (Ha : output ≠ "").
  { intros ->. discriminate Hdir. }
  assert (Hb : name ≠ "").
  { intros ->. unfold out in Hout.
    assert (Hsame : resolve t (join output "") = resolve t output).
    { unfold join. simpl startswith. cbv iota.
      apply String.eqb_neq in Ha. rewrite Ha. simpl orb.
      destruct (endswith output "/").
      - now rewrite app_nil_r.
      - rewrite app_nil_r. unfold resolve.
        rewrite eqb_app_empty by discriminate. rewrite Ha.
        now rewrite (components_app_all_sep output "/" eq_refl). }
    unfold isdir in Hout, Hdir. rewrite Hsame in Hout. congruence. }
  destruct (components_join output name Ha Hb Hsep) as (Hcout & Hcdir & Hdne).
  fold out in Hcout, Hcdir, Hdne.
  assert (Hl : exists es, lookup t (components output) = Some (Dir es)).
  { unfold isdir, resolve in Hdir. apply String.eqb_neq in Ha. rewrite Ha in Hdir.
    destruct (lookup t (components output)) as [[d|es]|]; try discriminate.
    eauto. }
  destruct Hl as [es Hl]. split.
  - unfold makedirs. apply String.eqb_neq in Hdne. rewrite Hdne, Hcdir.
    eapply mkdir_p_existing; eassumption.
  - assert (Hone : out ≠ "").
    { intros He. rewrite He in Hcout. destruct (components output); discriminate. }
    unfold FS.write. unfold isdir, resolve in Hout.
    apply String.eqb_neq in Hone. rewrite Hone in Hout |- *.
    rewrite Hcout in Hout |- *.
    eapply store_in_dir; [exact Hl|].
    intros es' He. rewrite He in Hout. discriminate.
Qed.

Lemma assoc_del_entry_eq name es : assoc name (del_entry name es) = None.
Proof.
  induction es as [|[k m] es IH]; simpl; [reflexivity|].
  destruct (String.eqb k name) eqn:Hk; simpl; [exact IH|].
  now rewrite Hk.
Qed.

Lemma assoc_del_entry_ne name name' es :
  name' ≠ name -> assoc name' (del_entry name es) = assoc name' es.
Proof.
  intros Hne. induction es as [|[k m] es IH]; simpl; [reflexivity|].
  destruct (String.eqb k name) eqn:Hk; simpl.
  - apply String.eqb_eq in Hk. subst k.
    destruct (String.eqb name name') eqn:Hk'; [|exact IH].
    apply String.eqb_eq in Hk'. congruence.
  - now rewrite IH.
Qed.

(** [unlink] succeeds exactly on regular files. *)
Lemma unlink_file p : forall t,
  (exists t', unlink t p = inr t') <-> (exists d, lookup t p = Some (File d)) /\ p ≠ [].
Proof.
  induction p as [|c p IH]; intros t; simpl.
  - split; [intros [t' H]; discriminate|intros [_ H]; congruence].
  - destruct t as [d0|es].
    { split; [intros [t' H]; discriminate|intros [[d H] _]; discriminate]. }
    destruct (assoc c es) as [n'|].
    2:{ split; [intros [t' H]; discriminate|intros [[d H] _]; discriminate]. }
    destruct p as [|c2 p].
    + simpl. destruct n' as [d'|es'].
      * split; [intros _; split; [eauto|discriminate]|eauto].
      * split; [intros [t' H]; discriminate|intros [[d H] _]; discriminate].
    + specialize (IH n'). split.
      * intros [t' H]. destruct (unlink n' (c2 :: p)) as [e|n''] eqn:Hu;
          [discriminate|].
        destruct IH as [IH _]. destruct (IH (ex_intro _ n'' eq_refl)) as [Hd _].
        split; [exact Hd|discriminate].
      * intros [Hd _]. destruct IH as [_ IH].
        assert (Hne : c2 :: p ≠ []) by discriminate.
        destruct (IH (conj Hd Hne)) as [n'' ->]. eauto.
Qed.

(** After [unlink] nothing is at [p]. *)
Lemma lookup_unlink_eq p : forall t t',
  unlink t p = inr t' -> lookup t' p = None.
Proof.
  induction p as [|c p IH]; intros t t' H; simpl in H; [discriminate|].
  destruct t as [|es]; [discriminate|].
  destruct (assoc c es) as [n'|] eqn:Ha; [|discriminate].
  destruct p as [|c2 p].
  - destruct n'; [|discriminate]. inversion H; subst t'. simpl.
    now rewrite assoc_del_entry_eq.
  - destruct (unlink n' (c2 :: p)) as [e|n''] eqn:Hu; [discriminate|].
    inversion H; subst t'.
    change (lookup (Dir (set_entry c n'' es)) (c :: c2 :: p))
      with (match assoc c (set_entry c n'' es) with
            | Some n0 => lookup n0 (c2 :: p)
            | None => None
            end).
    rewrite assoc_set_entry_eq. apply (IH _ _ Hu).
Qed.

(** [unlink] at [p] changes no other place: the same regular file, the
    same kind of thing, or nothing, as before. *)
Lemma lookup_unlink_ne p : forall t t' q,
  unlink t p = inr t' -> q ≠ p ->
  file_of (lookup t' q) = file_of (lookup t q)
  /\ (lookup t' q = None <-> lookup t q = None).
Proof.
  induction p as [|c p IH]; intros t t' q H Hq; simpl in H; [discriminate|].
  destruct t as [|es]; [discriminate|].
  destruct (assoc c es) as [n'|] eqn:Ha; [|discriminate].
  destruct p as [|c2 p].
  - destruct n' as [d'|]; [|discriminate]. inversion H; subst t'.
    destruct q as [|c' q]; [simpl; split; [reflexivity|split; discriminate]|].
    simpl. destruct (decide (c' = c)) as [->|Hc].
    + rewrite assoc_del_entry_eq, Ha. destruct q; [congruence|].
      simpl. split; reflexivity.
    + rewrite assoc_del_entry_ne by exact Hc. split; reflexivity.
  - destruct (unlink n' (c2 :: p)) as [e|n''] eqn:Hu; [discriminate|].
    inversion H; subst t'.
    destruct q as [|c' q]; [simpl; split; [reflexivity|split; discriminate]|].
    change (lookup (Dir (set_entry c n'' es)) (c' :: q))
      with (match assoc c' (set_entry c n'' es) with
            | Some n0 => lookup n0 q
            | None => None
            end).
    change (lookup (Dir es) (c' :: q))
      with (match assoc c' es with
            | Some n0 => lookup n0 q
            | None => None
            end).
    destruct (decide (c' = c)) as [->|Hc].
    + rewrite assoc_set_entry_eq, Ha. apply (IH _ _ _ Hu). congruence.
    + rewrite assoc_set_entry_ne by exact Hc. split; reflexivity.
Qed.

Lemma read_of_resolve t t' q :
  file_of (resolve t' q) = file_of (resolve t q) ->
  (resolve t' q = None <-> resolve t q = None) ->
  FS.read t' q = FS.read t q.
Proof.
  intros Hf Hn. unfold FS.read.
  destruct (resolve t' q) as [[d1|es1]|], (resolve t q) as [[d2|es2]|];
    simpl in Hf; try congruence; try reflexivity.
  - destruct Hn as [_ Hn]. specialize (Hn eq_refl). discriminate.
  - destruct Hn as [Hn _]. specialize (Hn eq_refl). discriminate.
Qed.

Lemma isfile_read t q : isfile t q = true <-> exists d, FS.read t q = inr d.
Proof.
  unfold isfile, FS.read. destruct (resolve t q) as [[d|es]|]; split;
    try (intros [d' H]); try discriminate; eauto.
Qed.

(** [os.remove]: what it does to the tree when it succeeds, and when it
    succeeds. *)
Lemma remove_spec t path :
  match remove t path with
  | inr t' =>
      isfile t path = true
      /\ (forall q, components q = components path -> FS.read t' q = inl ENOENT)
      /\ (forall q, components q ≠ components path -> FS.read t' q = FS.read t q)
  | inl _ => isfile t path = false \/ components path = []
  end.
Proof.
  unfold remove. destruct (String.eqb path "") eqn:Hp.
  { left. unfold isfile, resolve. now rewrite Hp. }
  destruct (unlink t (components path)) as [e|t'] eqn:Hu.
  - destruct (lookup t (components path)) as [[d|es]|] eqn:Hl.
    + destruct (components path) as [|c p] eqn:Hc; [now right|].
      destruct (proj2 (unlink_file (c :: p) t)) as [t' Ht'];
        [split; [eauto|discriminate]|]. congruence.
    + left. unfold isfile, resolve. now rewrite Hp, Hl.
    + left. unfold isfile, resolve. now rewrite Hp, Hl.
  - destruct (proj1 (unlink_file _ t) (ex_intro _ t' Hu)) as [[d Hd] Hne].
    split; [unfold isfile, resolve; now rewrite Hp, Hd|]. split.
    + intros q Hq. unfold FS.read, resolve.
      destruct (String.eqb q ""); [reflexivity|].
      rewrite Hq, (lookup_unlink_eq _ _ _ Hu). reflexivity.
    + intros q Hq. apply read_of_resolve; unfold resolve;
        destruct (String.eqb q ""); try reflexivity;
        apply (lookup_unlink_ne _ _ _ _ Hu Hq).
Qed.

(** *** PairFinder *)

Lemma first_existing_spec t base exts :
  ((forall ext, In ext exts -> exists_ t (base ++ ext) = false)
   /\ first_existing t base exts = "")
  \/ (exists tried ext rest,
        exts = (tried ++ ext :: rest)%list
        /\ (forall e, In e tried -> exists_ t (base ++ e) = false)
        /\ exists_ t (base ++ ext) = true
        /\ first_existing t base exts = base ++ ext).
Proof.
  induction exts as [|ext exts IH]; simpl.
  - left. split; [tauto|reflexivity].
  - destruct (exists_ t (base ++ ext)) eqn:He.
    + right. exists [], ext, exts. simpl. repeat split; [tauto|assumption].
    + destruct IH as [[Hall Hr]|(tried & ext' & rest & -> & Htried & Hex & Hr)].
      * left. split; [|assumption]. intros e [<-|Hin]; auto.
      * right. exists (ext :: tried), ext', rest. repeat split; try assumption.
        intros e [<-|Hin]; auto.
Qed.

(** C4. [matching_video] probes [base + ext] for [ext] in the order
    [.mov], [.mp4], [.MOV], [.MP4], where [base] is the photo path without
    its extension, and returns the first candidate that exists, or the
    empty string when none exists.  In particular, when [base.mov] exists
    it is the answer, whatever else exists. *)
Theorem matching_video_first_match t photo_path :
  let base := fst (splitext photo_path) in
  (((forall ext, In ext [".mov"; ".mp4"; ".MOV"; ".MP4"] ->
       exists_ t (base ++ ext) = false)
    /\ matching_video t photo_path = "")
   \/ (exists tried ext rest,
         [".mov"; ".mp4"; ".MOV"; ".MP4"] = (tried ++ ext :: rest)%list
         /\ (forall e, In e tried -> exists_ t (base ++ e) = false)
         /\ exists_ t (base ++ ext) = true
         /\ matching_video t photo_path = base ++ ext))
  /\ (exists_ t (base ++ ".mov") = true ->
      matching_video t photo_path = base ++ ".mov").
Proof.
  intros base. split.
  - apply (first_existing_spec t base video_extensions).
  - intros H. unfold matching_video. fold base. simpl. now rewrite H.
Qed.

Lemma matching_video_first_match_witness :
  exists_ tree_pair "d/a.mov" = true
  /\ exists_ tree_pair "d/a.mp4" = true
  /\ matching_video tree_pair "d/a.jpg" = "d/a.mov".
Proof.
  split; [reflexivity|]. split; [reflexivity|].
  apply (proj2 (matching_video_first_match tree_pair "d/a.jpg")).
  reflexivity.
Defined.

(** *** The size gate *)



(** *** MetadataWriter *)

(** C8. A returning [add_xmp_metadata] wrote the file once, with the tags
    it read from the file changed in four places, all under the GCamera
    prefix: [MicroVideo] is 1, [MicroVideoVersion] is 1, [MicroVideoOffset]
    is the offset passed in, [MicroVideoPresentationTimestampUs] is
    1500000; every other tag is as it was read.  The prefix is registered
    afterwards.  The call returns whenever exiv2 can read the file and
    write it back. *)
Theorem add_xmp_metadata_fields E merged_file offset w :
  (forall w',
     add_xmp_metadata E merged_file offset w = (Returned tt, w') ->
     exists data old tags data',
       FS.read (fs w) merged_file = inr data
       /\ exiv2_read E data = Some old
       /\ exiv2_write E data tags = Some data'
       /\ FS.read (fs w') merged_file = inr data'
       /\ xmp_log w' = (xmp_log w ++ [XmpWrite merged_file tags])%list
       /\ "GCamera" ∈ namespaces w'
       /\ tags !! "Xmp.GCamera.MicroVideo" = Some (XmpInt 1)
       /\ tags !! "Xmp.GCamera.MicroVideoVersion" = Some (XmpInt 1)
       /\ tags !! "Xmp.GCamera.MicroVideoOffset" = Some (XmpInt offset)
       /\ tags !! "Xmp.GCamera.MicroVideoPresentationTimestampUs"
          = Some (XmpInt 1500000)
       /\ (forall key,
             key ≠ "Xmp.GCamera.MicroVideo" ->
             key ≠ "Xmp.GCamera.MicroVideoVersion" ->
             key ≠ "Xmp.GCamera.MicroVideoOffset" ->
             key ≠ "Xmp.GCamera.MicroVideoPresentationTimestampUs" ->
             tags !! key = old !! key))
  /\ (forall data old,
        FS.read (fs w) merged_file = inr data ->
        exiv2_read E data = Some old ->
        (forall tags, is_Some (exiv2_write E data tags)) ->
        exists w', add_xmp_metadata E merged_file offset w = (Returned tt, w')).
Proof.
  split.
  - intros w' H.
    apply add_xmp_metadata_returned in H
      as (data & old & data' & Hread & Hold & Hwr & Hread' & Hlog & Hns).
    exists data, old. eexists. exists data'.
    split; [assumption|]. split; [assumption|]. split; [exact Hwr|].
    split; [assumption|]. split; [exact Hlog|]. split; [assumption|].
    repeat split.
    + now rewrite !lookup_insert_ne, lookup_insert_eq by discriminate.
    + now rewrite !lookup_insert_ne, lookup_insert_eq by discriminate.
    + now rewrite !lookup_insert_ne, lookup_insert_eq by discriminate.
    + now rewrite lookup_insert_eq.
    + intros key Hk1 Hk2 Hk3 Hk4. now rewrite !lookup_insert_ne by congruence.
  - intros data old Hread Hold Hwr.
    eapply add_xmp_metadata_runs; eassumption.
Qed.

Lemma add_xmp_metadata_fields_witness :
  let w := start tree_merged [] in
  exists w' tags,
    add_xmp_metadata sample_env "out/a.jpg" 3 w = (Returned tt, w')
    /\ xmp_log w' = [XmpWrite "out/a.jpg" tags]
    /\ tags !! "Xmp.GCamera.MicroVideoOffset" = Some (XmpInt 3).
Proof.
  intros w.
  destruct (add_xmp_metadata sample_env "out/a.jpg" 3 w) as [r w'] eqn:Hrun.
  assert (Hr : r = Returned tt) by (vm_compute in Hrun; congruence).
  subst r.
  destruct (proj1 (add_xmp_metadata_fields sample_env "out/a.jpg" 3 w) w' Hrun)
    as (data & old & tags & data' & _ & _ & _ & _ & Hlog & _ & _ & _ & Hoff & _).
  exists w', tags. auto.
Defined.

(** *** Muxer *)

(** [merge_files] when the output path is the photo path: opening the
    output empties the photo before the photo is read, and what the call
    leaves there is the video. *)
Lemma merge_files_onto_photo photo video output w photo_bytes video_bytes :
  join output (basename photo) = photo ->
  isdir (fs w) output = true ->
  FS.read (fs w) photo = inr photo_bytes ->
  FS.read (fs w) video = inr video_bytes ->
  components video ≠ components photo ->
  exists w',
    merge_files photo video output w = (Returned photo, w')
    /\ FS.read (fs w') photo = inr video_bytes
    /\ FS.read (fs w') video = inr video_bytes
    /\ w' = set_fs (fs w') w.
Proof.
  intros Hout Hdir Hp Hv Hne.
  assert (Hnodir : isdir (fs w) (join output (basename photo)) = false).
  { rewrite Hout. unfold isdir. unfold FS.read in Hp.
    destruct (resolve (fs w) photo) as [[d|es]|]; congruence. }
  destruct (open_output_in_directory (fs w) output (basename photo)
              (basename_nosep photo) Hdir Hnodir) as [Hmk [t1 Ht1]].
  rewrite Hout in Hmk, Ht1.
  assert (R1p : FS.read t1 photo = inr []).
  { apply read_inr. apply (write_resolve_eq _ _ _ _ Ht1). }
  assert (R1v : FS.read t1 video = inr video_bytes).
  { rewrite (read_write_ne _ _ _ _ _ Ht1 Hne). exact Hv. }
  destruct (write_existing t1 photo [] ([] ++ [])%list
              (proj1 (read_inr _ _ _) R1p))
    as [t2 Ht2].
  assert (R2p : FS.read t2 photo = inr ([] ++ [])%list).
  { apply read_inr. apply (write_resolve_eq _ _ _ _ Ht2). }
  assert (R2v : FS.read t2 video = inr video_bytes).
  { rewrite (read_write_ne _ _ _ _ _ Ht2 Hne). exact R1v. }
  destruct (write_existing t2 photo _ (([] ++ []) ++ video_bytes)%list
              (proj1 (read_inr _ _ _) R2p)) as [t3 Ht3].
  exists (set_fs t3 w). split; [|split; [|split]].
  - unfold merge_files. rewrite Hout.
    rewrite (bind_run _ _ _ tt (set_fs (fs w) w))
      by (unfold os_makedirs; now rewrite Hmk).
    rewrite (bind_run _ _ _ tt (set_fs t1 w))
      by (unfold open_wb; cbn [fs set_fs]; now rewrite Ht1).
    rewrite (bind_run _ _ _ tt (set_fs t1 w))
      by (unfold open_rb; cbn [fs set_fs]; now rewrite R1p).
    rewrite (bind_run _ _ _ tt (set_fs t1 w))
      by (unfold open_rb; cbn [fs set_fs]; now rewrite R1v).
    rewrite (bind_run _ _ _ [] (set_fs t1 w))
      by (unfold file_read; cbn [fs set_fs]; now rewrite R1p).
    rewrite (bind_run _ _ _ tt (set_fs t2 w))
      by (unfold file_write; cbn [fs set_fs]; now rewrite R1p, Ht2).
    rewrite (bind_run _ _ _ video_bytes (set_fs t2 w))
      by (unfold file_read; cbn [fs set_fs]; now rewrite R2v).
    rewrite (bind_run _ _ _ tt (set_fs t3 w))
      by (unfold file_write; cbn [fs set_fs]; now rewrite R2p, Ht3).
    reflexivity.
  - cbn [fs set_fs]. apply read_inr. apply (write_resolve_eq _ _ _ _ Ht3).
  - cbn [fs set_fs]. rewrite (read_write_ne _ _ _ _ _ Ht3 Hne). exact R2v.
  - reflexivity.
Qed.

(** C1 fails on the code.  [merge_files] opens its output for writing
    before it reads the photo.  When the output path is the photo path,
    as it is when the output directory is the directory of the photo (a
    run of [main] whose destination is the source directory), the photo
    is emptied first and the file [merge_files] leaves is the video
    alone: for a photo that is not empty, its size is the size of the
    video and not the size of the photo plus the size of the video.
    [convert] then measures one file twice and passes 0, not the size of
    the video, as the offset. *)
Theorem merge_into_photo_directory_size E photo video output w
    photo_bytes video_bytes :
  join output (basename photo) = photo ->
  isdir (fs w) output = true ->
  FS.read (fs w) photo = inr photo_bytes ->
  FS.read (fs w) video = inr video_bytes ->
  components video ≠ components photo ->
  photo_bytes ≠ [] ->
  let size_photo := Z.of_nat (length photo_bytes) in
  let size_video := Z.of_nat (length video_bytes) in
  getsize (dir_size E) (fs w) photo = inr size_photo
  /\ getsize (dir_size E) (fs w) video = inr size_video
  /\ exists w',
       merge_files photo video output w = (Returned photo, w')
       /\ getsize (dir_size E) (fs w') photo = inr size_video
       /\ size_video ≠ size_photo + size_video
       /\ (endswith (lower photo) ".heic" = false ->
           convert E photo video output true w
           = bind (add_xmp_metadata E photo 0) (fun _ => ret RetNone) w').
Proof.
  intros Hout Hdir Hp Hv Hne Hnonempty size_photo size_video.
  split; [apply getsize_file; now apply read_inr|].
  split; [apply getsize_file; now apply read_inr|].
  destruct (merge_files_onto_photo _ _ _ _ _ _ Hout Hdir Hp Hv Hne)
    as (w' & Hrun & Hp' & _ & _).
  assert (Hsize : getsize (dir_size E) (fs w') photo = inr size_video).
  { apply getsize_file. now apply read_inr. }
  exists w'. split; [exact Hrun|]. split; [exact Hsize|]. split.
  - unfold size_photo, size_video. destruct photo_bytes; [congruence|].
    simpl length. lia.
  - intros Hheic. unfold convert. simpl negb. cbv iota.
    rewrite (bind_run _ _ _ false w) by reflexivity. cbv iota.
    rewrite Hheic.
    rewrite (bind_run _ _ _ photo w) by reflexivity.
    rewrite (bind_run _ _ _ photo w') by exact Hrun.
    rewrite (bind_run _ _ _ size_video w')
      by (unfold os_path_getsize; now rewrite Hsize).
    rewrite (bind_run _ _ _ size_video w')
      by (unfold os_path_getsize; now rewrite Hsize).
    now rewrite Z.sub_diag.
Qed.

Lemma merge_into_photo_directory_size_witness :
  let w := start tree_pair [] in
  let r := main sample_env (start tree_pair ["d"; "d"; "yes"]) in
  getsize 4096 (fs w) "d/a.jpg" = inr 4
  /\ getsize 4096 (fs w) "d/a.mov" = inr 3
  /\ (exists w',
        merge_files "d/a.jpg" "d/a.mov" "d" w = (Returned "d/a.jpg", w')
        /\ getsize 4096 (fs w') "d/a.jpg" = inr 3)
  /\ fst r = Raised Exiv2Error
  /\ FS.read (fs (snd r)) "d/a.jpg" = inr Scenario.video_bytes.
Proof.
  intros w r.
  assert (Hne : components "d/a.mov" ≠ components "d/a.jpg")
    by (vm_compute; discriminate).
  assert (Hnonempty : jpeg_bytes ≠ []) by discriminate.
  destruct (merge_into_photo_directory_size sample_env "d/a.jpg" "d/a.mov" "d" w
              jpeg_bytes Scenario.video_bytes
              eq_refl eq_refl eq_refl eq_refl Hne Hnonempty)
    as (Hsp & Hsv & w' & Hrun & Hso & _).
  split; [exact Hsp|]. split; [exact Hsv|].
  split; [exists w'; split; [exact Hrun|exact Hso]|].
  split; vm_compute; reflexivity.
Defined.

(** The sizes around a returning [merge_files] whose output is neither of
    its inputs. *)
Lemma merge_files_sizes ds photo video output w o w' :
  components (join output (basename photo)) ≠ components photo ->
  components (join output (basename photo)) ≠ components video ->
  merge_files photo video output w = (Returned o, w') ->
  exists p v,
    FS.read (fs w) photo = inr p
    /\ FS.read (fs w) video = inr v
    /\ getsize ds (fs w) photo = inr (Z.of_nat (length p))
    /\ getsize ds (fs w) video = inr (Z.of_nat (length v))
    /\ o = join output (basename photo)
    /\ getsize ds (fs w') o = inr (Z.of_nat (length p) + Z.of_nat (length v))
    /\ getsize ds (fs w') photo = inr (Z.of_nat (length p))
    /\ getsize ds (fs w') video = inr (Z.of_nat (length v)).
Proof.
  intros Hp Hv H.
  destruct (merge_files_distinct _ _ _ _ _ _ Hp Hv H)
    as (p & v & Hp0 & Hv0 & -> & Ho & Hp1 & Hv1 & _).
  exists p, v.
  rewrite (getsize_file _ _ _ _ Hp0), (getsize_file _ _ _ _ Hv0),
    (getsize_file _ _ _ _ Ho), (getsize_file _ _ _ _ Hp1),
    (getsize_file _ _ _ _ Hv1).
  rewrite List.length_app, Nat2Z.inj_add.
  repeat split; try reflexivity; apply read_inr; assumption.
Qed.

(** Away from that case the sizes add up.  When the output path is
    neither the photo path nor the video path, a returning [merge_files]
    leaves an output whose size is the size of the photo plus the size of
    the video, and the inputs keep their sizes; [merge_files] does return
    when the inputs are regular files, the output directory exists and no
    directory has the output path.  Whenever [convert] muxes, the photo
    is not a HEIC photo and the offset written is the size of the output
    minus the size of the photo, both measured after the merge; with an
    output path that is neither input, that is the size of the video. *)
Lemma merge_files_sizes_add_up E photo video output w :
  let out := join output (basename photo) in
  (components out ≠ components photo ->
   components out ≠ components video ->
   (forall o w',
      merge_files photo video output w = (Returned o, w') ->
      exists size_photo size_video,
        getsize (dir_size E) (fs w) photo = inr size_photo
        /\ getsize (dir_size E) (fs w) video = inr size_video
        /\ o = out
        /\ getsize (dir_size E) (fs w') o = inr (size_photo + size_video)
        /\ getsize (dir_size E) (fs w') photo = inr size_photo
        /\ getsize (dir_size E) (fs w') video = inr size_video)
   /\ (forall photo_bytes video_bytes,
         FS.read (fs w) photo = inr photo_bytes ->
         FS.read (fs w) video = inr video_bytes ->
         isdir (fs w) output = true ->
         isdir (fs w) out = false ->
         exists w',
           merge_files photo video output w = (Returned out, w')
           /\ getsize (dir_size E) (fs w') out
              = inr (Z.of_nat (length photo_bytes)
                     + Z.of_nat (length video_bytes))))
  /\ (forall convert_all w',
        convert E photo video output convert_all w = (Returned RetNone, w') ->
        exists o w2 size_photo size_output tags,
          endswith (lower photo) ".heic" = false
          /\ merge_files photo video output w = (Returned o, w2)
          /\ getsize (dir_size E) (fs w2) o = inr size_output
          /\ getsize (dir_size E) (fs w2) photo = inr size_photo
          /\ xmp_log w' = (xmp_log w ++ [XmpWrite o tags])%list
          /\ tags !! "Xmp.GCamera.MicroVideoOffset"
             = Some (XmpInt (size_output - size_photo))
          /\ (components o ≠ components photo ->
              components o ≠ components video ->
              getsize (dir_size E) (fs w) video
              = inr (size_output - size_photo))).
Proof.
  intros out. split.
  - intros Hp Hv. split.
    + intros o w' H.
      destruct (merge_files_sizes (dir_size E) _ _ _ _ _ _ Hp Hv H)
        as (p & v & _ & _ & Hsp & Hsv & Ho & Hso & Hsp' & Hsv').
      exists (Z.of_nat (length p)), (Z.of_nat (length v)). auto 10.
    + intros p v Hrp Hrv Hdir Hnodir.
      destruct (merge_files_runs_in_directory _ _ _ _ _ _ Hp Hv Hrp Hrv Hdir Hnodir)
        as [w' Hrun].
      exists w'. split; [exact Hrun|].
      destruct (merge_files_sizes (dir_size E) _ _ _ _ _ _ Hp Hv Hrun)
        as (p' & v' & Hrp' & Hrv' & _ & _ & _ & Hso & _).
      rewrite Hrp in Hrp'. inversion Hrp'; subst p'.
      rewrite Hrv in Hrv'. inversion Hrv'; subst v'. exact Hso.
  - intros convert_all w' H.
    assert (Hon : convert E photo video output true w = (Returned RetNone, w')).
    { destruct convert_all; [exact H|]. rewrite convert_gate in H.
      destruct (negb (exists_ (fs w) video)); [discriminate|].
      destruct (getsize (dir_size E) (fs w) video) as [e|size]; [discriminate|].
      destruct (10 * 1024 * 1024 <? size); [discriminate|exact H]. }
    clear H. unfold convert in Hon. simpl negb in Hon. cbv iota in Hon.
    rewrite (bind_run _ _ _ false w) in Hon by reflexivity. cbv iota in Hon.
    apply bind_returned in Hon as (photo' & w1 & Hheic & H).
    destruct (endswith (lower photo) ".heic") eqn:Hends.
    { exfalso. apply (heic_to_jpeg_not_returned _ _ _ _ _ Hheic). }
    apply ret_returned in Hheic as (-> & ->).
    apply bind_returned in H as (o & w2 & Hmerge & H).
    apply bind_returned in H as (size_photo & ? & Hsp & H).
    apply os_path_getsize_returned in Hsp as (Hsp & ->).
    apply bind_returned in H as (size_output & ? & Hso & H).
    apply os_path_getsize_returned in Hso as (Hso & ->).
    apply bind_returned in H as (u & w3 & Hxmp & H).
    apply ret_returned in H as (_ & ->). destruct u.
    apply add_xmp_metadata_returned in Hxmp
      as (_ & old & _ & _ & _ & _ & _ & Hlog & _).
    exists o, w2, size_photo, size_output. eexists.
    assert (Hlog2 : xmp_log w2 = xmp_log w).
    { apply merge_files_returned in Hmerge as (_ & ->). reflexivity. }
    split; [reflexivity|].
    split; [exact Hmerge|]. split; [exact Hso|]. split; [exact Hsp|].
    split; [rewrite Hlog, Hlog2; reflexivity|].
    split; [now rewrite !lookup_insert_ne, lookup_insert_eq by discriminate|].
    intros Hp Hv.
    pose proof (merge_files_returned _ _ _ _ _ _ Hmerge) as (Ho & _).
    rewrite Ho in Hp, Hv.
    destruct (merge_files_sizes (dir_size E) _ _ _ _ _ _ Hp Hv Hmerge)
      as (p & v & _ & _ & _ & Hsv & _ & Hso' & Hsp' & _).
    rewrite Hso in Hso'. inversion Hso'; subst size_output.
    rewrite Hsp in Hsp'. inversion Hsp'; subst size_photo.
    rewrite Hsv. f_equal. lia.
Qed.

(** C2 fails on the code, in the same case: merged into the directory of
    the photo, the photo is emptied before it is read and the output,
    which is the photo path, holds the bytes of the video alone.  For a
    photo that is not empty these bytes are not the photo bytes followed
    by the video bytes: the first [size(photo)] bytes are not the photo,
    or the rest is not the video. *)
Theorem merge_into_photo_directory_bytes photo video output w
    photo_bytes video_bytes :
  join output (basename photo) = photo ->
  isdir (fs w) output = true ->
  FS.read (fs w) photo = inr photo_bytes ->
  FS.read (fs w) video = inr video_bytes ->
  components video ≠ components photo ->
  photo_bytes ≠ [] ->
  exists w' output_bytes,
    merge_files photo video output w = (Returned photo, w')
    /\ FS.read (fs w') photo = inr output_bytes
    /\ output_bytes = video_bytes
    /\ output_bytes ≠ (photo_bytes ++ video_bytes)%list
    /\ ~ (firstn (length photo_bytes) output_bytes = photo_bytes
          /\ skipn (length photo_bytes) output_bytes = video_bytes).
Proof.
  intros Hout Hdir Hp Hv Hne Hnonempty.
  destruct (merge_files_onto_photo _ _ _ _ _ _ Hout Hdir Hp Hv Hne)
    as (w' & Hrun & Hp' & _ & _).
  assert (Hlen : (0 < length photo_bytes)%nat).
  { destruct photo_bytes; [congruence|]. simpl. lia. }
  exists w', video_bytes. split; [exact Hrun|]. split; [exact Hp'|].
  split; [reflexivity|]. split.
  - intros Heq. apply (f_equal (@length Byte.byte)) in Heq.
    rewrite List.length_app in Heq. lia.
  - intros [Hfirst Hrest].
    apply (f_equal (@length Byte.byte)) in Hfirst, Hrest.
    rewrite List.length_firstn in Hfirst. rewrite List.length_skipn in Hrest.
    lia.
Qed.

Lemma merge_into_photo_directory_bytes_witness :
  let w := start tree_pair [] in
  FS.read (fs w) "d/a.jpg" = inr jpeg_bytes
  /\ exists w',
       merge_files "d/a.jpg" "d/a.mov" "d" w = (Returned "d/a.jpg", w')
       /\ FS.read (fs w') "d/a.jpg" = inr Scenario.video_bytes.
Proof.
  intros w. split; [reflexivity|].
  assert (Hne : components "d/a.mov" ≠ components "d/a.jpg")
    by (vm_compute; discriminate).
  assert (Hnonempty : jpeg_bytes ≠ []) by discriminate.
  destruct (merge_into_photo_directory_bytes "d/a.jpg" "d/a.mov" "d" w
              jpeg_bytes Scenario.video_bytes
              eq_refl eq_refl eq_refl eq_refl Hne Hnonempty)
    as (w' & output_bytes & Hrun & Hread & -> & _).
  exists w'. split; [exact Hrun|exact Hread].
Defined.

(** Away from that case the bytes are the photo, then the video.  When
    the output path is neither the photo path nor the video path, a
    returning [merge_files] leaves an output that is the bytes of the
    photo followed at once by the bytes of the video, and the two inputs
    are unchanged.  [merge_files] does return when the inputs are regular
    files, the output directory exists and no directory has the output
    path. *)
Lemma merge_files_bytes photo video output w :
  let out := join output (basename photo) in
  components out ≠ components photo ->
  components out ≠ components video ->
  (forall o w',
     merge_files photo video output w = (Returned o, w') ->
     exists photo_bytes video_bytes output_bytes,
       FS.read (fs w) photo = inr photo_bytes
       /\ FS.read (fs w) video = inr video_bytes
       /\ o = out
       /\ FS.read (fs w') o = inr output_bytes
       /\ output_bytes = (photo_bytes ++ video_bytes)%list
       /\ firstn (length photo_bytes) output_bytes = photo_bytes
       /\ skipn (length photo_bytes) output_bytes = video_bytes
       /\ FS.read (fs w') photo = inr photo_bytes
       /\ FS.read (fs w') video = inr video_bytes)
  /\ (forall photo_bytes video_bytes,
        FS.read (fs w) photo = inr photo_bytes ->
        FS.read (fs w) video = inr video_bytes ->
        isdir (fs w) output = true ->
        isdir (fs w) out = false ->
        exists w',
          merge_files photo video output w = (Returned out, w')
          /\ FS.read (fs w') out = inr (photo_bytes ++ video_bytes)%list).
Proof.
  intros out Hp Hv.
  assert (Hbytes : forall o w',
             merge_files photo video output w = (Returned o, w') ->
             exists p v,
               FS.read (fs w) photo = inr p /\ FS.read (fs w) video = inr v
               /\ o = out /\ FS.read (fs w') o = inr (p ++ v)%list
               /\ FS.read (fs w') photo = inr p
               /\ FS.read (fs w') video = inr v).
  { intros o w' H.
    destruct (merge_files_distinct _ _ _ _ _ _ Hp Hv H)
      as (p & v & Hp0 & Hv0 & -> & Ho & Hp1 & Hv1 & _).
    exists p, v. repeat split; try (apply read_inr; assumption). }
  split.
  - intros o w' H.
    destruct (Hbytes o w' H) as (p & v & Hrp & Hrv & Ho & Hout & Hrp' & Hrv').
    exists p, v, (p ++ v)%list. repeat split; try assumption.
    + rewrite firstn_app, Nat.sub_diag, firstn_all. simpl. apply List.app_nil_r.
    + rewrite skipn_app, Nat.sub_diag, skipn_all. reflexivity.
  - intros p v Hrp Hrv Hdir Hnodir.
    destruct (merge_files_runs_in_directory _ _ _ _ _ _ Hp Hv Hrp Hrv Hdir Hnodir)
      as [w' Hrun].
    exists w'. split; [exact Hrun|].
    destruct (Hbytes _ _ Hrun) as (p' & v' & Hrp' & Hrv' & _ & Hout & _).
    rewrite Hrp in Hrp'. inversion Hrp'; subst p'.
    rewrite Hrv in Hrv'. inversion Hrv'; subst v'. exact Hout.
Qed.

(** *** ConversionPipeline *)

(** One turn of the loop of [main], by the answer of the validator. *)
Lemma convert_pairs_rejected E out_dir convert_all photo video pairs processed w :
  validate_media (fs w) photo video = false ->
  convert_pairs E out_dir convert_all ((photo, video) :: pairs) processed w
  = convert_pairs E out_dir convert_all pairs processed w.
Proof.
  intros H. simpl convert_pairs.
  rewrite (bind_run _ _ _ false w) by (unfold reads; now rewrite H).
  cbv iota. now rewrite (bind_run _ _ _ processed w).
Qed.

Lemma convert_pairs_validated E out_dir convert_all photo video pairs processed w :
  validate_media (fs w) photo video = true ->
  convert_pairs E out_dir convert_all ((photo, video) :: pairs) processed w
  = match convert E photo video out_dir convert_all w with
    | (Returned _, w1) =>
        convert_pairs E out_dir convert_all pairs
          (processed ∪ {[photo]} ∪ {[video]}) w1
    | (Raised e, w1) => (Raised e, w1)
    end.
Proof.
  intros H. simpl convert_pairs.
  rewrite (bind_run _ _ _ true w) by (unfold reads; now rewrite H).
  cbv iota. unfold bind at 1. unfold bind at 1.
  destruct (convert E photo video out_dir convert_all w) as [[r|e] w1];
    reflexivity.
Qed.

(** C5 fails on the code.  A pair whose photo path ends in [.heic] never
    passes [validate_media], which wants [.jpg] or [.jpeg]: the loop of
    [main] goes on to the next pair with the world and the processed set
    as they were, so no JPEG is produced and nothing is muxed. *)
Theorem heic_pair_not_converted E out_dir convert_all photo video pairs processed w :
  endswith (lower photo) ".heic" = true ->
  validate_media (fs w) photo video = false
  /\ convert_pairs E out_dir convert_all ((photo, video) :: pairs) processed w
     = convert_pairs E out_dir convert_all pairs processed w.
Proof.
  intros H.
  assert (Hv : validate_media (fs w) photo video = false).
  { unfold validate_media. rewrite (endswith_heic_not_jpeg _ H).
    destruct (exists_ (fs w) photo); [|reflexivity].
    destruct (exists_ (fs w) video); reflexivity. }
  split; [exact Hv|]. now apply convert_pairs_rejected.
Qed.

Lemma heic_pair_not_converted_witness :
  let w := start tree_heic ["d"; "out"; "yes"] in
  process_directory tree_heic "d" false = [("d/img2.heic", "d/img2.mp4")]
  /\ convert_pairs sample_env "out" true [("d/img2.heic", "d/img2.mp4")] ∅
       (start tree_heic [])
     = (Returned ∅, start tree_heic [])
  /\ main sample_env w = (Returned ∅, start tree_heic []).
Proof.
  intros w. split; [reflexivity|]. split.
  - rewrite (proj2 (heic_pair_not_converted sample_env "out" true
                      "d/img2.heic" "d/img2.mp4" [] ∅ (start tree_heic [])
                      eq_refl)).
    reflexivity.
  - vm_compute. reflexivity.
Defined.

(** C6 fails on the code.  [main] drops the value [convert] returns: a
    validated pair that the size gate skips is put in the processed set
    all the same, with the world as it was (nothing was muxed). *)
Theorem skipped_pair_is_recorded E out_dir photo video pairs processed w size :
  validate_media (fs w) photo video = true ->
  getsize (dir_size E) (fs w) video = inr size ->
  10 * 1024 * 1024 < size ->
  convert E photo video out_dir false w = (Returned RetFalse, w)
  /\ convert_pairs E out_dir false ((photo, video) :: pairs) processed w
     = convert_pairs E out_dir false pairs (processed ∪ {[photo]} ∪ {[video]}) w.
Proof.
  intros Hv Hsz Hgt.
  assert (Hskip : convert E photo video out_dir false w = (Returned RetFalse, w)).
  { rewrite convert_gate, (getsize_exists _ _ _ _ Hsz), Hsz. simpl negb. cbv iota.
    apply Z.ltb_lt in Hgt. now rewrite Hgt. }
  split; [exact Hskip|].
  rewrite (convert_pairs_validated _ _ _ _ _ _ _ _ Hv). now rewrite Hskip.
Qed.

Lemma skipped_pair_is_recorded_witness :
  let t := tree_video_of_size (10 * 1024 * 1024 + 1) in
  validate_media t "d/a.jpg" "d/a.mov" = true
  /\ getsize (dir_size sample_env) t "d/a.mov" = inr (10 * 1024 * 1024 + 1)
  /\ convert_pairs sample_env "out" false [("d/a.jpg", "d/a.mov")] ∅ (start t [])
     = (Returned (∅ ∪ {["d/a.jpg"]} ∪ {["d/a.mov"]}), start t [])
  /\ main sample_env (start t ["d"; "out"; "no"])
     = (Returned (∅ ∪ {["d/a.jpg"]} ∪ {["d/a.mov"]}), start t []).
Proof.
  intros t.
  assert (Hv : validate_media (fs (start t [])) "d/a.jpg" "d/a.mov" = true)
    by reflexivity.
  assert (Hsz : getsize (dir_size sample_env) (fs (start t [])) "d/a.mov"
                = inr (10 * 1024 * 1024 + 1)).
  { rewrite (getsize_file _ _ _ (bytes_of_size (10 * 1024 * 1024 + 1)))
      by reflexivity.
    rewrite length_bytes_of_size by lia. reflexivity. }
  assert (Hgt : 10 * 1024 * 1024 < 10 * 1024 * 1024 + 1) by lia.
  assert (Hloop : convert_pairs sample_env "out" false [("d/a.jpg", "d/a.mov")] ∅
                    (start t [])
                  = (Returned (∅ ∪ {["d/a.jpg"]} ∪ {["d/a.mov"]}), start t [])).
  { etransitivity.
    - exact (proj2 (skipped_pair_is_recorded sample_env "out" "d/a.jpg" "d/a.mov"
                      [] ∅ (start t []) (10 * 1024 * 1024 + 1) Hv Hsz Hgt)).
    - reflexivity. }
  split; [exact Hv|]. split; [exact Hsz|]. split; [exact Hloop|].
  unfold main.
  rewrite (bind_run _ _ _ "d" (start t ["out"; "no"])) by reflexivity.
  rewrite (bind_run _ _ _ "out" (start t ["no"])) by reflexivity.
  rewrite (bind_run _ _ _ false (start t [])) by reflexivity.
  rewrite (bind_run _ _ _ [("d/a.jpg", "d/a.mov")] (start t [])) by reflexivity.
  exact Hloop.
Defined.

(** C7 fails on the code.  [process_directory] never looks at its
    [recurse] argument and [os.walk] descends into every sub-directory:
    called as [main] calls it, with [recurse=False], it finds the pair in
    [d/sub], and [main] muxes that pair. *)
Theorem process_directory_ignores_recurse :
  (forall t file_dir recurse,
     process_directory t file_dir recurse
     = process_directory t file_dir (negb recurse))
  /\ process_directory tree_nested "d" false = [("d/sub/c.jpg", "d/sub/c.mov")]
  /\ fst (main sample_env (start tree_nested ["d"; "out"; "yes"]))
     = Returned (∅ ∪ {["d/sub/c.jpg"]} ∪ {["d/sub/c.mov"]})
  /\ FS.read (fs (snd (main sample_env (start tree_nested ["d"; "out"; "yes"]))))
       "out/c.jpg"
     = inr [Byte.xff; Byte.xd8; Byte.xff; Byte.xe1; Byte.x01; Byte.x02;
            Byte.x10; Byte.x11; Byte.x12].
Proof.
  split; [reflexivity|]. split; [reflexivity|]. split.
  - vm_compute. reflexivity.
  - vm_compute. reflexivity.
Qed.

(** C9, as stated, fails: nothing in [main] catches an exception.  In
    [tree_bad_first] exiv2 raises on the file merged from the first pair;
    the loop ends there and the second pair, which converts without error
    on its own, is never processed. *)
Lemma exception_ends_the_batch :
  ~ (forall E out_dir convert_all photo video pairs processed w e w1,
       validate_media (fs w) photo video = true ->
       convert E photo video out_dir convert_all w = (Raised e, w1) ->
       exists processed',
         convert_pairs E out_dir convert_all ((photo, video) :: pairs) processed w
         = convert_pairs E out_dir convert_all pairs processed' w1).
Proof.
  intros H.
  set (w := start tree_bad_first []).
  set (w1 := snd (convert sample_env "d/a.jpg" "d/a.mov" "out" true w)).
  assert (Hc1 : convert sample_env "d/a.jpg" "d/a.mov" "out" true w
                = (Raised Exiv2Error, w1)) by reflexivity.
  assert (Hv1 : validate_media (fs w) "d/a.jpg" "d/a.mov" = true) by reflexivity.
  assert (Hv2 : validate_media (fs w1) "d/b.jpg" "d/b.mov" = true)
    by (vm_compute; reflexivity).
  destruct (H sample_env "out" true "d/a.jpg" "d/a.mov" [("d/b.jpg", "d/b.mov")]
              ∅ w Exiv2Error w1 Hv1 Hc1)
    as [processed' Hrun].
  rewrite (convert_pairs_validated _ _ _ _ _ _ _ _ Hv1), Hc1 in Hrun.
  rewrite (convert_pairs_validated _ _ _ _ _ _ _ _ Hv2) in Hrun.
  destruct (convert sample_env "d/b.jpg" "d/b.mov" "out" true w1)
    as [[r2|e2] w2] eqn:Hc2.
  - discriminate Hrun.
  - apply (f_equal fst) in Hc2. vm_compute in Hc2. discriminate Hc2.
Qed.

(** C9, amended.  A pair the validator rejects and a pair the size gate
    skips do not stop the loop of [main]: it goes on with the remaining
    pairs.  An exception raised while a pair is converted is not caught:
    the loop ends with that exception and the remaining pairs are not
    processed.  [validate_directory] ends the run with exit status 1 when
    the path does not exist or is not a directory; [main] does not call
    it: [get_source_directory] reads the next line when a line does not
    name a directory. *)
Theorem pair_failures_and_exits E out_dir convert_all photo video pairs processed w :
  (validate_media (fs w) photo video = false ->
   convert_pairs E out_dir convert_all ((photo, video) :: pairs) processed w
   = convert_pairs E out_dir convert_all pairs processed w)
  /\ (validate_media (fs w) photo video = true ->
      forall w1,
        convert E photo video out_dir convert_all w = (Returned RetFalse, w1) ->
        convert_pairs E out_dir convert_all ((photo, video) :: pairs) processed w
        = convert_pairs E out_dir convert_all pairs
            (processed ∪ {[photo]} ∪ {[video]}) w1)
  /\ (validate_media (fs w) photo video = true ->
      forall e w1,
        convert E photo video out_dir convert_all w = (Raised e, w1) ->
        convert_pairs E out_dir convert_all ((photo, video) :: pairs) processed w
        = (Raised e, w1))
  /\ (forall dir,
        isdir (fs w) dir = false ->
        validate_directory dir w = (Raised (SystemExit 1), w))
  /\ (forall line lines,
        stdin w = line :: lines ->
        isdir (fs w) (strip line) = false ->
        get_source_directory w = get_source_directory (set_stdin lines w)).
Proof.
  split; [apply convert_pairs_rejected|].
  split.
  { intros Hv w1 Hc. rewrite (convert_pairs_validated _ _ _ _ _ _ _ _ Hv).
    now rewrite Hc. }
  split.
  { intros Hv e w1 Hc. rewrite (convert_pairs_validated _ _ _ _ _ _ _ _ Hv).
    now rewrite Hc. }
  split.
  - intros dir Hd. unfold validate_directory, os_path_exists, reads, bind.
    destruct (exists_ (fs w) dir); simpl; [|reflexivity].
    now rewrite Hd.
  - intros line lines Hin Hd. unfold get_source_directory.
    rewrite Hin. simpl. now rewrite Hd.
Qed.

Lemma pair_failures_and_exits_witness :
  let w := start tree_bad_first [] in
  let r := convert_pairs sample_env "out" true
             [("d/a.jpg", "d/a.mov"); ("d/b.jpg", "d/b.mov")] ∅ w in
  validate_media (fs w) "d/a.jpg" "d/a.mov" = true
  /\ fst r = Raised Exiv2Error
  /\ exists_ (fs (snd r)) "out/b.jpg" = false
  /\ validate_directory "missing" w = (Raised (SystemExit 1), w).
Proof.
  intros w r.
  assert (Hv : validate_media (fs w) "d/a.jpg" "d/a.mov" = true) by reflexivity.
  pose proof (pair_failures_and_exits sample_env "out" true "d/a.jpg" "d/a.mov"
                [("d/b.jpg", "d/b.mov")] ∅ w) as (_ & _ & Hraise & Hexit & _).
  specialize (Hraise Hv Exiv2Error
                (snd (convert sample_env "d/a.jpg" "d/a.mov" "out" true w)) eq_refl).
  split; [exact Hv|]. unfold r. rewrite Hraise.
  split; [reflexivity|]. split; [reflexivity|].
  apply Hexit. reflexivity.
Defined.

(** *** The HEIC step *)

(** The HEIC step once the photo is read and decoded and the JPEG path is
    opened: [TypeError], after the removal of the file if the step
    created it. *)
Lemma heic_to_jpeg_raises E photo w data img meta t1 :
  let jpeg_path := fst (splitext photo) ++ ".jpg" in
  FS.read (fs w) photo = inr data ->
  pyheif_read E data = Some (img, meta) ->
  FS.write (fs w) jpeg_path [] = inr t1 ->
  heic_to_jpeg E photo w
  = if exists_ (fs w) jpeg_path then (Raised TypeError, set_fs t1 w)
    else match remove t1 jpeg_path with
         | inr t2 => (Raised TypeError, set_fs t2 w)
         | inl e => (Raised (OSError e), set_fs t1 w)
         end.
Proof.
  intros jpeg_path Hread Himg Ht1.
  unfold heic_to_jpeg. fold jpeg_path.
  rewrite (bind_run _ _ _ tt w) by (unfold open_rb; now rewrite Hread).
  rewrite (bind_run _ _ _ data w) by (unfold file_read; now rewrite Hread).
  rewrite (bind_run _ _ _ (img, meta) w) by (now rewrite Himg).
  unfold bind at 1. unfold image_save. cbn [fst snd].
  rewrite (bind_run _ _ _ (negb (exists_ (fs w) jpeg_path)) w) by reflexivity.
  rewrite (bind_run _ _ _ tt (set_fs t1 w)) by (unfold open_wb; now rewrite Ht1).
  destruct (exists_ (fs w) jpeg_path); simpl negb; cbv iota.
  - reflexivity.
  - unfold bind, os_remove. cbn [fs set_fs].
    destruct (remove t1 jpeg_path) as [e|t2]; reflexivity.
Qed.

(** C10 fails on the code.  For a photo whose extension, in any letter
    case, is [.heic], [convert] takes the HEIC branch, and the path it
    means to save the JPEG at is the photo path with the extension
    replaced by [.jpg]: a path in the directory of the photo, whatever
    the output directory is.  But [image.save] is given
    [heif_file.metadata], [None] or a list, as [exif], where PIL takes
    bytes: the step never returns, so no JPEG is produced.  Once the
    photo is read and decoded, [save] opens the JPEG path for writing and
    raises [TypeError]: a file that was at that path is left empty, a
    path that held nothing holds nothing again, every other path is as it
    was, and [convert] ends with the exception of the step before it
    merges anything. *)
Theorem heic_step_raises_type_error E photo stem ext w :
  splitext photo = (stem, ext) ->
  lower ext = ".heic" ->
  let jpeg_path := stem ++ ".jpg" in
  photo = stem ++ ext
  /\ endswith (lower photo) ".heic" = true
  /\ dirname jpeg_path = dirname photo
  /\ (forall j w1, heic_to_jpeg E photo w ≠ (Returned j, w1))
  /\ (forall data img meta old,
        FS.read (fs w) photo = inr data ->
        pyheif_read E data = Some (img, meta) ->
        FS.read (fs w) jpeg_path = inr old ->
        exists w1,
          heic_to_jpeg E photo w = (Raised TypeError, w1)
          /\ FS.read (fs w1) jpeg_path = inr []
          /\ (forall q,
                components q ≠ components jpeg_path ->
                FS.read (fs w1) q = FS.read (fs w) q))
  /\ (forall data img meta,
        FS.read (fs w) photo = inr data ->
        pyheif_read E data = Some (img, meta) ->
        exists_ (fs w) jpeg_path = false ->
        exists w1,
          heic_to_jpeg E photo w = (Raised TypeError, w1)
          /\ exists_ (fs w1) jpeg_path = false
          /\ (forall q, FS.read (fs w1) q = FS.read (fs w) q))
  /\ (forall video output,
        exists e w1,
          heic_to_jpeg E photo w = (Raised e, w1)
          /\ convert E photo video output true w = (Raised e, w1)).
Proof.
  intros Hsplit Hext jpeg_path.
  destruct (splitext_app _ _ _ Hsplit) as [Hphoto Hnosep].
  assert (Hends : endswith (lower photo) ".heic" = true).
  { rewrite Hphoto, lower_app, Hext. apply endswith_app. }
  assert (Hstem : fst (splitext photo) = stem) by now rewrite Hsplit.
  split; [exact Hphoto|]. split; [exact Hends|]. split.
  { rewrite Hphoto. now apply dirname_app_nosep. }
  split; [intros j w1; apply heic_to_jpeg_not_returned|].
  split.
  { intros data img meta old Hr Hi Ho.
    pose proof (proj1 (read_inr _ _ _) Ho) as Hfile.
    destruct (write_existing _ _ _ [] Hfile) as [t1 Ht1].
    assert (Hex : exists_ (fs w) jpeg_path = true).
    { unfold exists_. unfold FS.read in Ho.
      destruct (resolve (fs w) jpeg_path) as [[d|es]|]; congruence. }
    exists (set_fs t1 w). split.
    - unfold jpeg_path in Ht1, Hex. rewrite <- Hstem in Ht1, Hex.
      rewrite (heic_to_jpeg_raises E photo w data img meta t1 Hr Hi Ht1).
      now rewrite Hex.
    - cbn [fs set_fs]. split.
      + apply read_inr. apply (write_resolve_eq _ _ _ _ Ht1).
      + intros q Hq. apply (read_write_ne _ _ _ _ _ Ht1 Hq). }
  split.
  { intros data img meta Hr Hi Hex.
    assert (Hne : ext ≠ "") by (intros ->; discriminate Hext).
    assert (Hd : isdir (fs w) (stem ++ ".jpg") = false).
    { fold jpeg_path. unfold isdir. unfold exists_ in Hex.
      destruct (resolve (fs w) jpeg_path) as [[d|es]|]; congruence. }
    rewrite Hphoto in Hr.
    destruct (write_sibling (fs w) stem ext ".jpg" data [] Hnosep Hne
                eq_refl ltac:(discriminate) Hr Hd) as [t1 Ht1].
    rewrite <- Hphoto in Hr. fold jpeg_path in Ht1.
    assert (Hfile1 : FS.read t1 jpeg_path = inr []).
    { apply read_inr. apply (write_resolve_eq _ _ _ _ Ht1). }
    assert (Hcomp : components jpeg_path ≠ []).
    { unfold jpeg_path.
      rewrite (components_app_nosep stem ".jpg" eq_refl ltac:(discriminate)).
      intros Hnil. apply (f_equal (@length string)) in Hnil.
      rewrite List.length_app in Hnil. simpl in Hnil. lia. }
    pose proof (remove_spec t1 jpeg_path) as Hrm.
    destruct (remove t1 jpeg_path) as [e|t2] eqn:Hremove.
    { exfalso. destruct Hrm as [Hnf|Hnil]; [|contradiction].
      assert (Ht : isfile t1 jpeg_path = true) by (apply isfile_read; eauto).
      congruence. }
    destruct Hrm as (_ & Hgone & Hother).
    assert (Hnone : resolve (fs w) jpeg_path = None).
    { unfold exists_ in Hex.
      destruct (resolve (fs w) jpeg_path); [discriminate|reflexivity]. }
    exists (set_fs t2 w). split.
    - unfold jpeg_path in Ht1, Hex, Hremove.
      rewrite <- Hstem in Ht1, Hex, Hremove.
      rewrite (heic_to_jpeg_raises E photo w data img meta t1 Hr Hi Ht1).
      now rewrite Hex, Hremove.
    - cbn [fs set_fs]. split.
      + unfold exists_. pose proof (Hgone jpeg_path eq_refl) as Hg.
        unfold FS.read in Hg.
        destruct (resolve t2 jpeg_path) as [[d|es]|];
          [discriminate|discriminate|reflexivity].
      + intros q.
        destruct (decide (components q = components jpeg_path)) as [Heq|Hq].
        * rewrite (Hgone q Heq). symmetry. unfold FS.read, resolve.
          destruct (String.eqb q ""); [reflexivity|].
          rewrite Heq. unfold resolve in Hnone.
          pose proof (eqb_app_empty stem ".jpg" ltac:(discriminate)) as Hjne.
          fold jpeg_path in Hjne. rewrite Hjne in Hnone. now rewrite Hnone.
        * rewrite (Hother q Hq). apply (read_write_ne _ _ _ _ _ Ht1 Hq). }
  intros video output.
  destruct (heic_to_jpeg E photo w) as [[j|e] w1] eqn:Hh.
  { exfalso. apply (heic_to_jpeg_not_returned _ _ _ _ _ Hh). }
  exists e, w1. split; [reflexivity|].
  unfold convert. simpl negb. cbv iota.
  rewrite (bind_run _ _ _ false w) by reflexivity. cbv iota.
  rewrite Hends. unfold bind at 1. now rewrite Hh.
Qed.

Lemma heic_step_raises_type_error_witness :
  let w := start tree_heic_and_jpg [] in
  let r := heic_to_jpeg sample_env "d/img2.heic" w in
  FS.read (fs w) "d/img2.jpg" = inr [Byte.x07]
  /\ fst r = Raised TypeError
  /\ FS.read (fs (snd r)) "d/img2.jpg" = inr []
  /\ FS.read (fs (snd r)) "d/img2.heic" = inr heic_bytes
  /\ heic_to_jpeg sample_env "d/img2.heic" (start tree_heic [])
     = (Raised TypeError, start tree_heic [])
  /\ fst (convert sample_env "d/img2.heic" "d/img2.mp4" "out" true w)
     = Raised TypeError.
Proof.
  intros w r.
  pose proof (heic_step_raises_type_error sample_env "d/img2.heic" "d/img2"
                ".heic" w eq_refl eq_refl)
    as (_ & _ & _ & _ & Hover & _ & _).
  destruct (Hover heic_bytes heic_bytes None [Byte.x07] eq_refl eq_refl eq_refl)
    as (w1 & Hrun & Hempty & Hother).
  split; [reflexivity|]. unfold r. rewrite Hrun.
  split; [reflexivity|]. split; [exact Hempty|].
  split; [rewrite Hother; [reflexivity|vm_compute; discriminate]|].
  split; vm_compute; reflexivity.
Defined.

(* ===================================================================== *)
(** ** Further properties of the program *)
(* ===================================================================== *)

Import Housekeeping.

(** *** The prompts *)

Lemma prompt_directory_spec t lines :
  match prompt_directory t lines with
  | (Returned dir, rest) =>
      exists skipped line,
        lines = (skipped ++ line :: rest)%list
        /\ dir = strip line
        /\ isdir t dir = true
        /\ Forall (fun l => isdir t (strip l) = false) skipped
  | (Raised e, rest) =>
      e = EOFError /\ rest = []
      /\ Forall (fun l => isdir t (strip l) = false) lines
  end.
Proof.
  induction lines as [|l lines IH]; simpl.
  - auto.
  - destruct (isdir t (strip l)) eqn:Hd; simpl.
    + exists [], l. auto.
    + destruct (prompt_directory t lines) as [[dir|e] rest].
      * destruct IH as (skipped & line & -> & -> & Hdir & Hsk).
        exists (l :: skipped), line. auto.
      * destruct IH as (-> & -> & Hall). auto.
Qed.

(** X1. [get_source_directory] and [get_destination_directory] read lines
    until one, stripped of surrounding white space, names a directory:
    the value is that stripped line, it is a directory (so
    [validate_directory] accepts it), the lines read over do not name
    directories, and the file system is not touched.  They raise
    [EOFError], with the input used up, exactly when no line names a
    directory. *)
Theorem get_directory_reads_to_first_directory w :
  match get_source_directory w with
  | (Returned dir, w') =>
      (exists skipped line,
         stdin w = (skipped ++ line :: stdin w')%list
         /\ dir = strip line
         /\ Forall (fun l => isdir (fs w) (strip l) = false) skipped)
      /\ isdir (fs w) dir = true
      /\ validate_directory dir w' = (Returned tt, w')
      /\ w' = set_stdin (stdin w') w
  | (Raised e, w') =>
      e = EOFError
      /\ Forall (fun l => isdir (fs w) (strip l) = false) (stdin w)
      /\ w' = set_stdin [] w
  end
  /\ get_destination_directory w = get_source_directory w.
Proof.
  split; [|reflexivity].
  unfold get_source_directory.
  pose proof (prompt_directory_spec (fs w) (stdin w)) as H.
  destruct (prompt_directory (fs w) (stdin w)) as [[dir|e] rest].
  - destruct H as (skipped & line & Hl & -> & Hdir & Hsk).
    split; [exists skipped, line; auto|]. split; [exact Hdir|].
    split; [|reflexivity].
    unfold validate_directory, os_path_exists, reads, bind. simpl.
    unfold isdir in Hdir. unfold exists_.
    destruct (resolve (fs w) (strip line)) as [[d|es]|] eqn:Hr; try discriminate.
    simpl. unfold isdir. now rewrite Hr.
  - destruct H as (-> & -> & Hall). auto.
Qed.

Lemma prompt_yes_no_spec lines :
  match prompt_yes_no lines with
  | (Returned answer, rest) =>
      exists skipped line,
        lines = (skipped ++ line :: rest)%list
        /\ lower (strip line) = (if answer then "yes" else "no")
        /\ Forall (fun l => lower (strip l) ≠ "yes" /\ lower (strip l) ≠ "no")
             skipped
  | (Raised e, rest) =>
      e = EOFError /\ rest = []
      /\ Forall (fun l => lower (strip l) ≠ "yes" /\ lower (strip l) ≠ "no") lines
  end.
Proof.
  induction lines as [|l lines IH]; simpl.
  - auto.
  - destruct (String.eqb (lower (strip l)) "yes") eqn:Hy; simpl.
    + apply String.eqb_eq in Hy. exists [], l. auto.
    + destruct (String.eqb (lower (strip l)) "no") eqn:Hn; simpl.
      * apply String.eqb_eq in Hn. exists [], l. auto.
      * apply String.eqb_neq in Hy, Hn.
        destruct (prompt_yes_no lines) as [[answer|e] rest].
        -- destruct IH as (skipped & line & -> & Ha & Hsk).
           exists (l :: skipped), line. auto.
        -- destruct IH as (-> & -> & Hall). auto.
Qed.

(** X2. The yes/no questions ([ask_convert_all], [ask_copy_all],
    [ask_delete_converted_files]) read lines until one is [yes] or [no]
    once stripped and lowered; the answer is [True] exactly for [yes];
    every other line is read over; [EOFError] is raised, with the input
    used up, exactly when no line is [yes] or [no]. *)
Theorem ask_reads_to_first_yes_or_no w :
  match ask_convert_all w with
  | (Returned answer, w') =>
      (exists skipped line,
         stdin w = (skipped ++ line :: stdin w')%list
         /\ lower (strip line) = (if answer then "yes" else "no")
         /\ Forall (fun l => lower (strip l) ≠ "yes" /\ lower (strip l) ≠ "no")
              skipped)
      /\ w' = set_stdin (stdin w') w
  | (Raised e, w') =>
      e = EOFError
      /\ Forall (fun l => lower (strip l) ≠ "yes" /\ lower (strip l) ≠ "no")
           (stdin w)
      /\ w' = set_stdin [] w
  end
  /\ ask_copy_all w = ask_convert_all w
  /\ ask_delete_converted_files w = ask_convert_all w.
Proof.
  split; [|split; reflexivity].
  unfold ask_convert_all.
  pose proof (prompt_yes_no_spec (stdin w)) as H.
  destruct (prompt_yes_no (stdin w)) as [[answer|e] rest].
  - destruct H as (skipped & line & Hl & Ha & Hsk).
    split; [exists skipped, line; auto|reflexivity].
  - destruct H as (-> & -> & Hall). auto.
Qed.

(** *** Failures of the metadata step *)

Lemma metadata_read_cases E file w :
  metadata_read E file w
  = match FS.read (fs w) file with
    | inl err => (Raised (OSError err), w)
    | inr data =>
        match exiv2_read E data with
        | Some old => (Returned old, w)
        | None => (Raised Exiv2Error, w)
        end
    end.
Proof.
  unfold metadata_read, bind, file_read, lift_os.
  destruct (FS.read (fs w) file) as [err|data]; [reflexivity|]. simpl.
  destruct (exiv2_read E data); reflexivity.
Qed.

Lemma metadata_write_cases E file tags w :
  metadata_write E file tags w
  = match FS.read (fs w) file with
    | inl err => (Raised (OSError err), w)
    | inr data =>
        match exiv2_write E data tags with
        | None => (Raised Exiv2Error, w)
        | Some data' =>
            match FS.write (fs w) file data' with
            | inr t => (Returned tt, add_xmp_log (XmpWrite file tags) (set_fs t w))
            | inl err => (Raised (OSError err), w)
            end
        end
    end.
Proof.
  unfold metadata_write, bind, file_read, lift_os.
  destruct (FS.read (fs w) file) as [err|data]; [reflexivity|]. simpl.
  destruct (exiv2_write E data tags); reflexivity.
Qed.

(** The file system a failing [add_xmp_metadata] leaves is the one it
    found. *)
Lemma add_xmp_metadata_raised_fs E merged_file offset w e w' :
  add_xmp_metadata E merged_file offset w = (Raised e, w') -> fs w' = fs w.
Proof.
  unfold add_xmp_metadata. unfold bind at 1. rewrite metadata_read_cases.
  destruct (FS.read (fs w) merged_file) as [err|data] eqn:Hread;
    [now inversion 1|].
  destruct (exiv2_read E data) as [old|]; [|now inversion 1].
  unfold bind at 1.
  destruct (register_gcamera "http://ns.google.com/photos/1.0/camera/" w)
    as (w1 & -> & Hfs & _).
  rewrite metadata_write_cases, Hfs, Hread.
  match goal with
  | |- context [exiv2_write E data ?tags] =>
      destruct (exiv2_write E data tags) as [data'|]
  end; [|inversion 1; subst; exact Hfs].
  destruct (FS.write (fs w) merged_file data');
    inversion 1; subst; exact Hfs.
Qed.

(** X3. A failing [add_xmp_metadata] leaves the file system and the log
    of metadata writes as they were: no partial write.  It fails with the
    error of opening the file, or with the error of exiv2 when exiv2
    cannot read the file or cannot write the tags; the [KeyError] of a
    prefix that is registered already never reaches the caller. *)
Theorem add_xmp_metadata_failure E merged_file offset w e w' :
  add_xmp_metadata E merged_file offset w = (Raised e, w') ->
  fs w' = fs w
  /\ xmp_log w' = xmp_log w
  /\ ((exists err, FS.read (fs w) merged_file = inl err /\ e = OSError err)
      \/ (exists data,
            FS.read (fs w) merged_file = inr data
            /\ e = Exiv2Error
            /\ (exiv2_read E data = None
                \/ exists tags, exiv2_write E data tags = None))).
Proof.
  unfold add_xmp_metadata. unfold bind at 1. rewrite metadata_read_cases.
  destruct (FS.read (fs w) merged_file) as [err|data] eqn:Hread.
  { inversion 1; subst. eauto 10. }
  destruct (exiv2_read E data) as [old|] eqn:Hold.
  2:{ inversion 1; subst. eauto 10. }
  unfold bind at 1.
  destruct (register_gcamera "http://ns.google.com/photos/1.0/camera/" w)
    as (w1 & -> & Hfs & Hlog & _).
  rewrite metadata_write_cases, Hfs, Hread.
  match goal with
  | |- context [exiv2_write E data ?tags] =>
      destruct (exiv2_write E data tags) as [data'|] eqn:Hwr
  end.
  - destruct (write_existing (fs w) merged_file data data') as [t Ht].
    { now apply read_inr. }
    rewrite Ht. discriminate.
  - inversion 1; subst. eauto 10.
Qed.

Lemma add_xmp_metadata_failure_witness :
  let w := start tree_bad_first [] in
  add_xmp_metadata sample_env "d/a.jpg" 0 w = (Raised Exiv2Error, w)
  /\ fs w = fs w.
Proof.
  intros w. split; [reflexivity|].
  exact (proj1 (add_xmp_metadata_failure sample_env "d/a.jpg" 0 w Exiv2Error w
                  eq_refl)).
Defined.

(** *** Failures of the merge *)

(** X4. [merge_files] opens (and empties) the output before it opens its
    inputs.  In an existing output directory, with an output path that is
    neither input: when the photo cannot be opened, or the photo can and
    the video cannot, [merge_files] raises the error of that [open] and
    leaves an empty file at the output path, whatever was there before;
    the inputs are as they were. *)
Theorem merge_files_failure_leaves_empty_output photo video output w :
  let out := join output (basename photo) in
  components out ≠ components photo ->
  components out ≠ components video ->
  isdir (fs w) output = true ->
  isdir (fs w) out = false ->
  (forall err,
     FS.read (fs w) photo = inl err ->
     exists w',
       merge_files photo video output w = (Raised (OSError err), w')
       /\ FS.read (fs w') out = inr []
       /\ FS.read (fs w') photo = inl err
       /\ FS.read (fs w') video = FS.read (fs w) video)
  /\ (forall photo_bytes err,
        FS.read (fs w) photo = inr photo_bytes ->
        FS.read (fs w) video = inl err ->
        exists w',
          merge_files photo video output w = (Raised (OSError err), w')
          /\ FS.read (fs w') out = inr []
          /\ FS.read (fs w') photo = inr photo_bytes
          /\ FS.read (fs w') video = inl err).
Proof.
  intros out Hp Hv Hdir Hout.
  destruct (open_output_in_directory (fs w) output (basename photo)
              (basename_nosep photo) Hdir Hout) as (Hmk & t1 & Hw1).
  fold out in Hmk, Hw1.
  assert (Hp' : components photo ≠ components out) by congruence.
  assert (Hv' : components video ≠ components out) by congruence.
  pose proof (read_write_ne _ _ _ _ _ Hw1 Hp') as Hrp.
  pose proof (read_write_ne _ _ _ _ _ Hw1 Hv') as Hrv.
  assert (Hro : FS.read t1 out = inr []).
  { apply read_inr. apply (write_resolve_eq _ _ _ _ Hw1). }
  assert (Hstart : forall k : unit -> M string,
             bind (os_makedirs (dirname out))
               (fun _ => bind (open_wb out) k) w = k tt (set_fs t1 w)).
  { intros k.
    rewrite (bind_run _ _ _ tt (set_fs (fs w) w))
      by (unfold os_makedirs; now rewrite Hmk).
    rewrite (bind_run _ _ _ tt (set_fs t1 w)); [reflexivity|].
    unfold open_wb. simpl fs. now rewrite Hw1. }
  split.
  - intros err He. exists (set_fs t1 w). unfold merge_files. fold out.
    rewrite Hstart. simpl. split.
    + unfold bind, open_rb. simpl fs. rewrite Hrp, He. reflexivity.
    + rewrite Hro, Hrp, Hrv. auto.
  - intros p err Hep Hev. exists (set_fs t1 w). unfold merge_files. fold out.
    rewrite Hstart. simpl. split.
    + rewrite (bind_run _ _ _ tt (set_fs t1 w))
        by (unfold open_rb; simpl fs; now rewrite Hrp, Hep).
      unfold bind, open_rb. simpl fs. rewrite Hrv, Hev. reflexivity.
    + rewrite Hro, Hrp, Hrv. auto.
Qed.

Lemma merge_files_failure_leaves_empty_output_witness :
  let w := start tree_heic_and_jpg [] in
  let r := merge_files "d/img2.jpg" "d/img2.mov" "out" w in
  FS.read (fs w) "d/img2.mov" = inl ENOENT
  /\ fst r = Raised (OSError ENOENT)
  /\ FS.read (fs (snd r)) "out/img2.jpg" = inr [].
Proof.
  intros w r.
  assert (Hp : components (join "out" (basename "d/img2.jpg"))
               ≠ components "d/img2.jpg") by (vm_compute; discriminate).
  assert (Hv : components (join "out" (basename "d/img2.jpg"))
               ≠ components "d/img2.mov") by (vm_compute; discriminate).
  destruct (proj2 (merge_files_failure_leaves_empty_output
                     "d/img2.jpg" "d/img2.mov" "out" w Hp Hv eq_refl eq_refl)
              [Byte.x07] ENOENT eq_refl eq_refl)
    as (w' & Hrun & Hout & _).
  split; [reflexivity|]. unfold r. rewrite Hrun. split; [reflexivity|exact Hout].
Defined.

(** *** A whole conversion *)

Lemma convert_returned_none_on E photo video output convert_all w w' :
  convert E photo video output convert_all w = (Returned RetNone, w') ->
  convert E photo video output true w = (Returned RetNone, w').
Proof.
  intros H. destruct convert_all; [exact H|]. rewrite convert_gate in H.
  destruct (negb (exists_ (fs w) video)); [discriminate|].
  destruct (getsize (dir_size E) (fs w) video) as [e|size]; [discriminate|].
  destruct (10 * 1024 * 1024 <? size); [discriminate|exact H].
Qed.

(** Past the gate, for a photo that is not HEIC, [convert] is the merge,
    the two sizes and the metadata step. *)
Lemma convert_jpeg_on E photo video output w :
  endswith (lower photo) ".heic" = false ->
  convert E photo video output true w
  = bind (merge_files photo video output)
      (fun merged =>
         bind (os_path_getsize E photo)
           (fun photo_filesize =>
              bind (os_path_getsize E merged)
                (fun merged_filesize =>
                   bind (add_xmp_metadata E merged (merged_filesize - photo_filesize))
                     (fun _ => ret RetNone)))) w.
Proof.
  intros Hh. unfold convert. simpl negb. cbv iota.
  rewrite (bind_run _ _ _ false w) by reflexivity. cbv iota.
  rewrite Hh. reflexivity.
Qed.

(** The file system a returning [add_xmp_metadata] leaves: the one it
    found, with the file rewritten by exiv2. *)
Lemma add_xmp_metadata_returned_fs E merged_file offset w u w' :
  add_xmp_metadata E merged_file offset w = (Returned u, w') ->
  exists data data',
    FS.read (fs w) merged_file = inr data
    /\ FS.write (fs w) merged_file data' = inr (fs w')
    /\ FS.read (fs w') merged_file = inr data'.
Proof.
  intros H. unfold add_xmp_metadata in H.
  apply bind_returned in H as (old & w1 & Hrd & H).
  apply metadata_read_returned in Hrd as (data & Hread & Hold & ->).
  apply bind_returned in H as (u' & w2 & Hreg & H).
  destruct (register_gcamera "http://ns.google.com/photos/1.0/camera/" w)
    as (w2' & Hreg' & Hfs & Hlog & _ & Hns).
  rewrite Hreg' in Hreg. inversion Hreg; subst w2'. clear Hreg.
  apply metadata_write_returned in H as (data2 & data' & t & Hread2 & Hwr & Hst & ->).
  exists data, data'. simpl. rewrite Hfs in Hst.
  split; [exact Hread|]. split; [exact Hst|].
  apply read_inr. apply (write_resolve_eq _ _ _ _ Hst).
Qed.

(** X5. A conversion from end to end, for a photo that is not HEIC and an
    output path that is neither input.  When [convert] returns [None],
    the output file is what exiv2 makes of the photo bytes followed by
    the video bytes when it writes the tags it read from them with the
    four GCamera tags set, the offset being the size of the video; this
    write is the one entry added to the log; photo and video are as they
    were.  [convert] does return [None] when the inputs are regular
    files, the output directory exists, no directory has the output
    path, the gate lets the video pass and exiv2 reads and writes the
    merged bytes. *)
Theorem convert_jpeg_end_to_end E photo video output convert_all w :
  let out := join output (basename photo) in
  let tags_of (old : gmap string xmp_value) (offset : Z) :=
    <["Xmp.GCamera.MicroVideoPresentationTimestampUs" := XmpInt 1500000]>
      (<["Xmp.GCamera.MicroVideoOffset" := XmpInt offset]>
         (<["Xmp.GCamera.MicroVideoVersion" := XmpInt 1]>
            (<["Xmp.GCamera.MicroVideo" := XmpInt 1]> old))) in
  endswith (lower photo) ".heic" = false ->
  components out ≠ components photo ->
  components out ≠ components video ->
  (forall w',
     convert E photo video output convert_all w = (Returned RetNone, w') ->
     exists photo_bytes video_bytes old data',
       FS.read (fs w) photo = inr photo_bytes
       /\ FS.read (fs w) video = inr video_bytes
       /\ exiv2_read E (photo_bytes ++ video_bytes)%list = Some old
       /\ exiv2_write E (photo_bytes ++ video_bytes)%list
            (tags_of old (Z.of_nat (length video_bytes))) = Some data'
       /\ FS.read (fs w') out = inr data'
       /\ FS.read (fs w') photo = inr photo_bytes
       /\ FS.read (fs w') video = inr video_bytes
       /\ xmp_log w'
          = (xmp_log w
             ++ [XmpWrite out (tags_of old (Z.of_nat (length video_bytes)))])%list)
  /\ (forall photo_bytes video_bytes old,
        FS.read (fs w) photo = inr photo_bytes ->
        FS.read (fs w) video = inr video_bytes ->
        isdir (fs w) output = true ->
        isdir (fs w) out = false ->
        convert_all = true \/ Z.of_nat (length video_bytes) <= 10 * 1024 * 1024 ->
        exiv2_read E (photo_bytes ++ video_bytes)%list = Some old ->
        (forall tags,
           is_Some (exiv2_write E (photo_bytes ++ video_bytes)%list tags)) ->
        exists w',
          convert E photo video output convert_all w = (Returned RetNone, w')).
Proof.
  intros out tags_of Hh Hp Hv.
  assert (Hp' : components photo ≠ components out) by congruence.
  assert (Hv' : components video ≠ components out) by congruence.
  split.
  - intros w' H. apply convert_returned_none_on in H.
    rewrite (convert_jpeg_on _ _ _ _ _ Hh) in H.
    apply bind_returned in H as (o & w2 & Hmerge & H).
    apply bind_returned in H as (size_photo & ? & Hsp & H).
    apply os_path_getsize_returned in Hsp as (Hsp & ->).
    apply bind_returned in H as (size_output & ? & Hso & H).
    apply os_path_getsize_returned in Hso as (Hso & ->).
    apply bind_returned in H as (u & w3 & Hxmp & H).
    apply ret_returned in H as (_ & ->).
    destruct (merge_files_distinct _ _ _ _ _ _ Hp Hv Hmerge)
      as (p & v & Hp0 & Hv0 & -> & Ho & Hp1 & Hv1 & Hw2).
    fold out in Ho, Hso, Hxmp.
    rewrite (getsize_file _ _ _ _ Hp1) in Hsp. inversion Hsp; subst size_photo.
    rewrite (getsize_file _ _ _ _ Ho) in Hso. inversion Hso; subst size_output.
    replace (Z.of_nat (length (p ++ v)%list) - Z.of_nat (length p))
      with (Z.of_nat (length v)) in Hxmp
      by (rewrite List.length_app; lia).
    pose proof (add_xmp_metadata_returned_fs _ _ _ _ _ _ Hxmp)
      as (data0 & data1 & _ & Hwfs & _).
    apply add_xmp_metadata_returned in Hxmp
      as (data & old & data' & Hread & Hold & Hwr & Hread' & Hlog & _).
    apply read_inr in Hread. rewrite Ho in Hread. inversion Hread; subst data.
    exists p, v, old, data'.
    split; [now apply read_inr|]. split; [now apply read_inr|].
    split; [exact Hold|]. split; [exact Hwr|]. split; [exact Hread'|].
    split; [|split].
    + rewrite (read_write_ne _ _ _ _ _ Hwfs Hp'). now apply read_inr.
    + rewrite (read_write_ne _ _ _ _ _ Hwfs Hv'). now apply read_inr.
    + rewrite Hlog. f_equal. rewrite Hw2. reflexivity.
  - intros p v old Hrp Hrv Hdir Hnodir Hgate Hold Hwr.
    assert (Hon : convert E photo video output convert_all w
                  = convert E photo video output true w).
    { destruct convert_all; [reflexivity|]. rewrite convert_gate.
      apply read_inr in Hrv.
      rewrite (getsize_file _ _ _ _ Hrv).
      assert (Hex : exists_ (fs w) video = true).
      { unfold exists_. destruct (resolve (fs w) video); [reflexivity|discriminate]. }
      rewrite Hex. simpl negb. cbv iota.
      destruct Hgate as [Hc|Hle]; [discriminate|].
      apply Z.ltb_ge in Hle. now rewrite Hle. }
    rewrite Hon, (convert_jpeg_on _ _ _ _ _ Hh).
    destruct (merge_files_runs_in_directory _ _ _ _ _ _ Hp Hv Hrp Hrv Hdir Hnodir)
      as [w2 Hmerge].
    destruct (merge_files_distinct _ _ _ _ _ _ Hp Hv Hmerge)
      as (p' & v' & Hp0 & Hv0 & _ & Ho & Hp1 & Hv1 & _).
    apply read_inr in Hrp, Hrv.
    rewrite Hrp in Hp0. inversion Hp0; subst p'.
    rewrite Hrv in Hv0. inversion Hv0; subst v'.
    rewrite (bind_run _ _ _ _ _ Hmerge).
    rewrite (bind_run _ _ _ (Z.of_nat (length p)) w2)
      by (unfold os_path_getsize; now rewrite (getsize_file _ _ _ _ Hp1)).
    rewrite (bind_run _ _ _ (Z.of_nat (length (p ++ v)%list)) w2)
      by (unfold os_path_getsize; now rewrite (getsize_file _ _ _ _ Ho)).
    destruct (add_xmp_metadata_runs E (join output (basename photo))
                (Z.of_nat (length (p ++ v)%list) - Z.of_nat (length p)) w2
                (p ++ v)%list old (proj2 (read_inr _ _ _) Ho) Hold Hwr)
      as [w3 Hxmp].
    rewrite (bind_run _ _ _ _ _ Hxmp). eauto.
Qed.

Lemma convert_jpeg_end_to_end_witness :
  let w := start tree_pair [] in
  exists w',
    convert sample_env "d/a.jpg" "d/a.mov" "out" false w = (Returned RetNone, w')
    /\ FS.read (fs w') "out/a.jpg"
       = inr [Byte.xff; Byte.xd8; Byte.xff; Byte.xe1; Byte.x01; Byte.x02;
              Byte.x10; Byte.x11; Byte.x12]
    /\ FS.read (fs w') "d/a.jpg" = inr jpeg_bytes.
Proof.
  intros w.
  assert (Hp : components (join "out" (basename "d/a.jpg")) ≠ components "d/a.jpg")
    by (vm_compute; discriminate).
  assert (Hv : components (join "out" (basename "d/a.jpg")) ≠ components "d/a.mov")
    by (vm_compute; discriminate).
  pose proof (convert_jpeg_end_to_end sample_env "d/a.jpg" "d/a.mov" "out" false w
                eq_refl Hp Hv) as [Hret Hruns].
  destruct (Hruns jpeg_bytes Scenario.video_bytes ∅ eq_refl eq_refl eq_refl eq_refl)
    as [w' Hrun].
  - right. vm_compute. discriminate.
  - reflexivity.
  - intros tags. eexists. reflexivity.
  - exists w'. split; [exact Hrun|].
    destruct (Hret w' Hrun)
      as (p & v & old & data' & Hrp & Hrv & Hold & Hwr & Hout & Hphoto & _).
    vm_compute in Hrp, Hrv. inversion Hrp; subst p. inversion Hrv; subst v.
    vm_compute in Hwr. inversion Hwr; subst data'.
    split; [exact Hout|exact Hphoto].
Defined.

(** *** What the conversion loop writes *)

Lemma writes_only_weaken {A} (P Q : list string -> Prop) (m : M A) :
  (forall c, P c -> Q c) -> writes_only P m -> writes_only Q m.
Proof. intros HPQ Hm w r w' q Hrun Hq. apply (Hm w r w' q Hrun). auto. Qed.

Lemma writes_only_bind {A B} P (m : M A) (k : A -> M B) :
  writes_only P m ->
  (forall w a w1, m w = (Returned a, w1) -> writes_only P (k a)) ->
  writes_only P (bind m k).
Proof.
  intros Hm Hk w r w' q Hrun Hq. unfold bind in Hrun.
  destruct (m w) as [[a|e] w1] eqn:Hmw.
  - rewrite (Hk w a w1 Hmw w1 r w' q Hrun Hq). apply (Hm w _ w1 q Hmw Hq).
  - inversion Hrun; subst. apply (Hm w _ w' q Hmw Hq).
Qed.

(** A computation that leaves the file system alone. *)
Lemma writes_only_same_fs {A} P (m : M A) :
  (forall w r w', m w = (r, w') -> fs w' = fs w) -> writes_only P m.
Proof. intros H w r w' q Hrun _. now rewrite (H w r w' Hrun). Qed.

Lemma writes_only_ret {A} P (a : A) : writes_only P (ret a).
Proof. apply writes_only_same_fs. now inversion 1. Qed.

Lemma writes_only_open_rb P path : writes_only P (open_rb path).
Proof.
  apply writes_only_same_fs. intros w r w'. unfold open_rb.
  destruct (FS.read (fs w) path); now inversion 1.
Qed.

Lemma writes_only_file_read P path : writes_only P (file_read path).
Proof.
  apply writes_only_same_fs. intros w r w'. unfold file_read, lift_os.
  destruct (FS.read (fs w) path); now inversion 1.
Qed.

Lemma writes_only_getsize P E path : writes_only P (os_path_getsize E path).
Proof.
  apply writes_only_same_fs. intros w r w'. unfold os_path_getsize, lift_os.
  destruct (getsize (dir_size E) (fs w) path); now inversion 1.
Qed.

Lemma writes_only_makedirs P path : writes_only P (os_makedirs path).
Proof.
  intros w r w' q Hrun _. unfold os_makedirs in Hrun.
  destruct (makedirs (fs w) path) as [e|t] eqn:Hmk; inversion Hrun; subst.
  - reflexivity.
  - apply (makedirs_resolve _ _ _ _ Hmk).
Qed.

Lemma writes_only_open_wb path :
  writes_only (fun c => c = components path) (open_wb path).
Proof.
  intros w r w' q Hrun Hq. unfold open_wb in Hrun.
  destruct (FS.write (fs w) path []) as [e|t] eqn:Hw; inversion Hrun; subst.
  - reflexivity.
  - apply (write_resolve_ne _ _ _ _ _ Hw Hq).
Qed.

Lemma writes_only_file_write path data :
  writes_only (fun c => c = components path) (file_write path data).
Proof.
  intros w r w' q Hrun Hq. unfold file_write in Hrun.
  destruct (FS.read (fs w) path) as [e|old]; [now inversion Hrun|].
  destruct (FS.write (fs w) path (old ++ data)%list) as [e|t] eqn:Hw;
    inversion Hrun; subst.
  - reflexivity.
  - apply (write_resolve_ne _ _ _ _ _ Hw Hq).
Qed.

Lemma writes_only_merge_files photo video output :
  writes_only (fun c => c = components (join output (basename photo)))
    (merge_files photo video output).
Proof.
  unfold merge_files.
  apply writes_only_bind; [apply writes_only_makedirs|intros _ _ _ _].
  apply writes_only_bind; [apply writes_only_open_wb|intros _ _ _ _].
  apply writes_only_bind; [apply writes_only_open_rb|intros _ _ _ _].
  apply writes_only_bind; [apply writes_only_open_rb|intros _ _ _ _].
  apply writes_only_bind; [apply writes_only_file_read|intros _ p _ _].
  apply writes_only_bind; [apply writes_only_file_write|intros _ _ _ _].
  apply writes_only_bind; [apply writes_only_file_read|intros _ v _ _].
  apply writes_only_bind; [apply writes_only_file_write|intros _ _ _ _].
  apply writes_only_ret.
Qed.

Lemma writes_only_add_xmp_metadata E merged_file offset :
  writes_only (fun c => c = components merged_file)
    (add_xmp_metadata E merged_file offset).
Proof.
  intros w r w' q Hrun Hq. destruct r as [u|e].
  - destruct (add_xmp_metadata_returned_fs _ _ _ _ _ _ Hrun)
      as (data & data' & _ & Hw & _).
    apply (write_resolve_ne _ _ _ _ _ Hw Hq).
  - now rewrite (add_xmp_metadata_raised_fs _ _ _ _ _ _ Hrun).
Qed.

Lemma validate_media_extensions t photo video :
  validate_media t photo video = true ->
  exists_ t photo = true /\ exists_ t video = true
  /\ endswith_any (lower photo) [".jpg"; ".jpeg"] = true
  /\ endswith_any (lower video) [".mov"; ".mp4"] = true.
Proof.
  unfold validate_media.
  destruct (exists_ t photo); [|discriminate].
  destruct (exists_ t video); [|discriminate].
  destruct (endswith_any (lower photo) [".jpg"; ".jpeg"]); [|discriminate].
  destruct (endswith_any (lower video) [".mov"; ".mp4"]); [|discriminate].
  auto.
Qed.

Lemma validated_not_heic t photo video :
  validate_media t photo video = true -> endswith (lower photo) ".heic" = false.
Proof.
  intros H. apply validate_media_extensions in H as (_ & _ & Hj & _).
  destruct (endswith (lower photo) ".heic") eqn:Hh; [|reflexivity].
  rewrite (endswith_heic_not_jpeg _ Hh) in Hj. discriminate.
Qed.

Lemma writes_only_convert_jpeg E photo video output convert_all :
  endswith (lower photo) ".heic" = false ->
  writes_only (fun c => c = components (join output (basename photo)))
    (convert E photo video output convert_all).
Proof.
  intros Hh.
  assert (Hon : writes_only
                  (fun c => c = components (join output (basename photo)))
                  (convert E photo video output true)).
  { assert (Hbody : writes_only
                      (fun c => c = components (join output (basename photo)))
                      (bind (merge_files photo video output)
                         (fun merged =>
                            bind (os_path_getsize E photo)
                              (fun photo_filesize =>
                                 bind (os_path_getsize E merged)
                                   (fun merged_filesize =>
                                      bind (add_xmp_metadata E merged
                                              (merged_filesize - photo_filesize))
                                        (fun _ => ret RetNone)))))).
    { apply writes_only_bind; [apply writes_only_merge_files|].
      intros w merged w1 Hm. apply merge_files_returned in Hm as (-> & _).
      apply writes_only_bind; [apply writes_only_getsize|intros _ sp _ _].
      apply writes_only_bind; [apply writes_only_getsize|intros _ so _ _].
      apply writes_only_bind; [apply writes_only_add_xmp_metadata|intros _ _ _ _].
      apply writes_only_ret. }
    intros w r w' q Hrun Hq. rewrite (convert_jpeg_on _ _ _ _ _ Hh) in Hrun.
    exact (Hbody w r w' q Hrun Hq). }
  destruct convert_all; [exact Hon|].
  intros w r w' q Hrun Hq. rewrite convert_gate in Hrun.
  destruct (negb (exists_ (fs w) video)); [now inversion Hrun|].
  destruct (getsize (dir_size E) (fs w) video) as [e|size]; [now inversion Hrun|].
  destruct (10 * 1024 * 1024 <? size); [now inversion Hrun|].
  apply (Hon w r w' q Hrun Hq).
Qed.

(** The conversion loop writes to the output paths of its pairs only. *)
Lemma writes_only_convert_pairs E out_dir convert_all pairs processed :
  writes_only
    (fun c => exists photo video,
         In (photo, video) pairs
         /\ c = components (join out_dir (basename photo)))
    (convert_pairs E out_dir convert_all pairs processed).
Proof.
  revert processed. induction pairs as [|[photo video] pairs IH];
    intros processed w r w' q Hrun Hq.
  - inversion Hrun; subst. reflexivity.
  - assert (Hrest : ~ exists p v,
               In (p, v) pairs
               /\ components q = components (join out_dir (basename p))).
    { intros (p & v & Hin & Heq). apply Hq. exists p, v. split; [now right|].
      exact Heq. }
    assert (Hhead : components q ≠ components (join out_dir (basename photo))).
    { intros Heq. apply Hq. exists photo, video. split; [now left|exact Heq]. }
    destruct (validate_media (fs w) photo video) eqn:Hv.
    + rewrite (convert_pairs_validated _ _ _ _ _ _ _ _ Hv) in Hrun.
      pose proof (writes_only_convert_jpeg E photo video out_dir convert_all
                    (validated_not_heic _ _ _ Hv)) as Hconv.
      destruct (convert E photo video out_dir convert_all w) as [[u|e] w1] eqn:Hc.
      * rewrite (IH _ _ _ _ _ Hrun Hrest).
        apply (Hconv w _ w1 q Hc Hhead).
      * inversion Hrun; subst.
        apply (Hconv w _ w' q Hc Hhead).
    + rewrite (convert_pairs_rejected _ _ _ _ _ _ _ _ Hv) in Hrun.
      apply (IH _ _ _ _ _ Hrun Hrest).
Qed.

(** X6. The conversion loop of [main] creates, changes and removes no
    regular file other than its outputs, the files
    [out_dir/basename(photo)] of its pairs, whether it returns or is
    ended by an exception: every other path holds the regular file it
    held, or still holds none.  In particular the photos and videos are
    not touched unless one of them is at an output path. *)
Theorem conversion_loop_writes_only_outputs E out_dir convert_all pairs processed
    w r w' q :
  convert_pairs E out_dir convert_all pairs processed w = (r, w') ->
  (forall photo video,
     In (photo, video) pairs ->
     components q ≠ components (join out_dir (basename photo))) ->
  file_of (resolve (fs w') q) = file_of (resolve (fs w) q).
Proof.
  intros Hrun Hq.
  apply (writes_only_convert_pairs E out_dir convert_all pairs processed
           w r w' q Hrun).
  intros (photo & video & Hin & Heq). exact (Hq photo video Hin Heq).
Qed.

Lemma conversion_loop_writes_only_outputs_witness :
  let w := start tree_bad_first [] in
  let r := convert_pairs sample_env "out" true
             [("d/a.jpg", "d/a.mov"); ("d/b.jpg", "d/b.mov")] ∅ w in
  fst r = Raised Exiv2Error
  /\ file_of (resolve (fs (snd r)) "d/a.mov") = Some Scenario.video_bytes.
Proof.
  intros w r. split; [vm_compute; reflexivity|].
  rewrite (conversion_loop_writes_only_outputs sample_env "out" true
             [("d/a.jpg", "d/a.mov"); ("d/b.jpg", "d/b.mov")] ∅ w
             (fst r) (snd r) "d/a.mov").
  - reflexivity.
  - unfold r. now destruct (convert_pairs _ _ _ _ _ _).
  - intros photo video [H|[H|[]]]; inversion H; subst;
      vm_compute; discriminate.
Defined.

(** X7. What the conversion loop puts in the processed set, when it
    returns: nothing is taken out, and every path put in is the photo or
    the video of one of the pairs, a pair whose photo path ends in [.jpg]
    or [.jpeg] and whose video path ends in [.mov] or [.mp4], in any
    letter case.  So the set never holds a HEIC file. *)
Theorem processed_files_are_validated_pairs E out_dir convert_all pairs processed
    w processed' w' :
  convert_pairs E out_dir convert_all pairs processed w = (Returned processed', w') ->
  processed ⊆ processed'
  /\ (forall path,
        path ∈ processed' ->
        path ∈ processed
        \/ exists photo video,
             In (photo, video) pairs
             /\ (path = photo \/ path = video)
             /\ endswith_any (lower photo) [".jpg"; ".jpeg"] = true
             /\ endswith_any (lower video) [".mov"; ".mp4"] = true
             /\ endswith (lower photo) ".heic" = false).
Proof.
  revert processed w. induction pairs as [|[photo video] pairs IH];
    intros processed w Hrun.
  - inversion Hrun; subst. split; [reflexivity|]. auto.
  - destruct (validate_media (fs w) photo video) eqn:Hv.
    + rewrite (convert_pairs_validated _ _ _ _ _ _ _ _ Hv) in Hrun.
      destruct (convert E photo video out_dir convert_all w) as [[u|e] w1];
        [|discriminate].
      destruct (IH _ _ Hrun) as [Hsub Hin].
      pose proof (validate_media_extensions _ _ _ Hv) as (_ & _ & Hj & Hm).
      pose proof (validated_not_heic _ _ _ Hv) as Hh.
      split.
      { intros x Hx. apply Hsub. apply elem_of_union. left.
        apply elem_of_union. now left. }
      intros path Hpath. destruct (Hin path Hpath) as [Hold|Hnew].
      * apply elem_of_union in Hold as [Hold|Hvid].
        -- apply elem_of_union in Hold as [Hold|Hph]; [now left|].
           apply elem_of_singleton in Hph. subst path. right.
           exists photo, video. split; [now left|]. auto.
        -- apply elem_of_singleton in Hvid. subst path. right.
           exists photo, video. split; [now left|]. auto.
      * destruct Hnew as (p & v & Hpv & Hrest). right.
        exists p, v. split; [now right|exact Hrest].
    + rewrite (convert_pairs_rejected _ _ _ _ _ _ _ _ Hv) in Hrun.
      destruct (IH _ _ Hrun) as [Hsub Hin]. split; [exact Hsub|].
      intros path Hpath. destruct (Hin path Hpath) as [Hold|Hnew]; [now left|].
      destruct Hnew as (p & v & Hpv & Hrest). right.
      exists p, v. split; [now right|exact Hrest].
Qed.

Lemma processed_files_are_validated_pairs_witness :
  let w := start tree_heic [] in
  let pairs := [("d/img2.heic", "d/img2.mp4")] in
  convert_pairs sample_env "out" true pairs ∅ w = (Returned ∅, w)
  /\ (∅ : gset string) ⊆ ∅.
Proof.
  intros w pairs. split; [reflexivity|].
  exact (proj1 (processed_files_are_validated_pairs sample_env "out" true pairs ∅
                  w ∅ w eq_refl)).
Defined.

(** *** What the scan finds *)

Lemma endswith_both s a b :
  endswith s a = true -> endswith s b = true ->
  (String.length a <= String.length b)%nat ->
  endswith b a = true.
Proof.
  intros Ha Hb Hle. destruct (endswith_inv _ _ Hb) as [v ->].
  unfold endswith in Ha |- *. apply andb_true_iff in Ha as [_ Ha].
  rewrite length_app in Ha.
  replace (String.length v + String.length b - String.length a)%nat
    with ((String.length b - String.length a) + String.length v)%nat in Ha by lia.
  rewrite drop_plus, drop_app_length in Ha. rewrite Ha.
  rewrite andb_true_r. now apply Nat.leb_le.
Qed.

Lemma join_suffix a b : exists x, join a b = x ++ b.
Proof.
  unfold join. destruct (startswith b "/"); [exists ""; reflexivity|].
  destruct (String.eqb a "" || endswith a "/")%bool; [exists a; reflexivity|].
  exists (a ++ "/"). now rewrite app_app.
Qed.

Lemma first_existing_found t base exts :
  first_existing t base exts ≠ "" ->
  exists e, In e exts /\ first_existing t base exts = base ++ e
            /\ exists_ t (base ++ e) = true.
Proof.
  intros Hne.
  destruct (first_existing_spec t base exts)
    as [[_ Hr]|(tried & e & rest & -> & _ & Hex & Hr)]; [congruence|].
  exists e. split; [apply in_or_app; right; now left|]. auto.
Qed.

Lemma pair_of_file_in t root file photo video :
  In (photo, video) (pair_of_file t root file) ->
  photo = join root file
  /\ isfile t photo = true
  /\ In (lower (snd (splitext file))) [".jpg"; ".jpeg"; ".heic"]
  /\ video = matching_video t photo
  /\ video ≠ "".
Proof.
  unfold pair_of_file. destruct (isfile t (join root file)) eqn:Hf; [|intros []].
  destruct (splitext file) as [base_name ext] eqn:Hs. simpl snd.
  destruct (existsb (String.eqb (lower ext)) [".jpg"; ".jpeg"; ".heic"]) eqn:He;
    [|intros []].
  destruct (String.eqb (matching_video t (join root file)) "") eqn:Hm;
    simpl; [intros []|].
  intros [H|[]]. inversion H; subst. apply String.eqb_neq in Hm.
  repeat split; try assumption.
  apply existsb_exists in He as (x & Hx & Heq). apply String.eqb_eq in Heq.
  now subst x.
Qed.

Lemma process_directory_in t file_dir recurse photo video :
  In (photo, video) (process_directory t file_dir recurse) ->
  exists root dirs files file,
    In (root, dirs, files) (walk t file_dir)
    /\ In file files
    /\ In (photo, video) (pair_of_file t root file).
Proof.
  unfold process_directory. intros H.
  apply in_flat_map in H as ([[root dirs] files] & Hw & H).
  apply in_flat_map in H as (file & Hfile & H).
  exists root, dirs, files, file. auto.
Qed.

(** The facts about a pair that the scan returned. *)
Lemma discovered_pair t file_dir recurse photo video :
  In (photo, video) (process_directory t file_dir recurse) ->
  isfile t photo = true
  /\ exists_ t video = true
  /\ (exists x, In x [".jpg"; ".jpeg"; ".heic"] /\ endswith (lower photo) x = true)
  /\ (exists e, In e [".mov"; ".mp4"; ".MOV"; ".MP4"]
                /\ video = fst (splitext photo) ++ e).
Proof.
  intros H. apply process_directory_in in H as (root & dirs & files & file & _ & _ & H).
  apply pair_of_file_in in H as (-> & Hf & Hext & -> & Hne).
  split; [exact Hf|].
  destruct (first_existing_found _ _ _ Hne) as (e & He & Hv & Hex).
  unfold matching_video. rewrite Hv. split; [exact Hex|]. split.
  - exists (lower (snd (splitext file))). split; [exact Hext|].
    destruct (join_suffix root file) as [x ->].
    destruct (splitext file) as [stem ext] eqn:Hs.
    destruct (splitext_app _ _ _ Hs) as [-> _]. simpl snd.
    rewrite <- app_app, lower_app. apply endswith_app.
  - exists e. auto.
Qed.

Lemma video_extension_lower base e :
  In e [".mov"; ".mp4"; ".MOV"; ".MP4"] ->
  endswith_any (lower (base ++ e)) [".mov"; ".mp4"] = true.
Proof.
  intros He. rewrite lower_app. unfold endswith_any. simpl existsb.
  destruct He as [<-|[<-|[<-|[<-|[]]]]];
    change (lower ".mov") with ".mov"; change (lower ".mp4") with ".mp4";
    change (lower ".MOV") with ".mov"; change (lower ".MP4") with ".mp4";
    rewrite endswith_app; simpl; now rewrite ?orb_true_r.
Qed.

(** X8. Every pair [process_directory] returns is made of a photo that is
    a regular file whose name ends, in any letter case, in [.jpg], [.jpeg]
    or [.heic], and of a video that exists and is the photo path with its
    extension replaced by one of [.mov], [.mp4], [.MOV], [.MP4]; the two
    paths are never the same. *)
Theorem discovered_pairs_are_photo_and_video t file_dir recurse photo video :
  In (photo, video) (process_directory t file_dir recurse) ->
  isfile t photo = true
  /\ exists_ t video = true
  /\ (exists x, In x [".jpg"; ".jpeg"; ".heic"] /\ endswith (lower photo) x = true)
  /\ (exists e, In e [".mov"; ".mp4"; ".MOV"; ".MP4"]
                /\ video = fst (splitext photo) ++ e)
  /\ photo ≠ video.
Proof.
  intros H. destruct (discovered_pair _ _ _ _ _ H) as (Hf & Hex & Hx & He).
  repeat split; try assumption.
  destruct Hx as (x & Hx & Hpx). destruct He as (e & He & Hv).
  intros Heq. rewrite Heq, Hv in Hpx.
  pose proof (video_extension_lower (fst (splitext photo)) e He) as Hve.
  unfold endswith_any in Hve. simpl existsb in Hve.
  rewrite orb_false_r in Hve. apply orb_true_iff in Hve.
  destruct Hx as [<-|[<-|[<-|[]]]]; destruct Hve as [Hy|Hy];
    first [ pose proof (endswith_both _ _ _ Hpx Hy ltac:(simpl; lia)) as Hb
          | pose proof (endswith_both _ _ _ Hy Hpx ltac:(simpl; lia)) as Hb ];
    discriminate Hb.
Qed.

Lemma discovered_pairs_are_photo_and_video_witness :
  In ("d/a.jpg", "d/a.mov") (process_directory tree_pair "d" false)
  /\ isfile tree_pair "d/a.jpg" = true
  /\ "d/a.jpg" ≠ "d/a.mov".
Proof.
  assert (Hin : In ("d/a.jpg", "d/a.mov") (process_directory tree_pair "d" false))
    by (left; reflexivity).
  destruct (discovered_pairs_are_photo_and_video tree_pair "d" false
              "d/a.jpg" "d/a.mov" Hin) as (Hf & _ & _ & _ & Hne).
  auto.
Defined.

(** X9. [validate_media] accepts a pair that [process_directory] returned
    exactly when the photo path does not end in [.heic]: of the pairs the
    scan finds, the validator lets the JPEG ones pass and stops the HEIC
    ones, and nothing else. *)
Theorem validator_on_discovered_pairs t file_dir recurse photo video :
  In (photo, video) (process_directory t file_dir recurse) ->
  validate_media t photo video = negb (endswith (lower photo) ".heic").
Proof.
  intros H. destruct (discovered_pair _ _ _ _ _ H) as (Hf & Hex & Hx & He).
  assert (Hp : exists_ t photo = true).
  { unfold isfile in Hf. unfold exists_.
    destruct (resolve t photo); [reflexivity|discriminate]. }
  destruct He as (e & He & Hv).
  pose proof (video_extension_lower (fst (splitext photo)) e He) as Hve.
  rewrite <- Hv in Hve.
  unfold validate_media. rewrite Hp, Hex, Hve. simpl negb. cbv iota.
  destruct (endswith (lower photo) ".heic") eqn:Hh.
  - pose proof (endswith_heic_not_jpeg _ Hh) as Hj.
    unfold endswith_any in Hj. simpl existsb in Hj. now rewrite Hj.
  - destruct Hx as (x & Hx & Hpx).
    destruct Hx as [<-|[<-|[<-|[]]]]; rewrite ?Hpx, ?orb_true_r;
      try reflexivity.
    congruence.
Qed.

Lemma validator_on_discovered_pairs_witness :
  In ("d/img2.heic", "d/img2.mp4") (process_directory tree_heic "d" false)
  /\ validate_media tree_heic "d/img2.heic" "d/img2.mp4" = false.
Proof.
  assert (Hin : In ("d/img2.heic", "d/img2.mp4")
                  (process_directory tree_heic "d" false))
    by (left; reflexivity).
  split; [exact Hin|].
  exact (validator_on_discovered_pairs tree_heic "d" false
           "d/img2.heic" "d/img2.mp4" Hin).
Defined.

Lemma walk_node_unfold top es :
  walk_node top (Dir es)
  = (top, dirnames es, filenames es)
      :: flat_map (fun e => match snd e with
                            | Dir _ => walk_node (join top (fst e)) (snd e)
                            | File _ => []
                            end) es.
Proof.
  simpl. f_equal. induction es as [|[name child] es IH]; [reflexivity|].
  simpl. rewrite <- IH. destruct child; reflexivity.
Qed.

(** [os.walk] yields every directory it can reach through
    sub-directories. *)
Lemma walk_node_visited top es root es' :
  visited top es root es' ->
  In (root, dirnames es', filenames es') (walk_node top (Dir es)).
Proof.
  induction 1 as [top es|top es name child root es' Hin _ IH];
    rewrite walk_node_unfold.
  - now left.
  - right. apply in_flat_map. exists (name, Dir child). split; [exact Hin|].
    exact IH.
Qed.

(** X10. The scan examines every file of every directory that can be
    reached from [file_dir] through sub-directories, whatever [recurse]
    is: a regular file there whose extension is, in any letter case,
    [.jpg], [.jpeg] or [.heic] and for which [matching_video] finds a
    video is returned with that video. *)
Theorem scan_covers_every_subdirectory t file_dir recurse es root es' file :
  resolve t file_dir = Some (Dir es) ->
  visited file_dir es root es' ->
  In file (filenames es') ->
  isfile t (join root file) = true ->
  In (lower (snd (splitext file))) [".jpg"; ".jpeg"; ".heic"] ->
  matching_video t (join root file) ≠ "" ->
  In (join root file, matching_video t (join root file))
    (process_directory t file_dir recurse).
Proof.
  intros Hres Hvis Hfile Hisfile Hext Hvideo.
  unfold process_directory, walk. rewrite Hres.
  apply in_flat_map. exists (root, dirnames es', filenames es').
  split; [now apply walk_node_visited|].
  apply in_flat_map. exists file. split; [exact Hfile|].
  unfold pair_of_file. rewrite Hisfile.
  destruct (splitext file) as [base_name ext]. simpl snd in Hext.
  assert (He : existsb (String.eqb (lower ext)) [".jpg"; ".jpeg"; ".heic"] = true).
  { apply existsb_exists. exists (lower ext). split; [exact Hext|].
    apply String.eqb_refl. }
  rewrite He. apply String.eqb_neq in Hvideo. rewrite Hvideo. now left.
Qed.

Lemma scan_covers_every_subdirectory_witness :
  In ("d/sub/c.jpg", "d/sub/c.mov") (process_directory tree_nested "d" false).
Proof.
  apply (scan_covers_every_subdirectory tree_nested "d" false
           [("sub", Dir [("c.jpg", File jpeg_bytes);
                         ("c.mov", File Scenario.video_bytes)])]
           "d/sub"
           [("c.jpg", File jpeg_bytes); ("c.mov", File Scenario.video_bytes)]
           "c.jpg").
  - reflexivity.
  - eapply visited_sub; [left; reflexivity|]. apply visited_top.
  - left. reflexivity.
  - reflexivity.
  - left. reflexivity.
  - discriminate.
Defined.

(** *** Deleting *)

(** One turn of the loop of [delete_files]. *)
Lemma delete_one file w :
  exists w1,
    try_except (os_remove file) is_exception (ret tt) w = (Returned tt, w1)
    /\ w1 = set_fs (fs w1) w
    /\ match remove (fs w) file with
       | inr t' => fs w1 = t'
       | inl _ => fs w1 = fs w
       end.
Proof.
  unfold try_except, os_remove.
  destruct (remove (fs w) file) as [e|t'].
  - exists w. simpl. destruct w; auto.
  - exists (set_fs t' w). auto.
Qed.

(** X11. In a file system whose root is a directory, [delete_files]
    returns, the error of each [os.remove] being caught.  Afterwards
    every listed path that was a regular file is gone, and every other
    path is as it was: the same bytes, the same directory, or nothing.
    Listed paths that are directories or do not exist are passed over. *)
Theorem delete_files_removes_listed_files files w :
  isdir (fs w) "/" = true ->
  exists w',
    delete_files files w = (Returned tt, w')
    /\ w' = set_fs (fs w') w
    /\ (forall q,
          isfile (fs w) q = true ->
          (exists f, In f files /\ components f = components q) ->
          FS.read (fs w') q = inl ENOENT)
    /\ (forall q,
          isfile (fs w) q = false
          \/ (forall f, In f files -> components f ≠ components q) ->
          FS.read (fs w') q = FS.read (fs w) q).
Proof.
  revert w. induction files as [|file files IH]; intros w Hroot.
  - exists w. split; [reflexivity|]. split; [now destruct w|]. split.
    + intros q _ (f & [] & _).
    + reflexivity.
  - destruct (delete_one file w) as (w1 & Hstep & Hw1 & Hfs).
    pose proof (remove_spec (fs w) file) as Hrm.
    assert (Hframe : forall q,
               isfile (fs w) q = false \/ components file ≠ components q ->
               FS.read (fs w1) q = FS.read (fs w) q).
    { intros q Hq. destruct (remove (fs w) file) as [e|t'] eqn:Hr;
        rewrite Hfs; [reflexivity|].
      destruct Hrm as (Hisf & Hgone & Hother).
      destruct (decide (components q = components file)) as [Heq|Hne];
        [|now apply Hother].
      destruct Hq as [Hq|Hq]; [|congruence].
      rewrite (Hgone q Heq). symmetry.
      unfold isfile in Hq, Hisf. unfold FS.read, resolve in *.
      destruct (String.eqb q "") eqn:Hqe; [reflexivity|].
      destruct (String.eqb file "") eqn:Hfe; [discriminate|].
      rewrite Heq in Hq.
      destruct (lookup (fs w) (components file)) as [[d|es]|];
        discriminate. }
    assert (Hroot1 : isdir (fs w1) "/" = true).
    { assert (Hr : FS.read (fs w1) "/" = FS.read (fs w) "/").
      { apply Hframe. left. unfold isdir in Hroot. unfold isfile.
        destruct (resolve (fs w) "/") as [[d|es]|]; congruence. }
      unfold isdir in *. unfold FS.read in Hr.
      destruct (resolve (fs w1) "/") as [[d|es]|],
               (resolve (fs w) "/") as [[d'|es']|]; congruence. }
    destruct (IH w1 Hroot1) as (w' & Hrun & Hw' & Hgone' & Hkeep').
    exists w'. split.
    { simpl delete_files. now rewrite (bind_run _ _ _ _ _ Hstep). }
    split.
    { rewrite Hw', Hw1. reflexivity. }
    split.
    + intros q Hq (f & [<-|Hin] & Hc).
      * destruct (remove (fs w) file) as [e|t'] eqn:Hr.
        -- exfalso. destruct Hrm as [Hnf|Hnil].
           ++ unfold isfile, resolve in Hq, Hnf.
              destruct (String.eqb q "") eqn:Hqe; [discriminate|].
              destruct (String.eqb file "") eqn:Hfe.
              ** apply String.eqb_eq in Hfe. subst file.
                 change (components "") with (@nil string) in Hc.
                 rewrite <- Hc in Hq. unfold isdir, resolve in Hroot.
                 simpl in Hroot, Hq.
                 destruct (fs w); discriminate.
              ** rewrite Hc in Hnf.
                 destruct (lookup (fs w) (components q)) as [[d|es]|];
                   discriminate.
           ++ rewrite Hnil in Hc. unfold isfile, resolve in Hq.
              destruct (String.eqb q ""); [discriminate|].
              rewrite <- Hc in Hq. unfold isdir, resolve in Hroot.
              simpl in Hroot, Hq. destruct (fs w); discriminate.
        -- destruct Hrm as (_ & Hgone & _).
           rewrite Hkeep'.
           ++ rewrite Hfs. apply Hgone. now symmetry.
           ++ left. destruct (isfile (fs w1) q) eqn:Hf1; [|reflexivity].
              apply isfile_read in Hf1 as [d Hd].
              rewrite Hfs, (Hgone q (eq_sym Hc)) in Hd. discriminate.
      * destruct (isfile (fs w1) q) eqn:Hf1.
        -- apply (Hgone' q Hf1). eauto.
        -- rewrite (Hkeep' q (or_introl Hf1)).
           destruct (decide (components file = components q)) as [Heq|Hne].
           ++ destruct (remove (fs w) file) as [e|t'] eqn:Hr.
              ** exfalso. rewrite Hfs in Hf1. congruence.
              ** destruct Hrm as (_ & Hg & _). rewrite Hfs.
                 apply Hg. now symmetry.
           ++ exfalso.
              assert (Hsame : FS.read (fs w1) q = FS.read (fs w) q)
                by (apply Hframe; now right).
              apply isfile_read in Hq as [d Hd]. rewrite <- Hsame in Hd.
              assert (Ht : isfile (fs w1) q = true)
                by (apply isfile_read; eauto).
              congruence.
    + intros q Hq.
      assert (Hstep1 : FS.read (fs w1) q = FS.read (fs w) q).
      { apply Hframe. destruct Hq as [Hq|Hq]; [now left|].
        right. apply Hq. now left. }
      rewrite <- Hstep1. apply Hkeep'.
      destruct Hq as [Hq|Hq].
      * left. destruct (isfile (fs w1) q) eqn:Hf1; [|reflexivity].
        apply isfile_read in Hf1 as [d Hd]. rewrite Hstep1 in Hd.
        assert (Ht : isfile (fs w) q = true) by (apply isfile_read; eauto).
        congruence.
      * right. intros f Hin. apply Hq. now right.
Qed.

Lemma delete_files_removes_listed_files_witness :
  exists w',
    delete_files ["d/a.jpg"; "d"; "d/none"] (start tree_pair [])
    = (Returned tt, w')
    /\ FS.read (fs w') "d/a.jpg" = inl ENOENT
    /\ FS.read (fs w') "d/a.mov" = inr Scenario.video_bytes.
Proof.
  destruct (delete_files_removes_listed_files
              ["d/a.jpg"; "d"; "d/none"] (start tree_pair []) eq_refl)
    as (w' & Hrun & _ & Hgone & Hkeep).
  exists w'. split; [exact Hrun|]. split.
  - apply Hgone; [reflexivity|].
    exists "d/a.jpg". split; [left; reflexivity|reflexivity].
  - rewrite Hkeep; [reflexivity|].
    right. intros f [<-|[<-|[<-|[]]]]; vm_compute; discriminate.
Defined.

(** *** Copying *)

Lemma basename_join a b :
  a ≠ "" -> b ≠ "" -> mem sep b = false -> basename (join a b) = b.
Proof.
  intros Ha Hb Hsep. destruct (join_decomp a b Ha Hb Hsep) as (x & -> & _).
  unfold basename, slice_from.
  assert (Hr : rfind sep ((x ++ "/") ++ b) = Z.of_nat (String.length x)).
  { rewrite app_app. change ("/" ++ b) with (String "/"%char b).
    now apply rfind_app_sep. }
  rewrite Hr.
  replace (Z.to_nat (Z.of_nat (String.length x) + 1))
    with (String.length (x ++ "/")).
  - apply drop_app_length.
  - rewrite length_app. simpl. lia.
Qed.

Lemma join_nonempty a b :
  a ≠ "" -> b ≠ "" -> mem sep b = false -> join a b ≠ "".
Proof.
  intros Ha Hb Hsep He.
  destruct (components_join a b Ha Hb Hsep) as (Hc & _).
  rewrite He in Hc. change (components "") with (@nil string) in Hc.
  destruct (components a); discriminate.
Qed.

Lemma components_join_inj a a' b b' :
  a ≠ "" -> b ≠ "" -> mem sep b = false ->
  a' ≠ "" -> b' ≠ "" -> mem sep b' = false ->
  components (join a b) = components (join a' b') ->
  components a = components a' /\ b = b'.
Proof.
  intros Ha Hb Hs Ha' Hb' Hs' H.
  destruct (components_join a b Ha Hb Hs) as (Hc & _).
  destruct (components_join a' b' Ha' Hb' Hs') as (Hc' & _).
  rewrite Hc, Hc' in H. apply app_inj_tail in H. exact H.
Qed.

Lemma isdir_read t q : isdir t q = true <-> FS.read t q = inl EISDIR.
Proof.
  unfold isdir, FS.read. destruct (resolve t q) as [[d|es]|]; split;
    try discriminate; reflexivity.
Qed.

Lemma isdir_of_read t t' q :
  FS.read t' q = FS.read t q -> isdir t' q = isdir t q.
Proof.
  unfold isdir, FS.read.
  destruct (resolve t' q) as [[d|es]|], (resolve t q) as [[d'|es']|];
    congruence.
Qed.

Lemma isfile_of_read t t' q :
  FS.read t' q = FS.read t q -> isfile t' q = isfile t q.
Proof.
  unfold isfile, FS.read.
  destruct (resolve t' q) as [[d|es]|], (resolve t q) as [[d'|es']|];
    congruence.
Qed.

Lemma set_fs_same w : set_fs (fs w) w = w.
Proof. now destruct w. Qed.

(** [shutil.copy2] of a regular file onto itself. *)
Lemma copy2_same f w :
  isfile (fs w) f = true -> copy2 f f w = (RaisedSameFile f f, w).
Proof.
  intros Hf. unfold copy2, bind2, lift, reads.
  assert (Hd : isdir (fs w) f = false).
  { unfold isfile in Hf. unfold isdir.
    destruct (resolve (fs w) f) as [[d|es]|]; congruence. }
  assert (He : exists_ (fs w) f = true).
  { unfold isfile in Hf. unfold exists_.
    destruct (resolve (fs w) f) as [[d|es]|]; congruence. }
  rewrite Hd. unfold samefile. rewrite He.
  rewrite bool_decide_eq_true_2 by reflexivity. reflexivity.
Qed.

(** [shutil.copy2] of a regular file to another place, not a directory,
    that can be opened for writing. *)
Lemma copy2_file src dst d w :
  FS.read (fs w) src = inr d ->
  isdir (fs w) dst = false ->
  components src ≠ components dst ->
  (exists t1, write (fs w) dst [] = inr t1) ->
  exists w',
    copy2 src dst w = (Returned2 dst, w')
    /\ w' = set_fs (fs w') w
    /\ FS.read (fs w') dst = inr d
    /\ (forall q, components q ≠ components dst ->
                  FS.read (fs w') q = FS.read (fs w) q).
Proof.
  intros Hsrc Hdir Hne [t1 Ht1].
  assert (Hsrc1 : FS.read t1 src = inr d).
  { rewrite (read_write_ne _ _ _ _ _ Ht1 Hne). exact Hsrc. }
  assert (Hdst1 : FS.read t1 dst = inr []).
  { apply read_inr. apply (write_resolve_eq _ _ _ _ Ht1). }
  destruct (write_existing t1 dst [] ([] ++ d)
              (proj1 (read_inr _ _ _) Hdst1)) as [t2 Ht2].
  exists (set_fs t2 w).
  unfold copy2, bind2, lift, reads. rewrite Hdir.
  unfold samefile. rewrite bool_decide_eq_false_2 by exact Hne.
  rewrite andb_false_r.
  unfold open_rb. rewrite Hsrc.
  unfold open_wb. rewrite Ht1.
  unfold file_read, lift_os. change (fs (set_fs t1 w)) with t1.
  rewrite Hsrc1.
  unfold ret, file_write. change (fs (set_fs t1 w)) with t1.
  rewrite Hdst1, Ht2.
  change (fs (set_fs t2 w)) with t2.
  split; [destruct w; reflexivity|]. split; [destruct w; reflexivity|].
  split.
  - apply read_inr. apply (write_resolve_eq _ _ _ _ Ht2).
  - intros q Hq.
    rewrite (read_write_ne _ _ _ _ _ Ht2 Hq).
    apply (read_write_ne _ _ _ _ _ Ht1 Hq).
Qed.

Lemma makedirs_existing t path :
  isdir t path = true -> makedirs t path = inr t.
Proof.
  unfold isdir, resolve, makedirs. destruct (String.eqb path ""); [discriminate|].
  destruct (lookup t (components path)) as [[d|es]|] eqn:Hl; try discriminate.
  intros _. apply (mkdir_p_existing _ _ _ Hl).
Qed.

Lemma isdir_nonempty t path : isdir t path = true -> path ≠ "".
Proof. intros H ->. discriminate H. Qed.

(** The two turns the loop of the copy step can take. *)
Lemma copy_files_cons_skip out_dir f l w :
  isfile (fs w) f = false ->
  copy_files out_dir (f :: l) w = copy_files out_dir l w.
Proof.
  intros Hf. cbn [copy_files]. unfold bind2 at 1. unfold lift at 1.
  unfold reads. rewrite Hf. reflexivity.
Qed.

Lemma copy_files_cons_copy out_dir f l w :
  isfile (fs w) f = true ->
  copy_files out_dir (f :: l) w
  = match copy2 f (join out_dir (basename f)) w with
    | (Returned2 _, w') => copy_files out_dir l w'
    | (Raised2 e, w') => (Raised2 e, w')
    | (RaisedSameFile src dst, w') => (RaisedSameFile src dst, w')
    end.
Proof.
  intros Hf. cbn [copy_files]. unfold bind2 at 1. unfold lift at 1.
  unfold reads. rewrite Hf. unfold bind2 at 1 2.
  destruct (copy2 f (join out_dir (basename f)) w) as [[p|e|s d] w'];
    reflexivity.
Qed.

(** The block under [if ask_copy_all():], once the source directory is
    listed and the destination is found to exist. *)
Lemma copy_remaining_unfold order source_dir out_dir es processed w :
  resolve (fs w) source_dir = Some (Dir es) ->
  isdir (fs w) out_dir = true ->
  copy_remaining order source_dir out_dir processed w
  = if (0 <? size (list_to_set (map (join source_dir) (map fst es))
                   ∖ processed : gset string))%nat
    then copy_files out_dir
           (order (list_to_set (map (join source_dir) (map fst es))
                   ∖ processed)) w
    else (Returned2 tt, w).
Proof.
  intros Hs Ho. unfold copy_remaining, bind2 at 1, lift at 1.
  unfold os_listdir, listdir. rewrite Hs. cbn [lift_os ret].
  destruct (0 <? size _)%nat; [|reflexivity].
  unfold bind2, lift, os_makedirs. rewrite (makedirs_existing _ _ Ho).
  now rewrite set_fs_same.
Qed.

Lemma elem_of_remaining source_dir names (processed : gset string) f :
  f ∈ (list_to_set (map (join source_dir) names) ∖ processed : gset string)
  <-> (exists name, In name names /\ f = join source_dir name)
      /\ f ∉ processed.
Proof.
  rewrite elem_of_difference, elem_of_list_to_set, list_elem_of_In, in_map_iff.
  split; intros [(name & H1 & H2) Hp]; (split; [exists name|exact Hp]); auto.
Qed.

Lemma remaining_empty source_dir names (processed : gset string) name :
  (0 <? size (list_to_set (map (join source_dir) names)
              ∖ processed : gset string))%nat = false ->
  In name names -> join source_dir name ∈ processed.
Proof.
  intros Hz Hin. apply Nat.ltb_ge in Hz.
  assert (Hsz : size (list_to_set (map (join source_dir) names)
                      ∖ processed : gset string) = 0%nat) by lia.
  apply size_empty_iff in Hsz.
  destruct (decide (join source_dir name ∈ processed)) as [Hp|Hp]; [exact Hp|].
  exfalso. apply (not_elem_of_empty (C := gset string) (join source_dir name)).
  apply Hsz. apply elem_of_remaining. split; [exists name; auto|exact Hp].
Qed.

(** The loop over files of the source directory, when the destination is
    that directory: it stops at the first regular file. *)
Lemma copy_files_same_directory d l w :
  d ≠ "" ->
  Forall (fun f => exists name,
              (name ≠ "" /\ mem sep name = false) /\ f = join d name) l ->
  match copy_files d l w with
  | (RaisedSameFile src dst, w') =>
      w' = w /\ dst = src /\ isfile (fs w) src = true /\ In src l
  | (Returned2 _, w') => w' = w /\ Forall (fun f => isfile (fs w) f = false) l
  | (Raised2 _, _) => False
  end.
Proof.
  intros Hd Hl. induction Hl as [|f l (name & [Hn Hm] & ->) Hl IH].
  - split; [reflexivity|constructor].
  - destruct (isfile (fs w) (join d name)) eqn:Hf.
    + rewrite (copy_files_cons_copy _ _ _ _ Hf).
      rewrite (basename_join d name Hd Hn Hm).
      rewrite (copy2_same _ _ Hf).
      split; [reflexivity|]. split; [reflexivity|]. split; [exact Hf|].
      now left.
    + rewrite (copy_files_cons_skip _ _ _ _ Hf).
      destruct (copy_files d l w) as [[u|e|src dst] w'].
      * destruct IH as [-> IH]. split; [reflexivity|]. now constructor.
      * exact IH.
      * destruct IH as (-> & -> & Hs & Hin). repeat split; auto. now right.
Qed.

(** X12. Copying the remaining files into the source directory itself
    copies nothing and changes nothing: the step ends with
    [shutil.SameFileError] at the first unprocessed regular file it comes
    to, whatever the order of the set; it returns only when every entry
    of the directory is a processed file or is no regular file. *)
Theorem copy_into_source_directory order d es processed w :
  resolve (fs w) d = Some (Dir es) ->
  Forall (fun name => name ≠ "" /\ mem sep name = false) (map fst es) ->
  (forall (S : gset string) f, In f (order S) <-> f ∈ S) ->
  match copy_remaining order d d processed w with
  | (RaisedSameFile src dst, w') =>
      w' = w /\ dst = src /\ isfile (fs w) src = true
      /\ (src ∉ processed) /\ In src (map (join d) (map fst es))
  | (Returned2 _, w') =>
      w' = w
      /\ forall name,
           In name (map fst es) ->
           join d name ∈ processed \/ isfile (fs w) (join d name) = false
  | (Raised2 _, _) => False
  end.
Proof.
  intros Hs Hnames Horder.
  assert (Hdir : isdir (fs w) d = true) by (unfold isdir; now rewrite Hs).
  pose proof (isdir_nonempty _ _ Hdir) as Hd.
  rewrite (copy_remaining_unfold _ _ _ _ _ _ Hs Hdir).
  set (remaining := (list_to_set (map (join d) (map fst es)) ∖ processed
                     : gset string)).
  destruct (0 <? size remaining)%nat eqn:Hsz.
  - assert (Hl : Forall (fun f => exists name,
                             (name ≠ "" /\ mem sep name = false)
                             /\ f = join d name) (order remaining)).
    { apply List.Forall_forall. intros f Hin. apply Horder in Hin.
      apply elem_of_remaining in Hin as [(name & Hin & ->) _].
      exists name. split; [|reflexivity].
      apply (proj1 (List.Forall_forall _ _) Hnames name Hin). }
    pose proof (copy_files_same_directory d (order remaining) w Hd Hl) as H.
    destruct (copy_files d (order remaining) w) as [[u|e|src dst] w'].
    + destruct H as [-> Hall]. split; [reflexivity|]. intros name Hin.
      destruct (decide (join d name ∈ processed)) as [Hp|Hp]; [now left|].
      right. apply (proj1 (List.Forall_forall _ _) Hall).
      apply Horder. apply elem_of_remaining. split; [exists name; auto|exact Hp].
    + exact H.
    + destruct H as (-> & -> & Hf & Hin). apply Horder in Hin.
      apply elem_of_remaining in Hin as [(name & Hin & ->) Hp].
      repeat split; auto. apply in_map_iff. exists name. auto.
  - split; [reflexivity|]. intros name Hin. left.
    now apply (remaining_empty d (map fst es) processed name).
Qed.

Lemma copy_into_source_directory_witness :
  match copy_remaining elements "d" "d" {[ "d/a.jpg"; "d/a.mov" ]}
          (start tree_pair []) with
  | (RaisedSameFile src dst, w') =>
      w' = start tree_pair [] /\ dst = src
      /\ isfile tree_pair src = true
      /\ (src ∉ ({[ "d/a.jpg"; "d/a.mov" ]} : gset string))
      /\ In src ["d/a.jpg"; "d/a.mov"; "d/a.mp4"]
  | (Returned2 _, w') =>
      w' = start tree_pair []
      /\ forall name,
           In name ["a.jpg"; "a.mov"; "a.mp4"] ->
           join "d" name ∈ ({[ "d/a.jpg"; "d/a.mov" ]} : gset string)
           \/ isfile tree_pair (join "d" name) = false
  | (Raised2 _, _) => False
  end.
Proof.
  apply (copy_into_source_directory elements "d"
           [("a.jpg", File jpeg_bytes);
            ("a.mov", File Scenario.video_bytes);
            ("a.mp4", File other_video_bytes)]
           {[ "d/a.jpg"; "d/a.mov" ]} (start tree_pair [])).
  - reflexivity.
  - repeat constructor; discriminate.
  - intros S f. rewrite <- list_elem_of_In. apply elem_of_elements.
Defined.

(** The loop over files of the source directory, when the destination is
    another directory. *)
Lemma copy_files_other_directory source out :
  source ≠ "" -> out ≠ "" -> components out ≠ components source ->
  forall l w,
    Forall (fun f => exists name,
                (name ≠ "" /\ mem sep name = false)
                /\ f = join source name) l ->
    isdir (fs w) out = true ->
    (forall name,
       name ≠ "" -> mem sep name = false ->
       In (join source name) l ->
       isfile (fs w) (join source name) = true ->
       isdir (fs w) (join out name) = false) ->
    exists w',
      copy_files out l w = (Returned2 tt, w')
      /\ w' = set_fs (fs w') w
      /\ (forall name d,
            name ≠ "" -> mem sep name = false ->
            In (join source name) l ->
            FS.read (fs w) (join source name) = inr d ->
            FS.read (fs w') (join out name) = inr d)
      /\ (forall q,
            (forall name,
               name ≠ "" -> mem sep name = false ->
               In (join source name) l ->
               isfile (fs w) (join source name) = true ->
               components q ≠ components (join out name)) ->
            FS.read (fs w') q = FS.read (fs w) q).
Proof.
  intros Hs Ho Hdiff.
  assert (Hcsrc : forall name name0,
             name ≠ "" -> mem sep name = false ->
             name0 ≠ "" -> mem sep name0 = false ->
             components (join source name) ≠ components (join out name0)).
  { intros name name0 Hn Hm Hn0 Hm0 Heq.
    apply components_join_inj in Heq; try assumption.
    destruct Heq as [Heq _]. congruence. }
  assert (Hcdst : forall name name0,
             name ≠ "" -> mem sep name = false ->
             name0 ≠ "" -> mem sep name0 = false ->
             components (join out name) = components (join out name0) ->
             name = name0).
  { intros name name0 Hn Hm Hn0 Hm0 Heq.
    apply components_join_inj in Heq; try assumption. apply Heq. }
  induction l as [|f l IH]; intros w Hl Hout Hdst.
  - exists w. split; [reflexivity|]. split; [now rewrite set_fs_same|].
    split; [intros ? ? _ _ []|reflexivity].
  - inversion Hl as [|f' l' (name0 & [Hn0 Hm0] & Hf) Hl']; subst f' l' f.
    destruct (isfile (fs w) (join source name0)) eqn:Hisf.
    + destruct (proj1 (isfile_read _ _) Hisf) as [d0 Hd0].
      assert (Hdd : isdir (fs w) (join out name0) = false).
      { apply Hdst; auto. now left. }
      destruct (open_output_in_directory (fs w) out name0 Hm0 Hout Hdd)
        as [_ Hw].
      destruct (copy2_file _ _ d0 w Hd0 Hdd (Hcsrc _ _ Hn0 Hm0 Hn0 Hm0) Hw)
        as (w1 & Hc & Hw1 & Hr1 & Hfr1).
      assert (Hout1 : isdir (fs w1) out = true).
      { rewrite (isdir_of_read (fs w) (fs w1) out); [exact Hout|].
        apply Hfr1. intros Heq.
        destruct (components_join out name0 Ho Hn0 Hm0) as (Hcj & _).
        rewrite Hcj in Heq. apply (f_equal (@List.length string)) in Heq.
        rewrite List.length_app in Heq. simpl in Heq. lia. }
      assert (Hsrc1 : forall name,
                 name ≠ "" -> mem sep name = false ->
                 FS.read (fs w1) (join source name)
                 = FS.read (fs w) (join source name)).
      { intros name Hn Hm. apply Hfr1. now apply Hcsrc. }
      assert (Hdst1 : forall name,
                 name ≠ "" -> mem sep name = false ->
                 In (join source name) l ->
                 isfile (fs w1) (join source name) = true ->
                 isdir (fs w1) (join out name) = false).
      { intros name Hn Hm Hin Hf1.
        destruct (decide (name = name0)) as [->|Hne].
        - unfold isdir. unfold FS.read in Hr1.
          destruct (resolve (fs w1) (join out name0)) as [[x|x]|];
            congruence.
        - rewrite (isdir_of_read (fs w) (fs w1)).
          + apply Hdst; [assumption|assumption|now right|].
            rewrite <- (isfile_of_read (fs w) (fs w1)); auto.
          + apply Hfr1. intros Heq. apply Hne. now apply Hcdst. }
      destruct (IH w1 Hl' Hout1 Hdst1) as (w' & Hrun & Hw' & Hcp & Hfr).
      exists w'. split.
      { rewrite (copy_files_cons_copy _ _ _ _ Hisf).
        rewrite (basename_join source name0 Hs Hn0 Hm0), Hc. exact Hrun. }
      split.
      { rewrite Hw', Hw1. reflexivity. }
      split.
      * intros name d Hn Hm [Heq|Hin] Hrd.
        -- assert (name0 = name).
           { apply (f_equal basename) in Heq.
             now rewrite !basename_join in Heq by assumption. }
           subst name. assert (d = d0) by congruence. subst d.
           destruct (in_dec string_dec (join source name0) l) as [Hin|Hnin].
           ++ apply Hcp; auto. now rewrite Hsrc1.
           ++ rewrite Hfr; [exact Hr1|].
              intros name Hn' Hm' Hin' _ Heq'.
              apply Hcdst in Heq'; auto. subst name. contradiction.
        -- apply Hcp; auto. now rewrite Hsrc1.
      * intros q Hq. rewrite Hfr.
        -- apply Hfr1. apply (Hq name0); auto. now left.
        -- intros name Hn Hm Hin Hf1.
           apply Hq; [assumption|assumption|now right|].
           rewrite <- (isfile_of_read (fs w) (fs w1)); auto.
    + assert (Hdst' : forall name,
                 name ≠ "" -> mem sep name = false ->
                 In (join source name) l ->
                 isfile (fs w) (join source name) = true ->
                 isdir (fs w) (join out name) = false).
      { intros name Hn Hm Hin Hf. apply Hdst; auto. now right. }
      destruct (IH w Hl' Hout Hdst') as (w' & Hrun & Hw' & Hcp & Hfr).
      exists w'. split.
      { now rewrite (copy_files_cons_skip _ _ _ _ Hisf). }
      split; [exact Hw'|]. split.
      * intros name d Hn Hm [Heq|Hin] Hrd; [|now apply Hcp].
        exfalso. rewrite <- Heq in Hrd.
        assert (Ht : isfile (fs w) (join source name0) = true)
          by (apply isfile_read; eauto).
        congruence.
      * intros q Hq. apply Hfr. intros name Hn Hm Hin Hf. apply Hq; auto.
        now right.
Qed.

(** X13. Copying the remaining files into an existing directory other
    than the source directory returns, whatever the order of the set.
    Afterwards every regular file of the source directory that is not a
    processed file is in the destination under its own name with the
    same bytes; every path that is not one of these destinations is as
    it was, so the source files are kept and a processed file is not
    copied.  A destination that is a directory is excluded. *)
Theorem copy_remaining_copies_unprocessed_files
    order source_dir out_dir es processed w :
  resolve (fs w) source_dir = Some (Dir es) ->
  Forall (fun name => name ≠ "" /\ mem sep name = false) (map fst es) ->
  (forall (S : gset string) f, In f (order S) <-> f ∈ S) ->
  isdir (fs w) out_dir = true ->
  components out_dir ≠ components source_dir ->
  (forall name,
     In name (map fst es) ->
     isfile (fs w) (join source_dir name) = true ->
     isdir (fs w) (join out_dir name) = false) ->
  exists w',
    copy_remaining order source_dir out_dir processed w = (Returned2 tt, w')
    /\ w' = set_fs (fs w') w
    /\ (forall name d,
          In name (map fst es) ->
          join source_dir name ∉ processed ->
          FS.read (fs w) (join source_dir name) = inr d ->
          FS.read (fs w') (join out_dir name) = inr d)
    /\ (forall q,
          (forall name,
             In name (map fst es) ->
             join source_dir name ∉ processed ->
             isfile (fs w) (join source_dir name) = true ->
             components q ≠ components (join out_dir name)) ->
          FS.read (fs w') q = FS.read (fs w) q).
Proof.
  intros Hsrc Hnames Horder Hout Hdiff Hdst.
  assert (Hsdir : isdir (fs w) source_dir = true)
    by (unfold isdir; now rewrite Hsrc).
  pose proof (isdir_nonempty _ _ Hsdir) as Hs.
  pose proof (isdir_nonempty _ _ Hout) as Ho.
  pose proof (proj1 (List.Forall_forall _ _) Hnames) as Hwf.
  assert (Hinj : forall name name',
             In name (map fst es) -> In name' (map fst es) ->
             join source_dir name = join source_dir name' -> name = name').
  { intros name name' Hin Hin' Heq.
    destruct (Hwf _ Hin) as [Hn Hm]. destruct (Hwf _ Hin') as [Hn' Hm'].
    apply (f_equal basename) in Heq.
    now rewrite !basename_join in Heq by assumption. }
  rewrite (copy_remaining_unfold _ _ _ _ _ _ Hsrc Hout).
  set (remaining := (list_to_set (map (join source_dir) (map fst es))
                     ∖ processed : gset string)).
  destruct (0 <? size remaining)%nat eqn:Hsz.
  - assert (Hl : Forall (fun f => exists name,
                             (name ≠ "" /\ mem sep name = false)
                             /\ f = join source_dir name)
                        (order remaining)).
    { apply List.Forall_forall. intros f Hin. apply Horder in Hin.
      apply elem_of_remaining in Hin as [(name & Hin & ->) _].
      exists name. split; [|reflexivity]. now apply Hwf. }
    assert (Hback : forall name,
               name ≠ "" -> mem sep name = false ->
               In (join source_dir name) (order remaining) ->
               In name (map fst es) /\ join source_dir name ∉ processed).
    { intros name Hn Hm Hin. apply Horder in Hin.
      apply elem_of_remaining in Hin as [(name' & Hin' & Heq) Hp].
      split; [|exact Hp].
      destruct (Hwf _ Hin') as [Hn' Hm'].
      apply (f_equal basename) in Heq.
      rewrite !basename_join in Heq by assumption. now subst. }
    destruct (copy_files_other_directory source_dir out_dir Hs Ho Hdiff
                (order remaining) w Hl Hout)
      as (w' & Hrun & Hw' & Hcp & Hfr).
    { intros name Hn Hm Hin Hf. apply Hdst; [|exact Hf].
      now apply Hback. }
    exists w'. split; [exact Hrun|]. split; [exact Hw'|]. split.
    + intros name d Hin Hp Hrd. destruct (Hwf _ Hin) as [Hn Hm].
      apply Hcp; auto. apply Horder. apply elem_of_remaining.
      split; [exists name; auto|exact Hp].
    + intros q Hq. apply Hfr. intros name Hn Hm Hin Hf.
      destruct (Hback name Hn Hm Hin) as [Hin' Hp]. now apply Hq.
  - exists w. split; [reflexivity|]. split; [now rewrite set_fs_same|].
    split; [|reflexivity].
    intros name d Hin Hp _. exfalso. apply Hp.
    now apply (remaining_empty source_dir (map fst es) processed name).
Qed.

Lemma copy_remaining_copies_unprocessed_files_witness :
  exists w',
    copy_remaining elements "d" "out" {[ "d/a.jpg"; "d/a.mov" ]}
      (start tree_pair [])
    = (Returned2 tt, w')
    /\ FS.read (fs w') "out/a.mp4" = inr other_video_bytes
    /\ FS.read (fs w') "out/a.jpg" = inl ENOENT
    /\ FS.read (fs w') "d/a.mp4" = inr other_video_bytes.
Proof.
  destruct (copy_remaining_copies_unprocessed_files elements "d" "out"
              [("a.jpg", File jpeg_bytes);
               ("a.mov", File Scenario.video_bytes);
               ("a.mp4", File other_video_bytes)]
              {[ "d/a.jpg"; "d/a.mov" ]} (start tree_pair []))
    as (w' & Hrun & _ & Hcp & Hfr).
  - reflexivity.
  - repeat constructor; discriminate.
  - intros S f. rewrite <- list_elem_of_In. apply elem_of_elements.
  - reflexivity.
  - discriminate.
  - intros name [<-|[<-|[<-|[]]]] _; reflexivity.
  - assert (Hother : forall q,
               components q ≠ ["out"; "a.mp4"] ->
               FS.read (fs w') q = FS.read tree_pair q).
    { intros q Hq. apply Hfr.
      intros name [<-|[<-|[<-|[]]]] Hp _.
      - exfalso. apply Hp. vm_compute. reflexivity.
      - exfalso. apply Hp. vm_compute. reflexivity.
      - exact Hq. }
    exists w'. split; [exact Hrun|]. split; [|split].
    + apply (Hcp "a.mp4"); [right; right; left; reflexivity| |reflexivity].
      vm_compute. discriminate.
    + rewrite Hother; [reflexivity|discriminate].
    + rewrite Hother; [reflexivity|discriminate].
Defined.

(** *** The whole run *)

Lemma lift_bind2 {A B} (m : M A) (k : A -> M2 B) w :
  bind2 (lift m) k w
  = match m w with
    | (Returned a, w1) => k a w1
    | (Raised e, w1) => (Raised2 e, w1)
    end.
Proof. unfold bind2, lift. now destruct (m w) as [[a|e] w1]. Qed.

Lemma prompt_directory_same_fs w r w' :
  get_source_directory w = (r, w') -> fs w' = fs w.
Proof.
  unfold get_source_directory.
  destruct (prompt_directory (fs w) (stdin w)) as [r0 rest].
  now inversion 1.
Qed.

Lemma prompt_yes_no_same_fs w r w' :
  ask_convert_all w = (r, w') -> fs w' = fs w.
Proof.
  unfold ask_convert_all. destruct (prompt_yes_no (stdin w)) as [r0 rest].
  now inversion 1.
Qed.

Lemma join_nonempty_l a b : a ≠ "" -> mem sep b = false -> join a b ≠ "".
Proof.
  intros Ha Hm. destruct (String.eqb b "") eqn:Hb.
  - apply String.eqb_eq in Hb. subst b. unfold join. simpl startswith.
    destruct (String.eqb a "" || endswith a "/")%bool;
      destruct a; try congruence; discriminate.
  - apply String.eqb_neq in Hb. now apply join_nonempty.
Qed.

(** The path [join a b] leads below [a], or to [a]. *)
Lemma components_join_prefix a b :
  a ≠ "" -> mem sep b = false ->
  exists k, components (join a b) = (components a ++ k)%list.
Proof.
  intros Ha Hm. destruct (String.eqb b "") eqn:Hb.
  - apply String.eqb_eq in Hb. subst b. exists []. rewrite List.app_nil_r.
    unfold join. simpl startswith.
    destruct (String.eqb a "" || endswith a "/")%bool.
    + now rewrite app_nil_r.
    + rewrite app_nil_r. now apply components_app_all_sep.
  - apply String.eqb_neq in Hb. exists [b].
    apply (components_join a b Ha Hb Hm).
Qed.

Lemma copy2_frame src dst w r w' q :
  copy2 src dst w = (r, w') ->
  components q ≠ components dst ->
  components q ≠ components (join dst (basename src)) ->
  file_of (resolve (fs w') q) = file_of (resolve (fs w) q).
Proof.
  intros Hrun Hq1 Hq2. unfold copy2 in Hrun.
  rewrite lift_bind2 in Hrun. unfold reads at 1 in Hrun.
  set (dst' := if isdir (fs w) dst then join dst (basename src) else dst)
    in Hrun.
  assert (Hq : components q ≠ components dst').
  { unfold dst'. now destruct (isdir (fs w) dst). }
  clearbody dst'.
  rewrite lift_bind2 in Hrun. unfold reads at 1 in Hrun.
  destruct (samefile (fs w) src dst'); [now inversion Hrun|].
  rewrite lift_bind2 in Hrun.
  destruct (open_rb src w) as [[u|e] w1] eqn:H1.
  2:{ inversion Hrun; subst.
      apply (writes_only_open_rb (fun _ => False) src w _ w' q H1). tauto. }
  assert (F1 : file_of (resolve (fs w1) q) = file_of (resolve (fs w) q)).
  { apply (writes_only_open_rb (fun _ => False) src w _ w1 q H1). tauto. }
  rewrite lift_bind2 in Hrun.
  destruct (open_wb dst' w1) as [[u2|e] w2] eqn:H2.
  2:{ inversion Hrun; subst. rewrite <- F1.
      apply (writes_only_open_wb dst' w1 _ w' q H2 Hq). }
  assert (F2 : file_of (resolve (fs w2) q) = file_of (resolve (fs w) q)).
  { rewrite <- F1. apply (writes_only_open_wb dst' w1 _ w2 q H2 Hq). }
  rewrite lift_bind2 in Hrun.
  destruct (file_read src w2) as [[data|e] w3] eqn:H3.
  2:{ inversion Hrun; subst. rewrite <- F2.
      apply (writes_only_file_read (fun _ => False) src w2 _ w' q H3). tauto. }
  assert (F3 : file_of (resolve (fs w3) q) = file_of (resolve (fs w) q)).
  { rewrite <- F2.
    apply (writes_only_file_read (fun _ => False) src w2 _ w3 q H3). tauto. }
  rewrite lift_bind2 in Hrun.
  destruct (file_write dst' data w3) as [[u4|e] w4] eqn:H4;
    inversion Hrun; subst; rewrite <- F3;
    apply (writes_only_file_write dst' data w3 _ _ q H4 Hq).
Qed.

Lemma copy_files_frame out_dir q :
  out_dir ≠ "" ->
  (forall k, components q ≠ (components out_dir ++ k)%list) ->
  forall l w r w',
    copy_files out_dir l w = (r, w') ->
    file_of (resolve (fs w') q) = file_of (resolve (fs w) q).
Proof.
  intros Ho Hq. induction l as [|f l IH]; intros w r w' Hrun.
  - now inversion Hrun.
  - destruct (isfile (fs w) f) eqn:Hf.
    + rewrite (copy_files_cons_copy _ _ _ _ Hf) in Hrun.
      pose proof (basename_nosep f) as Hm.
      destruct (components_join_prefix out_dir (basename f) Ho Hm) as [k Hk].
      destruct (components_join_prefix (join out_dir (basename f)) (basename f)
                  (join_nonempty_l _ _ Ho Hm) Hm) as [k' Hk'].
      assert (Hstep : forall r1 w1,
                 copy2 f (join out_dir (basename f)) w = (r1, w1) ->
                 file_of (resolve (fs w1) q) = file_of (resolve (fs w) q)).
      { intros r1 w1 Hc. apply (copy2_frame _ _ _ _ _ _ Hc).
        - rewrite Hk. apply Hq.
        - rewrite Hk', Hk, <- List.app_assoc. apply Hq. }
      destruct (copy2 f (join out_dir (basename f)) w) as [[p|e|s d] w1] eqn:Hc.
      * rewrite (IH _ _ _ Hrun). now apply (Hstep _ _ eq_refl).
      * inversion Hrun; subst. now apply (Hstep _ _ eq_refl).
      * inversion Hrun; subst. now apply (Hstep _ _ eq_refl).
    + rewrite (copy_files_cons_skip _ _ _ _ Hf) in Hrun. apply (IH _ _ _ Hrun).
Qed.

Lemma copy_remaining_frame order source_dir out_dir processed q w r w' :
  out_dir ≠ "" ->
  (forall k, components q ≠ (components out_dir ++ k)%list) ->
  copy_remaining order source_dir out_dir processed w = (r, w') ->
  file_of (resolve (fs w') q) = file_of (resolve (fs w) q).
Proof.
  intros Ho Hq Hrun. unfold copy_remaining in Hrun.
  rewrite lift_bind2 in Hrun. unfold os_listdir, lift_os in Hrun.
  destruct (listdir (fs w) source_dir) as [e|names];
    [now inversion Hrun|]. cbn [ret] in Hrun.
  destruct (0 <? size _)%nat; [|now inversion Hrun].
  rewrite lift_bind2 in Hrun.
  destruct (os_makedirs out_dir w) as [[u|e] w1] eqn:Hmk.
  - rewrite (copy_files_frame out_dir q Ho Hq _ _ _ _ Hrun).
    apply (writes_only_makedirs (fun _ => False) out_dir w _ w1 q Hmk). tauto.
  - inversion Hrun; subst.
    apply (writes_only_makedirs (fun _ => False) out_dir w _ w' q Hmk). tauto.
Qed.

Lemma remove_frame t path t' q :
  remove t path = inr t' ->
  components q ≠ components path ->
  file_of (resolve t' q) = file_of (resolve t q).
Proof.
  unfold remove. destruct (String.eqb path ""); [discriminate|].
  intros Hu Hq. unfold resolve. destruct (String.eqb q ""); [reflexivity|].
  apply (lookup_unlink_ne _ _ _ _ Hu Hq).
Qed.

Lemma delete_files_frame q files : forall w r w',
  delete_files files w = (r, w') ->
  (forall f, In f files -> components q ≠ components f) ->
  file_of (resolve (fs w') q) = file_of (resolve (fs w) q).
Proof.
  induction files as [|file files IH]; intros w r w' Hrun Hq.
  - now inversion Hrun.
  - destruct (delete_one file w) as (w1 & Hstep & _ & Hfs).
    simpl delete_files in Hrun. rewrite (bind_run _ _ _ _ _ Hstep) in Hrun.
    rewrite (IH _ _ _ Hrun) by (intros f Hin; apply Hq; now right).
    destruct (remove (fs w) file) as [e|t'] eqn:Hr; rewrite Hfs;
      [reflexivity|].
    apply (remove_frame _ _ _ _ Hr). apply Hq. now left.
Qed.

(** The processed set holds members of the pairs only. *)
Lemma convert_pairs_processed_in E out_dir convert_all pairs :
  forall processed w processed' w',
    convert_pairs E out_dir convert_all pairs processed w
    = (Returned processed', w') ->
    forall path,
      path ∈ processed' ->
      path ∈ processed
      \/ exists photo video,
           In (photo, video) pairs /\ (path = photo \/ path = video).
Proof.
  induction pairs as [|[photo video] pairs IH];
    intros processed w processed' w' Hrun path Hpath.
  - inversion Hrun; subst. now left.
  - destruct (validate_media (fs w) photo video) eqn:Hv.
    + rewrite (convert_pairs_validated _ _ _ _ _ _ _ _ Hv) in Hrun.
      destruct (convert E photo video out_dir convert_all w) as [[u|e] w1];
        [|discriminate].
      destruct (IH _ _ _ _ Hrun path Hpath) as [Hold|(p & v & Hin & Hpv)].
      * apply elem_of_union in Hold as [Hold|Hvid].
        -- apply elem_of_union in Hold as [Hold|Hph]; [now left|].
           apply elem_of_singleton in Hph. right. exists photo, video.
           split; [now left|now left].
        -- apply elem_of_singleton in Hvid. right. exists photo, video.
           split; [now left|now right].
      * right. exists p, v. split; [now right|exact Hpv].
    + rewrite (convert_pairs_rejected _ _ _ _ _ _ _ _ Hv) in Hrun.
      destruct (IH _ _ _ _ Hrun path Hpath) as [Hold|(p & v & Hin & Hpv)];
        [now left|].
      right. exists p, v. split; [now right|exact Hpv].
Qed.

(** X14. A complete run of [main], however it ends, touches only the
    output directory and the pairs it found: a path that is neither the
    output directory, nor below it, nor the photo or the video of a pair
    found under the source directory, holds the regular file it held, or
    still holds none.  The order of a set may be any order that yields
    elements of the set only. *)
Theorem complete_run_touches_outputs_and_pairs_only
    E order w source_dir wa out_dir wb r w' q :
  (forall (S : gset string) f, In f (order S) -> f ∈ S) ->
  get_source_directory w = (Returned source_dir, wa) ->
  get_destination_directory wa = (Returned out_dir, wb) ->
  main_complete E order w = (r, w') ->
  (forall k, components q ≠ (components out_dir ++ k)%list) ->
  (forall photo video,
     In (photo, video) (process_directory (fs w) source_dir false) ->
     components q ≠ components photo /\ components q ≠ components video) ->
  file_of (resolve (fs w') q) = file_of (resolve (fs w) q).
Proof.
  intros Horder Hs Ho Hrun Hout Hpairs.
  pose proof (prompt_directory_same_fs _ _ _ Hs) as Fa.
  pose proof (prompt_directory_same_fs _ _ _ Ho) as Fb.
  assert (Hone : out_dir ≠ "").
  { pose proof (prompt_directory_spec (fs wa) (stdin wa)) as Hp.
    unfold get_destination_directory in Ho.
    destruct (prompt_directory (fs wa) (stdin wa)) as [[dir|e] rest];
      inversion Ho; subst.
    destruct Hp as (_ & _ & _ & _ & Hdir & _).
    apply (isdir_nonempty _ _ Hdir). }
  unfold main_complete in Hrun.
  rewrite lift_bind2, Hs, lift_bind2, Ho, lift_bind2 in Hrun.
  destruct (ask_convert_all wb) as [[convert_all|e] wc] eqn:Hca.
  2:{ inversion Hrun; subst.
      rewrite (prompt_yes_no_same_fs _ _ _ Hca). congruence. }
  pose proof (prompt_yes_no_same_fs _ _ _ Hca) as Fc.
  assert (Fc' : fs wc = fs w) by congruence.
  rewrite lift_bind2 in Hrun. unfold reads at 1 in Hrun.
  rewrite Fc' in Hrun.
  set (pairs := process_directory (fs w) source_dir false) in *.
  rewrite lift_bind2 in Hrun.
  assert (Fd : forall r1 wd,
             convert_pairs E out_dir convert_all pairs ∅ wc = (r1, wd) ->
             file_of (resolve (fs wd) q) = file_of (resolve (fs w) q)).
  { intros r1 wd Hcp. rewrite <- Fc'.
    apply (writes_only_convert_pairs _ _ _ _ _ _ _ _ q Hcp).
    intros (photo & video & _ & Heq).
    destruct (components_join_prefix out_dir (basename photo) Hone
                (basename_nosep photo)) as [k Hk].
    apply (Hout k). congruence. }
  destruct (convert_pairs E out_dir convert_all pairs ∅ wc)
    as [[processed|e] wd] eqn:Hcp.
  2:{ inversion Hrun; subst. now apply (Fd _ _ eq_refl). }
  specialize (Fd _ _ eq_refl).
  rewrite lift_bind2 in Hrun.
  destruct (ask_copy_all wd) as [[copy_all|e] we] eqn:Hcopy.
  2:{ inversion Hrun; subst.
      now rewrite (prompt_yes_no_same_fs _ _ _ Hcopy). }
  pose proof (prompt_yes_no_same_fs _ _ _ Hcopy) as Fe.
  unfold bind2 at 1 in Hrun.
  assert (Ff : forall r1 wf,
             (if copy_all
              then copy_remaining order source_dir out_dir processed
              else ret2 tt) we = (r1, wf) ->
             file_of (resolve (fs wf) q) = file_of (resolve (fs w) q)).
  { intros r1 wf Hc. rewrite <- Fd, <- Fe. destruct copy_all.
    - apply (copy_remaining_frame _ _ _ _ _ _ _ _ Hone Hout Hc).
    - now inversion Hc. }
  destruct ((if copy_all
             then copy_remaining order source_dir out_dir processed
             else ret2 tt) we) as [[u|e|s d] wf] eqn:Hc.
  2:{ inversion Hrun; subst. now apply (Ff _ _ eq_refl). }
  2:{ inversion Hrun; subst. now apply (Ff _ _ eq_refl). }
  specialize (Ff _ _ eq_refl).
  rewrite lift_bind2 in Hrun.
  destruct (ask_delete_converted_files wf) as [[delete|e] wg] eqn:Hdel.
  2:{ inversion Hrun; subst.
      now rewrite (prompt_yes_no_same_fs _ _ _ Hdel). }
  pose proof (prompt_yes_no_same_fs _ _ _ Hdel) as Fg.
  destruct delete; [|inversion Hrun; subst; congruence].
  unfold lift in Hrun.
  destruct (delete_files (order processed) wg) as [[u'|e] wh] eqn:Hd;
    inversion Hrun; subst; rewrite <- Ff, <- Fg;
    apply (delete_files_frame _ _ _ _ _ Hd); intros f Hin;
    apply Horder in Hin;
    (destruct (convert_pairs_processed_in _ _ _ _ _ _ _ _ Hcp f Hin)
      as [Hempty|(photo & video & Hpv & [-> | ->])];
     [now apply not_elem_of_empty in Hempty
     |apply (Hpairs _ _ Hpv)|apply (Hpairs _ _ Hpv)]).
Qed.

Lemma complete_run_touches_outputs_and_pairs_only_witness :
  let w := start tree_pair ["d"; "out"; "yes"; "yes"; "yes"] in
  let r := main_complete sample_env elements w in
  fst r = Returned2 tt
  /\ file_of (resolve (fs (snd r)) "d/a.jpg") = None
  /\ file_of (resolve (fs (snd r)) "d/a.mp4") = Some other_video_bytes.
Proof.
  intros w r. split; [vm_compute; reflexivity|].
  split; [vm_compute; reflexivity|].
  rewrite (complete_run_touches_outputs_and_pairs_only sample_env elements w
             "d" (set_stdin ["out"; "yes"; "yes"; "yes"] w)
             "out" (set_stdin ["yes"; "yes"; "yes"] w)
             (fst r) (snd r) "d/a.mp4").
  - reflexivity.
  - intros S f Hin. apply elem_of_elements. now apply list_elem_of_In.
  - reflexivity.
  - reflexivity.
  - apply surjective_pairing.
  - intros k H. vm_compute in H. discriminate.
  - intros photo video Hin. vm_compute in Hin. destruct Hin as [H|[]].
    inversion H; subst. split; vm_compute; discriminate.
Defined.
(* ===================================================================== *)
(** ** Runs of the model on the sample trees *)
(* ===================================================================== *)

Module Examples.

Example splitext_plain : splitext "d/a.b/img.HEIC" = ("d/a.b/img", ".HEIC").
Proof. reflexivity. Qed.

Example splitext_dotfile : splitext "d/.heic" = ("d/.heic", "").
Proof. reflexivity. Qed.

Example splitext_no_extension : splitext "d.x/img" = ("d.x/img", "").
Proof. reflexivity. Qed.

Example join_plain : join "d" "a.jpg" = "d/a.jpg".
Proof. reflexivity. Qed.

Example join_after_separator : join "d/" "a.jpg" = "d/a.jpg".
Proof. reflexivity. Qed.

Example join_absolute : join "d" "/a.jpg" = "/a.jpg".
Proof. reflexivity. Qed.

Example basename_plain : basename "d/e/a.jpg" = "a.jpg".
Proof. reflexivity. Qed.

Example dirname_plain : dirname "d/e//a.jpg" = "d/e".
Proof. reflexivity. Qed.

Example dirname_of_root_file : dirname "/a.jpg" = "/".
Proof. reflexivity. Qed.

Example dirname_of_bare_name : dirname "a.jpg" = "".
Proof. reflexivity. Qed.

Example lower_mixed_case : lower "IMG_1.HeIc" = "img_1.heic".
Proof. reflexivity. Qed.

Example strip_spaces : strip "  d/out  " = "d/out".
Proof. reflexivity. Qed.

Example components_plain : components "/d//e/a.jpg" = ["d"; "e"; "a.jpg"].
Proof. reflexivity. Qed.

Example walk_nested :
  walk tree_nested "d" = [("d", ["sub"], []); ("d/sub", [], ["c.jpg"; "c.mov"])].
Proof. reflexivity. Qed.

(** A run of [main] on one pair: the answers are the source directory, the
    destination directory and "no" to the convert-all question. *)
Example main_one_pair :
  let r := main sample_env (start tree_pair ["d"; "out"; "no"]) in
  fst r = Returned (∅ ∪ {["d/a.jpg"]} ∪ {["d/a.mov"]})
  /\ FS.read (fs (snd r)) "out/a.jpg"
     = inr [Byte.xff; Byte.xd8; Byte.xff; Byte.xe1; Byte.x01; Byte.x02;
            Byte.x10; Byte.x11; Byte.x12]
  /\ FS.read (fs (snd r)) "d/a.jpg" = inr jpeg_bytes
  /\ namespaces (snd r) = {["GCamera"]} ∪ ∅
  /\ stdin (snd r) = [].
Proof.
  intros r.
  split; [vm_compute; reflexivity|]. split; [vm_compute; reflexivity|].
  split; [vm_compute; reflexivity|]. split; vm_compute; reflexivity.
Qed.

(** The offset written for that pair is the size of the video. *)
Example main_one_pair_offset :
  match xmp_log (snd (main sample_env (start tree_pair ["d"; "out"; "no"]))) with
  | [XmpWrite file tags] =>
      file = "out/a.jpg"
      /\ tags !! "Xmp.GCamera.MicroVideoOffset" = Some (XmpInt 3)
  | _ => False
  end.
Proof. vm_compute. split; reflexivity. Qed.

(** The destination is the source directory: the photo is emptied before
    it is read, the merged file is the video alone and exiv2 raises on
    it. *)
Example main_into_source_directory :
  let r := main sample_env (start tree_pair ["d"; "d"; "no"]) in
  fst r = Raised Exiv2Error
  /\ FS.read (fs (snd r)) "d/a.jpg" = inr Scenario.video_bytes.
Proof. vm_compute. split; reflexivity. Qed.

(** Lines that do not name a directory are read over. *)
Example get_source_directory_asks_again :
  get_source_directory (start tree_pair ["missing"; "d/a.jpg"; " d "; "out"])
  = (Returned "d", start tree_pair ["out"]).
Proof. reflexivity. Qed.

Example ask_convert_all_asks_again :
  ask_convert_all (start tree_pair ["maybe"; " YES "; "no"])
  = (Returned true, start tree_pair ["no"]).
Proof. reflexivity. Qed.

(** The second registration of the prefix raises [KeyError], which
    [add_xmp_metadata] catches. *)
Example register_namespace_twice :
  let w := set_namespaces {["GCamera"]} (start tree_merged []) in
  fst (register_namespace "http://ns.google.com/photos/1.0/camera/" "GCamera" w)
  = Raised KeyError
  /\ fst (add_xmp_metadata sample_env "out/a.jpg" 3 w) = Returned tt.
Proof. vm_compute. split; reflexivity. Qed.

End Examples.
